(** * Banking-System: the transfer engine, its scheduler and its job registry

    A shallow embedding of
      - [schemas.py]                       (the [User] and [Transaction] rows),
      - [services/transfer_service.py]     (validation and execution),
      - [api/routes/transfers.py], [api/routes/users.py], [api/routes/tasks.py],
      - [celery_worker.py]                 (the deferred execution task),
    followed by the properties of the written specification.

    Conventions of the embedding.
      - Monetary amounts are Python floats and [Float] columns: binary64
        values, with their rounding, their infinities and NaN.  They are the
        primitive floats of Rocq, which are binary64 too, and the comparisons
        of Python are those of [PrimFloat].  The store keeps a float as it
        is handed to it: the engine is chosen in [db.py], which is not among
        the files embedded here, and what one engine or another does with a
        NaN is not part of the embedding.
      - A calendar date is its day number, a [datetime] the number of seconds
        since the same origin; one day has 86400 seconds.
      - An ORM object is referred to by the position of its row in the
        session's view of the [users] table: two queries that return the same
        row return the same object, as SQLAlchemy's identity map does. *)

From stdpp Require Import base decidable option list strings gmap pretty sorting.
From Stdlib Require Import ZArith Lia Ascii Floats.

Local Open Scope Z_scope.

(** ** Python's floats *)

(** [x <= y] and [x < y] on floats, as propositions: both are false as soon
    as one side is NaN. *)
Definition float_le (x y : float) : Prop := PrimFloat.leb x y = true.
Definition float_lt (x y : float) : Prop := PrimFloat.ltb x y = true.

#[global] Instance float_le_dec x y : Decision (float_le x y) :=
  decide (PrimFloat.leb x y = true).
#[global] Instance float_lt_dec x y : Decision (float_lt x y) :=
  decide (PrimFloat.ltb x y = true).

Notation "x ≤ y" := (float_le x y) : float_scope.
Notation "x < y" := (float_lt x y) : float_scope.
Notation "x > y" := (float_lt y x) (only parsing) : float_scope.

(** ** Binary64 values

    The value of a finite binary64 number of mantissa [m] and exponent [e]
    is m * 2^e; the least exponent is -1074, so every value is a whole
    multiple of 2^-1074. *)

(** m * 2^e in units of 2^-1074 *)
Definition fvalue (m : positive) (e : Z) : Z := Z.pos m * 2 ^ (e + 1074).

(** [m] and [e] are the mantissa and the exponent of a binary64 number. *)
Definition canonical (m : positive) (e : Z) : Prop :=
  bounded prec emax m e = true.

(** A bound above every finite value. *)
Definition big : Z := 2 ^ 2100.

(** The value of a number of binary64, in units of 2^-1074; the infinities
    are put beyond every finite value. *)
Definition SFvalue (x : spec_float) : Z :=
  match x with
  | S754_zero _ => 0
  | S754_infinity s => if s then - big else big
  | S754_nan => 0
  | S754_finite s m e => if s then - fvalue m e else fvalue m e
  end.

Definition SFnumber (x : spec_float) : Prop :=
  valid_binary x = true ∧ x ≠ S754_nan.

(** [r] is a zero, a finite number or an infinity of sign [s]. *)
Definition SFsigned (s : bool) (r : spec_float) : Prop :=
  r = S754_zero s ∨ (∃ m e, r = S754_finite s m e) ∨ r = S754_infinity s.

Definition SFnonneg (r : spec_float) : Prop :=
  r ≠ S754_nan ∧ 0 ≤ SFvalue r.

Definition float_value (x : float) : Z := SFvalue (Prim2SF x).

(** [x] is a number: it is not NaN. *)
Definition float_number (x : float) : Prop := PrimFloat.is_nan x = false.

(** ** schemas.py *)

Module User.
Record t := mk {
  id : Z;
  username : string;
  AccountNo : Z;
  Amount : float;
  daily_used : float;
  last_reset : Z
}.

Definition set_Amount (v : float) (u : t) : t :=
  mk (id u) (username u) (AccountNo u) v (daily_used u) (last_reset u).
Definition set_daily_used (v : float) (u : t) : t :=
  mk (id u) (username u) (AccountNo u) (Amount u) v (last_reset u).
Definition set_last_reset (v : Z) (u : t) : t :=
  mk (id u) (username u) (AccountNo u) (Amount u) (daily_used u) v.
End User.

Module Transaction.
(** The surrogate key of a transaction row is handed out by the engine and
    never read by the program; it is the position of the row.  [timestamp]
    is a server default: it is [None] on the Python object until the row is
    written. *)
Record t := mk {
  user_id : Z;
  account_no : Z;
  amount : float;
  transaction_type : string;
  timestamp : option Z
}.

Definition stamp (now : Z) (x : t) : t :=
  mk (user_id x) (account_no x) (amount x) (transaction_type x)
     (Some (default now (timestamp x))).
End Transaction.

Module TransferRequest.
Record t := mk { sender_id : Z; receiver_account : Z; amount : float }.
End TransferRequest.

Module ScheduledTransferRequest.
Record t := mk {
  sender_id : Z;
  receiver_account : Z;
  amount : float;
  scheduled_date : Z
}.
End ScheduledTransferRequest.

(** ** The store, the environment and the ORM session *)

Record Store := mkStore {
  users : list User.t;
  transactions : list Transaction.t
}.

(** What the surroundings answer during one operation: the clock, whether the
    engine accepts the commit, whether the broker accepts a message, and the
    identifiers that the broker and the engine hand out.  The commit is the
    one place where the engine may fail: a query and a refresh read what is
    committed. *)
Record World := mkWorld {
  now : Z;
  commit_fault : option string;
  broker_fault : option string;
  fresh_task_id : string;
  fresh_user_id : Z
}.

Definition seconds_per_day : Z := 86400.

(** [date.today()] *)
Definition today (w : World) : Z := now w `div` seconds_per_day.

(** [datetime.combine(d, datetime.min.time())] *)
Definition datetime_combine_min (d : Z) : Z := d * seconds_per_day.

(** A session holds the rows as last committed, the [User] objects as the
    session sees them (loaded rows with their pending changes) and the
    [Transaction] objects added but not yet written. *)
Record Session := mkSession {
  committed : Store;
  objects : list User.t;
  pending : list Transaction.t
}.

(** The reasons carried by the [detail] of an [HTTPException] and by the
    [error] of a task result:
      [InvalidAmount]          "Invalid transfer amount"
      [SelfTransfer]           "Cannot transfer to the same account"
      [InsufficientFunds]      "Insufficient funds"
      [DailyLimitExceeded r]   "Transfer exceeds daily limit of r"
      [SenderNotFound]         "Sender not found"
      [ReceiverNotFound]       "Receiver account not found"
      [TransactionFailed e]    "Transaction failed: e"
      [NotInFuture]            "Scheduled date must be in the future"
      [FailedToSchedule e]     "Failed to schedule transfer: e"
      [DatabaseError e]        "Database error: e" *)
Inductive Reason :=
| InvalidAmount
| SelfTransfer
| InsufficientFunds
| DailyLimitExceeded (remaining : float)
| SenderNotFound
| ReceiverNotFound
| TransactionFailed (e : string)
| NotInFuture
| FailedToSchedule (e : string)
| DatabaseError (e : string).

Inductive exn :=
| HTTPException (status_code : Z) (detail : Reason)
| SQLAlchemyError (msg : string)
| BrokerError (msg : string)
| Retry (exc : exn) (countdown : Z).

Inductive result (A : Type) :=
| Return (a : A)
| Raise (e : exn).
Arguments Return {A} a.
Arguments Raise {A} e.

(** Computations that read and change the session and may raise.  A raised
    exception keeps the changes made so far: Python does not undo them. *)
Definition M (A : Type) : Type := Session → result A * Session.

#[global] Instance M_ret : MRet M := λ A a s, (Return a, s).
#[global] Instance M_bind : MBind M := λ A B f m s,
  match m s with
  | (Return a, s') => f a s'
  | (Raise e, s') => (Raise e, s')
  end.

Definition raise {A} (e : exn) : M A := λ s, (Raise e, s).

(** [try: body  except <class> as e: handler e] *)
Definition try_except {A} (body : M A) (caught : exn → bool)
    (handler : exn → M A) : M A := λ s,
  match body s with
  | (Raise e, s') => if caught e then handler e s' else (Raise e, s')
  | r => r
  end.

Definition is_SQLAlchemyError (e : exn) : bool :=
  match e with SQLAlchemyError _ => true | _ => false end.

(** every class of [exn] derives from [Exception] *)
Definition is_Exception (e : exn) : bool := true.

(** [str(e)].  The program asks for the text of the errors of the engine and
    of the broker only; the other two classes are named. *)
Definition str (e : exn) : string :=
  match e with
  | SQLAlchemyError m => m
  | BrokerError m => m
  | HTTPException _ _ => "HTTPException"
  | Retry _ _ => "Retry"
  end.

(** [db.query(schemas.User).filter(P).first()] *)
Definition query_first (P : User.t → Prop) `{!∀ u, Decision (P u)} :
    M (option nat) := λ s,
  (Return (fst <$> list_find P (objects s)), s).

(** Reading and writing an attribute of a loaded object.  An object whose row
    is gone makes the ORM raise. *)
Definition getattr {A} (o : nat) (f : User.t → A) : M A := λ s,
  match objects s !! o with
  | Some u => (Return (f u), s)
  | None => (Raise (SQLAlchemyError "ObjectDeletedError"), s)
  end.

Definition setattr (o : nat) (f : User.t → User.t) : M unit := λ s,
  match objects s !! o with
  | Some u =>
      (Return (), mkSession (committed s) (<[o := f u]> (objects s)) (pending s))
  | None => (Raise (SQLAlchemyError "ObjectDeletedError"), s)
  end.

(** [db.add_all(txns)] *)
Definition add_all (txns : list Transaction.t) : M unit := λ s,
  (Return (), mkSession (committed s) (objects s) (pending s ++ txns)).

(** [db.commit()]: the objects are written, the added rows are appended with
    their server defaults; or the engine refuses and nothing is written. *)
Definition commit (w : World) : M unit := λ s,
  match commit_fault w with
  | Some e => (Raise (SQLAlchemyError e), s)
  | None =>
      (Return (),
       mkSession
         (mkStore (objects s)
            (transactions (committed s) ++
               (Transaction.stamp (now w) <$> pending s)))
         (objects s) [])
  end.

(** [db.rollback()]: pending changes are dropped, objects are reloaded. *)
Definition rollback : M unit := λ s,
  (Return (), mkSession (committed s) (users (committed s)) []).

(** [db.refresh(o)]: the attributes of [o] are read again from its row. *)
Definition refresh (o : nat) : M unit := λ s,
  match users (committed s) !! o with
  | Some u =>
      (Return (), mkSession (committed s) (<[o := u]> (objects s)) (pending s))
  | None => (Raise (SQLAlchemyError "ObjectDeletedError"), s)
  end.

(** A session opened on the store, as [sessionLocal()] does. *)
Definition open_session (st : Store) : Session := mkSession st (users st) [].

(** The request-scoped session of [api/dependencies.py] (and the
    [try ... finally: db.close()] of the worker): what is not committed when
    the session is closed is lost. *)
Definition get_db {A} (body : M A) (st : Store) : result A * Store :=
  let '(r, s) := body (open_session st) in (r, committed s).

(** ** services/transfer_service.py *)

Definition validate_transfer_request (w : World) (sender receiver : nat)
    (amount : float) : M unit :=
  if decide (amount ≤ 0)%float then
    raise (HTTPException 400 InvalidAmount)
  else
    sender_no ← getattr sender User.AccountNo;
    receiver_no ← getattr receiver User.AccountNo;
    if decide (sender_no = receiver_no) then
      raise (HTTPException 400 SelfTransfer)
    else
      balance ← getattr sender User.Amount;
      if decide (balance < amount)%float then
        raise (HTTPException 400 InsufficientFunds)
      else
        last ← getattr sender User.last_reset;
        (if decide (last ≠ today w) then
           setattr sender (User.set_daily_used 2000);;
           setattr sender (User.set_last_reset (today w))
         else mret ());;
        remaining ← getattr sender User.daily_used;
        if decide (amount > remaining)%float then
          raise (HTTPException 400 (DailyLimitExceeded remaining))
        else mret ().

(** The summary returned by a successful transfer. *)
Record TransferSummary := mkSummary {
  sender_username : string;
  sender_balance : float;
  daily_limit_remaining : float;
  receiver_username : string;
  receiver_balance : float
}.

Definition summary (sender receiver : nat) : M TransferSummary :=
  su ← getattr sender User.username;
  sb ← getattr sender User.Amount;
  sd ← getattr sender User.daily_used;
  ru ← getattr receiver User.username;
  rb ← getattr receiver User.Amount;
  mret (mkSummary su sb sd ru rb).

Definition execute_transfer (w : World) (sender receiver : nat)
    (amount : float) : M TransferSummary :=
  validate_transfer_request w sender receiver amount;;
  try_except
    (balance ← getattr sender User.Amount;
     setattr sender (User.set_Amount (balance - amount));;
     remaining ← getattr sender User.daily_used;
     setattr sender (User.set_daily_used (remaining - amount));;
     credit ← getattr receiver User.Amount;
     setattr receiver (User.set_Amount (credit + amount));;
     sender_key ← getattr sender User.id;
     sender_no ← getattr sender User.AccountNo;
     let sender_txn :=
       Transaction.mk sender_key sender_no (- amount) "debit" None in
     receiver_key ← getattr receiver User.id;
     receiver_no ← getattr receiver User.AccountNo;
     let receiver_txn :=
       Transaction.mk receiver_key receiver_no amount "credit" None in
     add_all [sender_txn; receiver_txn];;
     commit w;;
     refresh sender;;
     refresh receiver;;
     summary sender receiver)
    is_SQLAlchemyError
    (λ e, rollback;;
          raise (HTTPException 500 (TransactionFailed (str e)))).

(** ** api/routes/transfers.py: the immediate transfer *)

Definition money_transfer (w : World) (request : TransferRequest.t) :
    Store → result TransferSummary * Store :=
  get_db
    (found ← query_first (λ u, User.id u = TransferRequest.sender_id request);
     match found with
     | None => raise (HTTPException 404 SenderNotFound)
     | Some sender =>
         found ← query_first
           (λ u, User.AccountNo u = TransferRequest.receiver_account request);
         match found with
         | None => raise (HTTPException 404 ReceiverNotFound)
         | Some receiver =>
             execute_transfer w sender receiver (TransferRequest.amount request)
         end
     end).

(** ** celery_worker.py and the task queue it runs on *)

(** What the task returns: [{"status": "failed", "error": ...}] or
    [{"status": "success", ..., "amount": amount}]. *)
Inductive TaskResult :=
| TaskFailed (error : Reason)
| TaskSuccess (s : TransferSummary) (amount : float).

Module celery.
(** A message of the broker: one pending execution of the task. *)
Record Message := mkMessage {
  task_id : string;
  sender_id : Z;
  receiver_account : Z;
  amount : float;
  eta : Z;
  retries : Z
}.

(** What the result backend stores for a task id: state [SUCCESS] with the
    returned value, state [FAILURE] with the exception, or state [RETRY]
    with the exception that caused the retry. *)
Inductive Meta :=
| MetaSuccess (r : TaskResult)
| MetaFailure (e : exn)
| MetaRetry (e : exn).

Record App := mkApp {
  broker : list Message;
  backend : gmap string Meta
}.

(** [task.apply_async(args=[...], eta=eta)]: the message is published under
    a new id, or the broker cannot be reached. *)
Definition apply_async (w : World) (sender_id receiver_account : Z)
    (amount : float) (eta : Z) (app : App) : result string * App :=
  match broker_fault w with
  | Some e => (Raise (BrokerError e), app)
  | None =>
      (Return (fresh_task_id w),
       mkApp (broker app ++
                [mkMessage (fresh_task_id w) sender_id receiver_account
                   amount eta 0])
             (backend app))
  end.

(** [AsyncResult(task_id).state]: the state stored for the id; an id the
    backend holds nothing for is reported as [PENDING]. *)
Definition AsyncResult_state (app : App) (task_id : string) : string :=
  match backend app !! task_id with
  | None => "PENDING"
  | Some (MetaSuccess _) => "SUCCESS"
  | Some (MetaFailure _) => "FAILURE"
  | Some (MetaRetry _) => "RETRY"
  end.

(** [AsyncResult(task_id).result] when the task has returned *)
Definition AsyncResult_result (app : App) (task_id : string) :
    option TaskResult :=
  match backend app !! task_id with
  | Some (MetaSuccess r) => Some r
  | _ => None
  end.

(** [AsyncResult(task_id).info] when the task has raised *)
Definition AsyncResult_info (app : App) (task_id : string) : option exn :=
  match backend app !! task_id with
  | Some (MetaFailure e) | Some (MetaRetry e) => Some e
  | _ => None
  end.

(** [Task.retry(exc=exc, countdown=countdown)] for a task declared with
    [max_retries]: the exception to raise.  The request counts the retries
    already made; one more than [max_retries] is not granted and the
    original exception is raised again. *)
Definition retry (max_retries request_retries : Z) (exc : exn)
    (countdown : Z) : exn :=
  if decide (max_retries < request_retries + 1) then exc
  else Retry exc countdown.
End celery.

(** [@celery_app.task(bind=True, max_retries=3)] *)
Definition max_retries : Z := 3.

Definition schedule_money_transfer (w : World) (request_retries : Z)
    (sender_id receiver_account : Z) (amount : float) :
    Store → result TaskResult * Store :=
  get_db
    (try_except
       (found ← query_first (λ u, User.id u = sender_id);
        match found with
        | None => mret (TaskFailed SenderNotFound)
        | Some sender =>
            found ← query_first (λ u, User.AccountNo u = receiver_account);
            match found with
            | None => mret (TaskFailed ReceiverNotFound)
            | Some receiver =>
                balance ← getattr sender User.Amount;
                if decide (balance < amount)%float then
                  mret (TaskFailed InsufficientFunds)
                else
                  last ← getattr sender User.last_reset;
                  (if decide (last ≠ today w) then
                     setattr sender (User.set_daily_used 2000);;
                     setattr sender (User.set_last_reset (today w))
                   else mret ());;
                  remaining ← getattr sender User.daily_used;
                  if decide (amount > remaining)%float then
                    mret (TaskFailed (DailyLimitExceeded remaining))
                  else
                    balance ← getattr sender User.Amount;
                    setattr sender (User.set_Amount (balance - amount));;
                    remaining ← getattr sender User.daily_used;
                    setattr sender (User.set_daily_used (remaining - amount));;
                    credit ← getattr receiver User.Amount;
                    setattr receiver (User.set_Amount (credit + amount));;
                    commit w;;
                    refresh sender;;
                    refresh receiver;;
                    s ← summary sender receiver;
                    mret (TaskSuccess s amount)
            end
        end)
       is_Exception
       (λ e, rollback;;
             raise (celery.retry max_retries request_retries e 60))).

(** One dispatch of message [k] of the broker by the worker: the task runs;
    its return value is stored as a success, a [Retry] puts the message back
    with one more retry and the countdown added to the clock, any other
    exception is stored as a failure. *)
Definition worker_run (w : World) (k : nat) (m : celery.Message)
    (st : Store) (app : celery.App) : Store * celery.App :=
  let '(r, st') :=
    schedule_money_transfer w (celery.retries m) (celery.sender_id m)
      (celery.receiver_account m) (celery.amount m) st in
  match r with
  | Return v =>
      (st', celery.mkApp (delete k (celery.broker app))
              (<[celery.task_id m := celery.MetaSuccess v]>
                 (celery.backend app)))
  | Raise (Retry exc countdown) =>
      (st', celery.mkApp
              (<[k := celery.mkMessage (celery.task_id m)
                        (celery.sender_id m) (celery.receiver_account m)
                        (celery.amount m) (now w + countdown)
                        (celery.retries m + 1)]> (celery.broker app))
              (<[celery.task_id m := celery.MetaRetry exc]>
                 (celery.backend app)))
  | Raise e =>
      (st', celery.mkApp (delete k (celery.broker app))
              (<[celery.task_id m := celery.MetaFailure e]>
                 (celery.backend app)))
  end.

(** ** api/routes/transfers.py: the scheduled transfer *)

Record ScheduledSummary := mkScheduled {
  scheduled_task_id : string;
  scheduled_for : Z;
  scheduled_sender : string;
  scheduled_receiver : string;
  scheduled_amount : float
}.

(** [datetime.combine] of a parsed date does not raise, so the handler of the
    source around it has no counterpart here. *)
Definition scheduled_money_transfer (w : World)
    (request : ScheduledTransferRequest.t) (app : celery.App) :
    Store → result (ScheduledSummary * celery.App) * Store :=
  get_db
    (found ← query_first
       (λ u, User.id u = ScheduledTransferRequest.sender_id request);
     match found with
     | None => raise (HTTPException 404 SenderNotFound)
     | Some sender =>
         found ← query_first
           (λ u, User.AccountNo u =
                   ScheduledTransferRequest.receiver_account request);
         match found with
         | None => raise (HTTPException 404 ReceiverNotFound)
         | Some receiver =>
             validate_transfer_request w sender receiver
               (ScheduledTransferRequest.amount request);;
             let scheduled_datetime :=
               datetime_combine_min
                 (ScheduledTransferRequest.scheduled_date request) in
             if decide (scheduled_datetime < now w) then
               raise (HTTPException 400 NotInFuture)
             else
               match
                 celery.apply_async w
                   (ScheduledTransferRequest.sender_id request)
                   (ScheduledTransferRequest.receiver_account request)
                   (ScheduledTransferRequest.amount request)
                   scheduled_datetime app
               with
               | (Return task, app') =>
                   su ← getattr sender User.username;
                   ru ← getattr receiver User.username;
                   mret
                     (mkScheduled task
                        (ScheduledTransferRequest.scheduled_date request)
                        su ru (ScheduledTransferRequest.amount request),
                      app')
               | (Raise e, _) =>
                   raise (HTTPException 500 (FailedToSchedule (str e)))
               end
         end
     end).

(** ** api/routes/users.py: seeding *)

(** [schemas.User(Amount=5000, username=f"user{i}", AccountNo=1000000000 + i)]
    once written: the key comes from the engine, [daily_used] and
    [last_reset] from the column defaults. *)
Definition seeded_user (w : World) (i : Z) : User.t :=
  User.mk (fresh_user_id w + (i - 1)) ("user" +:+ pretty i)
    (1000000000 + i) 5000 2000 (today w).

(** [db.query(schemas.User).delete()] *)
Definition delete_all : M unit := λ s,
  (Return (), mkSession (committed s) [] (pending s)).

(** [db.add_all(users)] *)
Definition add_users (us : list User.t) : M unit := λ s,
  (Return (), mkSession (committed s) (objects s ++ us) (pending s)).

Definition seed_data (w : World) : Store → result string * Store :=
  get_db
    (try_except
       (delete_all;;
        add_users (seeded_user w <$> seqZ 1 10);;
        commit w;;
        mret "10 users seeded successfully")
       is_SQLAlchemyError
       (λ e, rollback;; raise (HTTPException 500 (DatabaseError (str e))))).

(** ** api/routes/tasks.py *)

Definition lower_ascii (c : ascii) : ascii :=
  let n := nat_of_ascii c in
  if ((65 <=? n)%nat && (n <=? 90)%nat)%bool then ascii_of_nat (n + 32) else c.

(** [str.lower] on ASCII text *)
Fixpoint lower (s : string) : string :=
  match s with
  | EmptyString => EmptyString
  | String c s' => String (lower_ascii c) (lower s')
  end.

Record StatusResponse := mkStatus {
  status_task_id : string;
  status : string;
  message : option string;
  task_result : option TaskResult;
  error : option string
}.

Definition get_task_status (app : celery.App) (task_id : string) :
    StatusResponse :=
  let state := celery.AsyncResult_state app task_id in
  let response := mkStatus task_id (lower state) None None None in
  if decide (state = "PENDING") then
    mkStatus (status_task_id response) (status response)
      (Some "Transfer is scheduled and waiting to be executed")
      (task_result response) (error response)
  else if decide (state = "SUCCESS") then
    mkStatus (status_task_id response) (status response) (message response)
      (celery.AsyncResult_result app task_id) (error response)
  else if decide (state = "FAILURE") then
    mkStatus (status_task_id response) (status response) (message response)
      (task_result response) (str <$> celery.AsyncResult_info app task_id)
  else response.

(** ** The whole service: store, queue and registry under the public operations *)

Record System := mkSystem {
  store : Store;
  app : celery.App
}.

(** Tables created and empty, nothing queued, nothing recorded. *)
Definition initial : System :=
  mkSystem (mkStore [] []) (celery.mkApp [] ∅).

Inductive Op :=
| Seed (w : World)
| Immediate (w : World) (request : TransferRequest.t)
| Scheduled (w : World) (request : ScheduledTransferRequest.t)
| Dispatch (w : World) (k : nat).

(** One public operation on the service; the second component lists the job
    ids handed to the caller.  The worker dispatches message [k] of the broker
    only once its eta has come. *)
Definition perform (op : Op) (sys : System) : System * list string :=
  match op with
  | Seed w => (mkSystem (snd (seed_data w (store sys))) (app sys), [])
  | Immediate w request =>
      (mkSystem (snd (money_transfer w request (store sys))) (app sys), [])
  | Scheduled w request =>
      match scheduled_money_transfer w request (app sys) (store sys) with
      | (Return (s, app'), st) => (mkSystem st app', [scheduled_task_id s])
      | (Raise _, st) => (mkSystem st (app sys), [])
      end
  | Dispatch w k =>
      match celery.broker (app sys) !! k with
      | Some m =>
          if decide (celery.eta m ≤ now w) then
            let '(st, app') := worker_run w k m (store sys) (app sys) in
            (mkSystem st app', [])
          else (sys, [])
      | None => (sys, [])
      end
  end.

Fixpoint run (ops : list Op) (sys : System) : System * list string :=
  match ops with
  | [] => (sys, [])
  | op :: ops' =>
      let '(sys1, ids1) := perform op sys in
      let '(sys2, ids2) := run ops' sys1 in
      (sys2, ids1 ++ ids2)
  end.

(** The attempts of the worker on the only job of the queue, one world per
    moment at which the worker looks at the queue: the number of executions
    of the task, and the service afterwards. *)
Fixpoint run_job (ws : list World) (st : Store) (app : celery.App) :
    nat * (Store * celery.App) :=
  match ws with
  | [] => (0%nat, (st, app))
  | w :: ws' =>
      match celery.broker app with
      | [m] =>
          if decide (celery.eta m ≤ now w) then
            let '(st', app') := worker_run w 0 m st app in
            let '(n, r) := run_job ws' st' app' in
            (S n, r)
          else run_job ws' st app
      | _ => (0%nat, (st, app))
      end
  end.

(** ** Vocabulary of the specification *)

(** The standing daily limit. *)
Definition standing_limit : float := 2000.

(** The sum of all balances. *)
Definition total_balance (st : Store) : float :=
  foldr (λ u acc, (User.Amount u + acc)%float) 0%float (users st).

(** The lazy reset of the daily allowance. *)
Definition reset_daily (w : World) (u : User.t) : User.t :=
  if decide (User.last_reset u ≠ today w)
  then User.set_last_reset (today w) (User.set_daily_used standing_limit u)
  else u.

(** The sender after a transfer of [a], and the receiver. *)
Definition debit (a : float) (u : User.t) : User.t :=
  User.set_daily_used (User.daily_used u - a)
    (User.set_Amount (User.Amount u - a) u).

Definition credit (a : float) (u : User.t) : User.t :=
  User.set_Amount (User.Amount u + a) u.

(** The rejection reasons of the Validator in the order of the
    specification, first match first; [None] when the transfer is accepted. *)
Definition rejection (w : World) (sender receiver : User.t) (a : float) :
    option Reason :=
  if decide (a ≤ 0)%float then Some InvalidAmount
  else if decide (User.AccountNo sender = User.AccountNo receiver)
  then Some SelfTransfer
  else if decide (User.Amount sender < a)%float then Some InsufficientFunds
  else if decide (a > User.daily_used (reset_daily w sender))%float
  then Some (DailyLimitExceeded (User.daily_used (reset_daily w sender)))
  else None.

(** The two ledger entries of a transfer, as added to the session. *)
Definition ledger_pair (a : float) (sender receiver : User.t) :
    list Transaction.t :=
  [Transaction.mk (User.id sender) (User.AccountNo sender) (- a) "debit" None;
   Transaction.mk (User.id receiver) (User.AccountNo receiver) a "credit"
     None].

(** The session in which object [i] has become [u]. *)
Definition with_object (i : nat) (u : User.t) (s : Session) : Session :=
  mkSession (committed s) (<[i := u]> (objects s)) (pending s).

(** The account invariant and the invariant of the queue behind it. *)
Definition account_ok (u : User.t) : Prop :=
  (0 ≤ User.Amount u)%float ∧ (User.daily_used u ≤ standing_limit)%float.

Definition accounts_ok (st : Store) : Prop :=
  Forall account_ok (users st).

Definition queue_ok (a : celery.App) : Prop :=
  Forall (λ m, (0 < celery.amount m)%float) (celery.broker a).

(** The amount of a request is a number. *)
Definition numeric (op : Op) : Prop :=
  match op with
  | Immediate _ request => float_number (TransferRequest.amount request)
  | Scheduled _ request =>
      float_number (ScheduledTransferRequest.amount request)
  | _ => True
  end.

(** What a rejection leaves in the session of the caller: the lazy reset of
    the sender when the rejection is the one for the daily limit, nothing
    otherwise. *)
Definition after_rejection (w : World) (i : nat) (su : User.t) (r : Reason)
    (s : Session) : Session :=
  match r with
  | DailyLimitExceeded _ => with_object i (reset_daily w su) s
  | _ => s
  end.


(** Every id known to the queue or to the registry is one of [ids]. *)
Definition known_ids (ids : list string) (a : celery.App) : Prop :=
  Forall (λ m, celery.task_id m ∈ ids) (celery.broker a)
  ∧ ∀ t, is_Some (celery.backend a !! t) → t ∈ ids.

(** ** Sample data (tests/conftest.py) *)

Definition sample_users (day : Z) : list User.t :=
  [User.mk 1 "user1" 1000000001 5000 2000 day;
   User.mk 2 "user2" 1000000002 3000 2000 day;
   User.mk 3 "user3" 1000000003 1000 2000 day].

Definition sample_store (day : Z) : Store := mkStore (sample_users day) [].

(** Two accounts last used on day 19999, the first with 500 left of its
    allowance of that day. *)
Definition stale_store : Store :=
  mkStore
    [User.mk 1 "user1" 1000000001 5000 500 19999;
     User.mk 2 "user2" 1000000002 3000 2000 19999] [].

(** The message of a transfer of 500 from user1 to user2, scheduled for day
    20000 and not yet attempted. *)
Definition sample_job : celery.Message :=
  celery.mkMessage "job-1" 1 1000000002 500 (20000 * 86400) 0.

(** The sample accounts with nothing queued and nothing recorded. *)
Definition sample_system : System :=
  mkSystem (sample_store 20000) (celery.mkApp [] ∅).

(** Noon of day 20000, every collaborator healthy. *)
Definition noon : World :=
  mkWorld (20000 * 86400 + 43200) None None "job-1" 1.

(** The same moment with an engine that refuses the commit. *)
Definition noon_down : World :=
  mkWorld (20000 * 86400 + 43200) (Some "connection lost") None "job-1" 1.

(** [n] seconds after noon of day 20000. *)
Definition later (n : Z) (fault : option string) : World :=
  mkWorld (20000 * 86400 + 43200 + n) fault None "job-2" 1.

(** ** api/routes/users.py: reading the accounts and the ledger *)

(** [db.query(schemas.User).all()] *)
Definition get_all_users : Store → result (list User.t) * Store :=
  get_db (λ s, (Return (objects s), s)).

(** The key of [order_by(schemas.Transaction.timestamp.desc())].  Every row
    that the program writes carries its timestamp; where a row without one
    goes is the choice of the engine, taken here as last. *)
Definition stamp_key (x : Transaction.t) : Z :=
  match Transaction.timestamp x with
  | Some t => t
  | None => -1
  end.

Definition newer_first (x y : Transaction.t) : Prop :=
  stamp_key y ≤ stamp_key x.

#[global] Instance newer_first_dec x y : Decision (newer_first x y) :=
  Z.le_dec (stamp_key y) (stamp_key x).

(** [db.query(schemas.Transaction).filter(user_id == k).order_by(...).all()];
    the session of the route has added nothing that would have to be written
    first.  The order among rows of one and the same timestamp is the
    engine's. *)
Definition query_transactions (user_id : Z) : M (list Transaction.t) := λ s,
  (Return
     (merge_sort newer_first
        (filter (λ x, Transaction.user_id x = user_id)
           (transactions (committed s)))), s).

(** [None] stands for the [HTTPException] of status 404 and detail
    "User not found". *)
Definition get_user_transactions (user_id : Z) :
    Store → result (option (list Transaction.t)) * Store :=
  get_db
    (found ← query_first (λ u, User.id u = user_id);
     match found with
     | None => mret None
     | Some _ =>
         txns ← query_transactions user_id;
         mret (Some txns)
     end).

(** ** sample.py: the scheduling request of the single-file application *)

Module sample.
Definition scheduled_money_transfer (w : World)
    (request : ScheduledTransferRequest.t) (app : celery.App) :
    Store → result (ScheduledSummary * celery.App) * Store :=
  get_db
    (found ← query_first
       (λ u, User.id u = ScheduledTransferRequest.sender_id request);
     match found with
     | None => raise (HTTPException 404 SenderNotFound)
     | Some sender =>
         found ← query_first
           (λ u, User.AccountNo u =
                   ScheduledTransferRequest.receiver_account request);
         match found with
         | None => raise (HTTPException 404 ReceiverNotFound)
         | Some receiver =>
             if decide (ScheduledTransferRequest.amount request ≤ 0)%float
             then
               raise (HTTPException 400 InvalidAmount)
             else
               sender_no ← getattr sender User.AccountNo;
               receiver_no ← getattr receiver User.AccountNo;
               if decide (sender_no = receiver_no) then
                 raise (HTTPException 400 SelfTransfer)
               else
                 let scheduled_datetime :=
                   datetime_combine_min
                     (ScheduledTransferRequest.scheduled_date request) in
                 if decide (scheduled_datetime < now w) then
                   raise (HTTPException 400 NotInFuture)
                 else
                   match
                     celery.apply_async w
                       (ScheduledTransferRequest.sender_id request)
                       (ScheduledTransferRequest.receiver_account request)
                       (ScheduledTransferRequest.amount request)
                       scheduled_datetime app
                   with
                   | (Return task, app') =>
                       su ← getattr sender User.username;
                       ru ← getattr receiver User.username;
                       mret
                         (mkScheduled task
                            (ScheduledTransferRequest.scheduled_date request)
                            su ru (ScheduledTransferRequest.amount request),
                          app')
                   | (Raise e, _) =>
                       raise (HTTPException 500 (FailedToSchedule (str e)))
                   end
         end
     end).
End sample.

(** ** Further vocabulary *)

Definition is_seed (op : Op) : bool :=
  match op with Seed _ => true | _ => false end.

(** The sum of the signed amounts of the ledger. *)
Definition ledger_sum (txns : list Transaction.t) : float :=
  foldr (λ x acc, (Transaction.amount x + acc)%float) 0%float txns.

(** The columns of an account that identify it. *)
Definition identity (u : User.t) : Z * string * Z :=
  (User.id u, User.username u, User.AccountNo u).

(** * Properties *)

(** ** Binary64: the order and the rounding of sums and differences *)

Lemma digits2_pos_bounds m :
  2 ^ (Z.pos (digits2_pos m) - 1) ≤ Z.pos m < 2 ^ Z.pos (digits2_pos m).
Proof.
  induction m as [m IH|m IH|]; cbn [digits2_pos]; [| |by cbn].
  all: rewrite Pos2Z.inj_succ;
    replace (Z.succ (Z.pos (digits2_pos m)) - 1)
      with (Z.succ (Z.pos (digits2_pos m) - 1)) by lia;
    rewrite !Z.pow_succ_r by lia; lia.
Qed.

Lemma canonical_spec m e :
  canonical m e ↔
    e = Z.max (Z.pos (digits2_pos m) + e - 53) (-1074) ∧ e ≤ 971.
Proof.
  unfold canonical, bounded, canonical_mantissa, fexp, SpecFloat.emin, prec,
    emax.
  rewrite andb_true_iff, Z.eqb_eq, Z.leb_le. cbn. lia.
Qed.

Lemma canonical_cases m e :
  canonical m e →
  -1074 ≤ e ≤ 971
  ∧ (Z.pos (digits2_pos m) = 53 ∨ (e = -1074 ∧ Z.pos (digits2_pos m) ≤ 53)).
Proof. rewrite canonical_spec. lia. Qed.

Lemma pow2_pos n : 0 ≤ n → 0 < 2 ^ n.
Proof. intros. apply Z.pow_pos_nonneg; lia. Qed.

Lemma pow2_split a b : 0 ≤ a → 0 ≤ b → 2 ^ (a + b) = 2 ^ a * 2 ^ b.
Proof. intros. by apply Z.pow_add_r. Qed.

Lemma pow2_ge_2 n : 1 ≤ n → 2 ≤ 2 ^ n.
Proof.
  intros H. change 2 with (2 ^ 1) at 1. apply Z.pow_le_mono_r; lia.
Qed.

Lemma pow2_le a b : 0 ≤ a ≤ b → 2 ^ a ≤ 2 ^ b.
Proof. intros H. apply Z.pow_le_mono_r; lia. Qed.

Lemma canonical_mantissa_lt m e : canonical m e → Z.pos m < 2 ^ 53.
Proof.
  intros (_ & Hd)%canonical_cases.
  pose proof (digits2_pos_bounds m) as [_ Hm].
  assert (2 ^ Z.pos (digits2_pos m) ≤ 2 ^ 53) by (apply pow2_le; lia).
  lia.
Qed.

Lemma canonical_mantissa_ge m e :
  canonical m e → -1074 < e → 2 ^ 52 ≤ Z.pos m.
Proof.
  intros (_ & Hd)%canonical_cases He.
  pose proof (digits2_pos_bounds m) as [Hm _].
  destruct Hd as [Hd|[? _]]; [|lia]. by rewrite Hd in Hm.
Qed.

Lemma fvalue_pos m e : -1074 ≤ e → 0 < fvalue m e.
Proof.
  intros He. unfold fvalue. apply Z.mul_pos_pos; [lia|].
  apply pow2_pos. lia.
Qed.

Lemma fvalue_lt_exp m1 e1 m2 e2 :
  canonical m1 e1 → canonical m2 e2 → e1 < e2 →
  fvalue m1 e1 < fvalue m2 e2.
Proof.
  intros H1 H2 He.
  pose proof (canonical_mantissa_lt _ _ H1) as Hm1.
  pose proof (canonical_cases _ _ H1) as [He1 _].
  assert (-1074 < e2) as He2 by lia.
  pose proof (canonical_mantissa_ge _ _ H2 He2) as Hm2.
  unfold fvalue.
  replace (e2 + 1074) with ((e2 - e1) + (e1 + 1074)) by lia.
  rewrite (pow2_split (e2 - e1) (e1 + 1074)) by lia.
  pose proof (pow2_pos (e1 + 1074) ltac:(lia)) as HA.
  pose proof (pow2_ge_2 (e2 - e1) ltac:(lia)) as HB.
  set (A := 2 ^ (e1 + 1074)) in *. set (B := 2 ^ (e2 - e1)) in *.
  change (2 ^ 53) with (2 ^ 52 * 2) in Hm1.
  set (C := 2 ^ 52) in *. assert (0 < C) by done.
  apply Z.lt_le_trans with (C * 2 * A).
  - apply Z.mul_lt_mono_pos_r; lia.
  - rewrite <-Z.mul_assoc. apply Z.mul_le_mono_nonneg; [lia..| |].
    + lia.
    + apply Z.mul_le_mono_nonneg_r; lia.
Qed.

Lemma fvalue_compare m1 e1 m2 e2 :
  canonical m1 e1 → canonical m2 e2 →
  match e1 ?= e2 with
  | Lt => Lt
  | Gt => Gt
  | Eq => Pos.compare_cont Eq m1 m2
  end = (fvalue m1 e1 ?= fvalue m2 e2).
Proof.
  intros H1 H2. destruct (Z.compare_spec e1 e2) as [->|He|He].
  - rewrite Pos.compare_cont_spec. cbn [Pos.switch_Eq].
    pose proof (canonical_cases _ _ H2) as [He2 _].
    unfold fvalue. pose proof (pow2_pos (e2 + 1074) ltac:(lia)) as HA.
    destruct (Pos.compare_spec m1 m2) as [->|Hm|Hm]; symmetry.
    + apply Z.compare_refl.
    + apply Z.compare_lt_iff. apply Z.mul_lt_mono_pos_r; lia.
    + apply Z.compare_gt_iff. apply Z.mul_lt_mono_pos_r; lia.
  - symmetry. apply Z.compare_lt_iff. by apply fvalue_lt_exp.
  - symmetry. apply Z.compare_gt_iff. by apply fvalue_lt_exp.
Qed.

Lemma fvalue_lt_big m e : canonical m e → 0 < fvalue m e < big.
Proof.
  intros H. pose proof (canonical_cases _ _ H) as [He _].
  split; [apply fvalue_pos; lia|].
  pose proof (canonical_mantissa_lt _ _ H) as Hm.
  unfold fvalue, big.
  assert (2 ^ (e + 1074) ≤ 2 ^ 2045) as Hp by (apply pow2_le; lia).
  pose proof (pow2_pos (e + 1074) ltac:(lia)).
  replace 2100 with (53 + 2 + 2045) by lia.
  rewrite (pow2_split (53 + 2) 2045), (pow2_split 53 2) by lia.
  set (A := 2 ^ (e + 1074)) in *. set (B := 2 ^ 2045) in *.
  set (C := 2 ^ 53) in *. change (2 ^ 2) with 4.
  assert (0 < B) by (apply pow2_pos; lia).
  assert (0 < C) by done.
  apply Z.lt_le_trans with (C * A); [apply Z.mul_lt_mono_pos_r; lia|].
  apply Z.le_trans with (C * B); [apply Z.mul_le_mono_nonneg_l; lia|].
  rewrite <-(Z.mul_1_r (C * B)) at 1. rewrite <-!Z.mul_assoc.
  apply Z.mul_le_mono_nonneg_l; [lia|]. lia.
Qed.

Ltac solve_compare :=
  f_equal; symmetry;
  first [ apply Z.compare_eq_iff; lia
        | apply Z.compare_lt_iff; lia
        | apply Z.compare_gt_iff; lia ].

Lemma SFcompare_value x y :
  SFnumber x → SFnumber y →
  SFcompare x y = Some (SFvalue x ?= SFvalue y).
Proof.
  intros [Hx Hnx] [Hy Hny].
  assert (0 < big) as Hbig by (apply pow2_pos; lia).
  destruct x as [sx|sx| |sx mx ex], y as [sy|sy| |sy my ey]; try done;
    cbn [SFcompare SFvalue valid_binary] in *;
    try pose proof (fvalue_lt_big _ _ Hx);
    try pose proof (fvalue_lt_big _ _ Hy).
  all: destruct sx, sy; try solve_compare.
  - pose proof (fvalue_compare _ _ _ _ Hx Hy) as Hc.
    rewrite Z.compare_opp, (Z.compare_antisym (fvalue mx ex) (fvalue my ey)).
    rewrite <-Hc. f_equal. by destruct (ex ?= ey).
  - f_equal. by apply fvalue_compare.
Qed.

(** ** Shifting a mantissa to the right *)

Lemma shr_1_spec mrs :
  0 ≤ shr_m mrs →
  shr_m (shr_1 mrs) = shr_m mrs / 2
  ∧ (shr_r mrs = false → shr_s mrs = false → shr_m mrs mod 2 = 0 →
     shr_r (shr_1 mrs) = false ∧ shr_s (shr_1 mrs) = false).
Proof.
  destruct mrs as [m r s]. cbn [shr_m shr_r shr_s]. intros Hm.
  destruct m as [|[p|p|]|p]; cbn [shr_1 shr_m shr_r shr_s]; try lia.
  - split; [done|]. by intros -> ->.
  - split; [rewrite Pos2Z.inj_xI; apply Z.div_unique with 1; lia|].
    intros _ _ H. rewrite Pos2Z.inj_xI in H.
    rewrite Z.add_comm, Z.mul_comm, Z.mod_add in H by lia. done.
  - split; [rewrite Pos2Z.inj_xO; apply Z.div_unique with 0; lia|].
    by intros -> ->.
  - split; [done|]. intros _ _ H. done.
Qed.

Lemma iter_shr_1 p : ∀ m k mrs,
  0 ≤ m → 0 ≤ k →
  shr_m mrs = m / 2 ^ k →
  (m mod 2 ^ k = 0 → shr_r mrs = false ∧ shr_s mrs = false) →
  shr_m (iter_pos shr_1 p mrs) = m / 2 ^ (k + Z.pos p)
  ∧ (m mod 2 ^ (k + Z.pos p) = 0 →
     shr_r (iter_pos shr_1 p mrs) = false
     ∧ shr_s (iter_pos shr_1 p mrs) = false).
Proof.
  assert (∀ m k mrs,
            0 ≤ m → 0 ≤ k →
            shr_m mrs = m / 2 ^ k →
            (m mod 2 ^ k = 0 → shr_r mrs = false ∧ shr_s mrs = false) →
            shr_m (shr_1 mrs) = m / 2 ^ (k + 1)
            ∧ (m mod 2 ^ (k + 1) = 0 →
               shr_r (shr_1 mrs) = false ∧ shr_s (shr_1 mrs) = false))
    as Hstep.
  { intros m k mrs Hm Hk Hq Hex.
    assert (0 < 2 ^ k) as Hp by (apply Z.pow_pos_nonneg; lia).
    assert (0 ≤ shr_m mrs) as Hpos by (rewrite Hq; apply Z.div_pos; lia).
    destruct (shr_1_spec mrs Hpos) as [Hm1 Hex1].
    rewrite Z.pow_add_r, Z.pow_1_r by lia.
    split.
    - rewrite Hm1, Hq. by rewrite Z.div_div by lia.
    - intros Hmod. rewrite Z.rem_mul_r in Hmod by lia.
      assert (0 ≤ m mod 2 ^ k < 2 ^ k) as Hb1
        by (apply Z.mod_pos_bound; lia).
      assert (0 ≤ (m / 2 ^ k) mod 2 < 2) as Hb2
        by (apply Z.mod_pos_bound; lia).
      assert (m mod 2 ^ k = 0 ∧ (m / 2 ^ k) mod 2 = 0) as [Hz0 Hz1] by nia.
      destruct (Hex Hz0) as [Hr Hs]. apply Hex1; [done..|]. by rewrite Hq. }
  induction p as [p IH|p IH|]; intros m k mrs Hm Hk Hq Hex; cbn [iter_pos].
  - destruct (Hstep m k mrs Hm Hk Hq Hex) as [Hq1 Hex1].
    destruct (IH m (k + 1) _ Hm ltac:(lia) Hq1 Hex1) as [Hq2 Hex2].
    destruct (IH m (k + 1 + Z.pos p) _ Hm ltac:(lia) Hq2 Hex2) as [Hq3 Hex3].
    replace (k + Z.pos p~1) with (k + 1 + Z.pos p + Z.pos p) by lia. done.
  - destruct (IH m k _ Hm Hk Hq Hex) as [Hq2 Hex2].
    destruct (IH m (k + Z.pos p) _ Hm ltac:(lia) Hq2 Hex2) as [Hq3 Hex3].
    replace (k + Z.pos p~0) with (k + Z.pos p + Z.pos p) by lia. done.
  - by apply Hstep.
Qed.

(** [shr] of an exact non-negative mantissa: the quotient, and no rounding
    bit when the division is exact. *)
Lemma shr_spec m e n :
  0 ≤ m →
  let '(mrs, e') := shr (Build_shr_record m false false) e n in
  e' = e + Z.max n 0
  ∧ shr_m mrs = m / 2 ^ Z.max n 0
  ∧ (m mod 2 ^ Z.max n 0 = 0 → shr_r mrs = false ∧ shr_s mrs = false).
Proof.
  intros Hm. destruct n as [|p|p]; cbn [shr Z.max].
  - rewrite Z.add_0_r, Z.div_1_r. by split_and!.
  - replace (Z.max (Z.pos p) 0) with (Z.pos p) by lia.
    split; [done|].
    apply (iter_shr_1 p m 0); [done|done|by rewrite Z.div_1_r|done].
  - replace (Z.max (Z.neg p) 0) with 0 by lia.
    rewrite Z.add_0_r, Z.div_1_r. by split_and!.
Qed.

(** ** Rounding to binary64 *)

Lemma fexp_spec x : fexp prec emax x = Z.max (x - 53) (-1074).
Proof. reflexivity. Qed.

Lemma pos_iter_xO m d :
  Z.pos (Pos.iter xO m d) = Z.pos m * 2 ^ Z.pos d
  ∧ Z.pos (digits2_pos (Pos.iter xO m d)) = Z.pos (digits2_pos m) + Z.pos d.
Proof.
  induction d as [|d IH] using Pos.peano_ind.
  - cbn [Pos.iter digits2_pos]. rewrite Z.pow_1_r. lia.
  - rewrite Pos.iter_succ. cbn [digits2_pos].
    rewrite Pos2Z.inj_succ, Z.pow_succ_r by lia.
    destruct IH as [IH1 IH2]. rewrite Pos2Z.inj_xO, Pos2Z.inj_succ, IH1, IH2.
    lia.
Qed.

Lemma shl_align_spec m e e' :
  let '(mz, ez) := shl_align m e e' in
  ez = Z.min e e'
  ∧ Z.pos mz = Z.pos m * 2 ^ (e - ez)
  ∧ Z.pos (digits2_pos mz) = Z.pos (digits2_pos m) + (e - ez).
Proof.
  unfold shl_align. destruct (e' - e) as [|d|d] eqn:Hd.
  - replace (Z.min e e') with e by lia. rewrite Z.sub_diag. cbn. lia.
  - replace (Z.min e e') with e by lia. rewrite Z.sub_diag. cbn. lia.
  - replace (Z.min e e') with e' by lia.
    replace (e - e') with (Z.pos d) by lia.
    split; [done|]. apply pos_iter_xO.
Qed.

Lemma Zdigits2_le q k : 0 ≤ q < 2 ^ k → 0 ≤ k → Zdigits2 q ≤ k.
Proof.
  intros [Hq Hlt] Hk. destruct q as [|p|p]; cbn [Zdigits2]; [done| |lia].
  pose proof (digits2_pos_bounds p) as [Hd _].
  assert (2 ^ (Z.pos (digits2_pos p) - 1) < 2 ^ k) as H by lia.
  apply Z.pow_lt_mono_r_iff in H; lia.
Qed.

Lemma round_nearest_even_spec mrs :
  let q := shr_m mrs in
  let q' := round_nearest_even q (loc_of_shr_record mrs) in
  q ≤ q' ≤ q + 1 ∧ (shr_r mrs = false → q' = q).
Proof.
  destruct mrs as [q [|] [|]]; cbn; try (split; [lia|done]).
  destruct (Z.even q); split; done || lia.
Qed.

Lemma binary_round_aux_core s M ez :
  0 < M → -1074 ≤ ez →
  let e0 := fexp prec emax (Zdigits2 M + ez) in
  ez ≤ e0 →
  ∃ q' q'' e'',
    binary_round_aux prec emax s M ez loc_Exact =
      match q'' with
      | 0 => S754_zero s
      | Z.pos m =>
          if e'' <=? emax - prec then S754_finite s m e''
          else S754_infinity s
      | Z.neg _ => S754_nan
      end
    ∧ M / 2 ^ (e0 - ez) ≤ q' ≤ M / 2 ^ (e0 - ez) + 1
    ∧ (M mod 2 ^ (e0 - ez) = 0 → q' = M / 2 ^ (e0 - ez))
    ∧ 0 ≤ q'' ∧ q'' * 2 ^ (e'' - e0) ≤ q'
    ∧ e'' = Z.max e0 (Zdigits2 q' + e0 - 53).
Proof.
  intros HM Hez e0 He0.
  unfold binary_round_aux, shr_fexp. fold e0.
  cbn [shr_record_of_loc].
  pose proof (shr_spec M ez (e0 - ez) ltac:(lia)) as H1.
  destruct (shr (Build_shr_record M false false) ez (e0 - ez))
    as [mrs1 e1].
  destruct H1 as (-> & Hq1 & Hex1).
  replace (Z.max (e0 - ez) 0) with (e0 - ez) in * by lia.
  replace (ez + (e0 - ez)) with e0 by lia.
  pose proof (round_nearest_even_spec mrs1) as Hrne. cbn zeta in Hrne.
  set (q' := round_nearest_even (shr_m mrs1) (loc_of_shr_record mrs1)) in *.
  assert (0 ≤ shr_m mrs1) as Hq1pos.
  { rewrite Hq1. apply Z.div_pos; [lia|]. apply Z.pow_pos_nonneg; lia. }
  assert (0 ≤ q') as Hq' by lia.
  pose proof (shr_spec q' e0 (fexp prec emax (Zdigits2 q' + e0) - e0) Hq')
    as H2.
  destruct (shr (Build_shr_record q' false false) e0
              (fexp prec emax (Zdigits2 q' + e0) - e0)) as [mrs2 e2].
  destruct H2 as (-> & Hq2 & _).
  set (n2 := Z.max (fexp prec emax (Zdigits2 q' + e0) - e0) 0) in *.
  assert (-1074 ≤ e0) as He0min by (unfold e0; rewrite fexp_spec; lia).
  assert (0 ≤ n2) as Hn2 by lia.
  assert (0 < 2 ^ n2) as Hp2 by (apply Z.pow_pos_nonneg; lia).
  exists q', (shr_m mrs2), (e0 + n2). split_and!.
  - done.
  - lia.
  - lia.
  - intros Hmod. destruct Hrne as [_ Hr]. rewrite <-Hq1. apply Hr.
    by apply Hex1.
  - rewrite Hq2. apply Z.div_pos; lia.
  - rewrite Hq2. replace (e0 + n2 - e0) with n2 by lia.
    rewrite Z.mul_comm. apply Z.mul_div_le. lia.
  - unfold n2. rewrite fexp_spec. lia.
Qed.

Lemma binary_round_core s m e :
  -1074 ≤ e →
  ∃ mz ez e0 q' q'' e'',
    binary_round prec emax s m e =
      match q'' with
      | 0 => S754_zero s
      | Z.pos m =>
          if e'' <=? emax - prec then S754_finite s m e''
          else S754_infinity s
      | Z.neg _ => S754_nan
      end
    ∧ e0 = fexp prec emax (Z.pos (digits2_pos m) + e)
    ∧ -1074 ≤ ez ≤ e0
    ∧ Z.pos mz * 2 ^ (ez + 1074) = Z.pos m * 2 ^ (e + 1074)
    ∧ Z.pos mz / 2 ^ (e0 - ez) ≤ q' ≤ Z.pos mz / 2 ^ (e0 - ez) + 1
    ∧ (Z.pos mz mod 2 ^ (e0 - ez) = 0 → q' = Z.pos mz / 2 ^ (e0 - ez))
    ∧ 0 ≤ q'' ∧ q'' * 2 ^ (e'' - e0) ≤ q'
    ∧ e'' = Z.max e0 (Zdigits2 q' + e0 - 53).
Proof.
  intros He. unfold binary_round.
  set (e0 := fexp prec emax (Z.pos (digits2_pos m) + e)).
  assert (-1074 ≤ e0) as He0 by (unfold e0; rewrite fexp_spec; lia).
  pose proof (shl_align_spec m e e0) as Hal.
  destruct (shl_align m e e0) as [mz ez]. destruct Hal as (Hez & Hmz & Hdz).
  assert (fexp prec emax (Zdigits2 (Z.pos mz) + ez) = e0) as Hfe.
  { cbn [Zdigits2]. rewrite Hdz. unfold e0. f_equal. lia. }
  destruct (binary_round_aux_core s (Z.pos mz) ez) as
    (q' & q'' & e'' & Hres & Hq' & Hex & Hq''pos & Hq'' & He'');
    [lia|lia|rewrite Hfe; lia|].
  rewrite Hfe in *.
  exists mz, ez, e0, q', q'', e''. split_and!; try done; try lia.
  rewrite Hmz, <-Z.mul_assoc. f_equal.
  rewrite <-(Z.pow_add_r 2 (e - ez) (ez + 1074)) by lia. f_equal. lia.
Qed.

Lemma binary_round_sign s m e :
  -1074 ≤ e → SFsigned s (binary_round prec emax s m e).
Proof.
  intros He.
  destruct (binary_round_core s m e He)
    as (mz & ez & e0 & q' & q'' & e'' & -> & _ & _ & _ & _ & _ & Hpos & _).
  destruct q'' as [|p|p]; [by left| |lia].
  destruct (e'' <=? emax - prec); [right; left; eauto|by right; right].
Qed.

Lemma binary_round_upper m e mu eu :
  -1074 ≤ e → canonical mu eu →
  Z.pos m * 2 ^ (e + 1074) ≤ fvalue mu eu →
  binary_round prec emax false m e = S754_zero false
  ∨ ∃ mr er,
      binary_round prec emax false m e = S754_finite false mr er
      ∧ fvalue mr er ≤ fvalue mu eu.
Proof.
  intros He Hu Hle.
  destruct (binary_round_core false m e He)
    as (mz & ez & e0 & q' & q'' & e'' & -> & He0 & Hez & Hval & Hq' & Hex
        & Hq''pos & Hq'' & He'').
  pose proof (canonical_cases _ _ Hu) as [Heu _].
  pose proof (canonical_mantissa_lt _ _ Hu) as Hmu.
  rewrite <-Hval in Hle.
  (* the exponent of the result is at most that of the bound *)
  assert (e0 ≤ eu) as He0u.
  { rewrite fexp_spec in He0.
    destruct (decide (e0 = -1074)) as [->|Hne]; [lia|].
    assert (e0 = Z.pos (digits2_pos m) + e - 53) as He0' by lia.
    pose proof (digits2_pos_bounds m) as [Hd _].
    assert (2 ^ (e0 + 1126) ≤ Z.pos m * 2 ^ (e + 1074)) as Hlow.
    { replace (e0 + 1126) with ((Z.pos (digits2_pos m) - 1) + (e + 1074))
        by lia.
      rewrite (Z.pow_add_r 2 (Z.pos (digits2_pos m) - 1) (e + 1074)) by lia.
      apply Z.mul_le_mono_nonneg_r; [|done].
      apply Z.lt_le_incl, pow2_pos. lia. }
    assert (fvalue mu eu < 2 ^ (eu + 1127)) as Hup.
    { unfold fvalue. replace (eu + 1127) with (53 + (eu + 1074)) by lia.
      rewrite (Z.pow_add_r 2 53 (eu + 1074)) by lia.
      apply Z.mul_lt_mono_pos_r; [apply pow2_pos; lia|done]. }
    assert (2 ^ (e0 + 1126) < 2 ^ (eu + 1127)) as H by lia.
    apply Z.pow_lt_mono_r_iff in H; lia. }
  set (n := e0 - ez) in *.
  assert (0 ≤ n) as Hn by lia.
  assert (0 < 2 ^ n) as Hpn by (apply pow2_pos; lia).
  assert (0 < 2 ^ (ez + 1074)) as Hpz by (apply pow2_pos; lia).
  assert (0 < 2 ^ (e0 + 1074)) as Hp0 by (apply pow2_pos; lia).
  set (D := Z.pos mu * 2 ^ (eu - e0)).
  assert (fvalue mu eu = D * 2 ^ (e0 + 1074)) as HU.
  { unfold fvalue, D.
    rewrite <-Z.mul_assoc, <-(Z.pow_add_r 2 (eu - e0) (e0 + 1074)) by lia.
    do 2 f_equal. lia. }
  assert (2 ^ (e0 + 1074) = 2 ^ n * 2 ^ (ez + 1074)) as Hsplit.
  { rewrite <-(Z.pow_add_r 2 n (ez + 1074)) by lia. f_equal. lia. }
  assert (Z.pos mz ≤ D * 2 ^ n) as HM.
  { rewrite HU, Hsplit, Z.mul_assoc in Hle.
    by apply Z.mul_le_mono_pos_r in Hle. }
  assert (q' ≤ D) as Hq'D.
  { destruct (decide (Z.pos mz mod 2 ^ n = 0)) as [Hmod|Hmod].
    - rewrite (Hex Hmod). rewrite <-(Z.div_mul D (2 ^ n)) by lia.
      apply Z.div_le_mono; lia.
    - assert (Z.pos mz ≠ D * 2 ^ n) as Hne.
      { intros Heq. apply Hmod. rewrite Heq. apply Z.mod_mul. lia. }
      assert (Z.pos mz / 2 ^ n < D); [|lia].
      apply Z.div_lt_upper_bound; [lia|]. rewrite Z.mul_comm. lia. }
  assert (q'' * 2 ^ (e'' + 1074) ≤ fvalue mu eu) as Hfinal.
  { assert (e0 ≤ e'') by lia.
    replace (e'' + 1074) with ((e'' - e0) + (e0 + 1074)) by lia.
    rewrite (Z.pow_add_r 2 (e'' - e0) (e0 + 1074)), Z.mul_assoc, HU by lia.
    apply Z.mul_le_mono_nonneg_r; lia. }
  assert (e'' ≤ eu) as He''u.
  { assert (Zdigits2 q' ≤ 53 + (eu - e0)); [|lia].
    apply Zdigits2_le; [|lia]. split; [lia|].
    apply Z.le_lt_trans with D; [done|]. unfold D.
    rewrite (Z.pow_add_r 2 53 (eu - e0)) by lia.
    apply Z.mul_lt_mono_pos_r; [apply pow2_pos; lia|done]. }
  destruct q'' as [|mr|mr]; [by left| |lia].
  right. exists mr, e''.
  replace (e'' <=? emax - prec) with true; [done|].
  symmetry. apply Z.leb_le. unfold emax, prec. lia.
Qed.

(** ** Sums and differences *)

Lemma fvalue_nonneg m e : 0 ≤ fvalue m e.
Proof. unfold fvalue. apply Z.mul_nonneg_nonneg; [lia|]. apply Z.pow_nonneg. lia. Qed.

Lemma SFsigned_nonneg r : SFsigned false r → SFnonneg r.
Proof.
  intros [->|[(m & e & ->)| ->]]; (split; [done|]); cbn.
  - done.
  - apply fvalue_nonneg.
  - apply Z.lt_le_incl, pow2_pos. lia.
Qed.

Lemma aligned_value m e e' :
  -1074 ≤ e' ≤ e →
  Z.pos (fst (shl_align m e e')) * 2 ^ (e' + 1074) = fvalue m e.
Proof.
  intros He. pose proof (shl_align_spec m e e') as H.
  destruct (shl_align m e e') as [mz ez]. destruct H as (Hez & Hmz & _).
  cbn [fst]. replace ez with e' in * by lia.
  unfold fvalue. rewrite Hmz, <-Z.mul_assoc.
  rewrite <-(Z.pow_add_r 2 (e - e') (e' + 1074)) by lia.
  do 2 f_equal. lia.
Qed.

Lemma binary_normalize_nonneg M e :
  -1074 ≤ e → 0 ≤ M → SFnonneg (binary_normalize prec emax M e false).
Proof.
  intros He HM. apply SFsigned_nonneg.
  destruct M as [|m|m]; cbn [binary_normalize]; [by left| |lia].
  by apply binary_round_sign.
Qed.

Lemma binary_normalize_upper M e mu eu :
  -1074 ≤ e → 0 ≤ M → canonical mu eu →
  M * 2 ^ (e + 1074) ≤ fvalue mu eu →
  binary_normalize prec emax M e false ≠ S754_nan
  ∧ SFvalue (binary_normalize prec emax M e false) ≤ fvalue mu eu.
Proof.
  intros He HM Hu Hle.
  destruct M as [|m|m]; cbn [binary_normalize]; [|..|lia].
  - split; [done|]. cbn. apply fvalue_nonneg.
  - destruct (binary_round_upper m e mu eu He Hu Hle)
      as [->|(mr & er & -> & Hr)].
    + split; [done|]. cbn. apply fvalue_nonneg.
    + by split.
Qed.

Section sums.
Context (sx : bool) (mx : positive) (ex : Z) (my : positive) (ey : Z).
Hypothesis (Hx : canonical mx ex) (Hy : canonical my ey).

Lemma SFsub_positive_nonneg :
  fvalue my ey ≤ fvalue mx ex →
  SFnonneg (SFsub prec emax (S754_finite false mx ex)
              (S754_finite false my ey)).
Proof.
  intros Hle. cbn [SFsub cond_Zopp].
  pose proof (canonical_cases _ _ Hx) as [Hex _].
  pose proof (canonical_cases _ _ Hy) as [Hey _].
  set (ez := Z.min ex ey).
  pose proof (aligned_value mx ex ez ltac:(lia)) as HX.
  pose proof (aligned_value my ey ez ltac:(lia)) as HY.
  apply binary_normalize_nonneg; [lia|].
  assert (0 < 2 ^ (ez + 1074)) as Hp by (apply pow2_pos; lia).
  rewrite <-HX, <-HY in Hle. apply Z.mul_le_mono_pos_r in Hle; lia.
Qed.

Lemma SFsub_positive_upper mu eu :
  canonical mu eu →
  fvalue my ey ≤ fvalue mx ex → fvalue mx ex ≤ fvalue mu eu →
  let r := SFsub prec emax (S754_finite false mx ex)
             (S754_finite false my ey) in
  r ≠ S754_nan ∧ SFvalue r ≤ fvalue mu eu.
Proof.
  intros Hu Hle Hup. cbn [SFsub cond_Zopp]. cbn zeta.
  pose proof (canonical_cases _ _ Hx) as [Hex _].
  pose proof (canonical_cases _ _ Hy) as [Hey _].
  set (ez := Z.min ex ey).
  pose proof (aligned_value mx ex ez ltac:(lia)) as HX.
  pose proof (aligned_value my ey ez ltac:(lia)) as HY.
  assert (0 < 2 ^ (ez + 1074)) as Hp by (apply pow2_pos; lia).
  apply binary_normalize_upper; [lia| |done|].
  - rewrite <-HX, <-HY in Hle. apply Z.mul_le_mono_pos_r in Hle; lia.
  - rewrite Z.mul_sub_distr_r, HX, HY. pose proof (fvalue_nonneg my ey). lia.
Qed.

Lemma SFadd_positive_nonneg :
  SFnonneg (SFadd prec emax (S754_finite false mx ex)
              (S754_finite false my ey)).
Proof.
  cbn [SFadd cond_Zopp].
  pose proof (canonical_cases _ _ Hx) as [Hex _].
  pose proof (canonical_cases _ _ Hy) as [Hey _].
  apply binary_normalize_nonneg; lia.
Qed.
End sums.

(** ** The comparisons and the arithmetic of [PrimFloat] *)

Lemma float_number_spec x : float_number x ↔ SFnumber (Prim2SF x).
Proof.
  unfold float_number, SFnumber, PrimFloat.is_nan. rewrite eqb_spec. split.
  - intros H. split; [apply Prim2SF_valid|]. intros Hn. by rewrite Hn in H.
  - intros Hx. unfold SFeqb.
    by rewrite (SFcompare_value _ _ Hx Hx), Z.compare_refl.
Qed.

Lemma SFcompare_number x y c :
  SFcompare x y = Some c → x ≠ S754_nan ∧ y ≠ S754_nan.
Proof. by destruct x, y. Qed.

Lemma float_le_number x y :
  PrimFloat.leb x y = true → float_number x ∧ float_number y.
Proof.
  rewrite leb_spec, !float_number_spec. unfold SFleb, SFnumber.
  destruct (SFcompare (Prim2SF x) (Prim2SF y)) as [c|] eqn:Hc; [|done].
  apply SFcompare_number in Hc as [Hx Hy]. intros _.
  split; (split; [apply Prim2SF_valid|done]).
Qed.

Lemma float_lt_number x y :
  PrimFloat.ltb x y = true → float_number x ∧ float_number y.
Proof.
  rewrite ltb_spec, !float_number_spec. unfold SFltb, SFnumber.
  destruct (SFcompare (Prim2SF x) (Prim2SF y)) as [c|] eqn:Hc; [|done].
  apply SFcompare_number in Hc as [Hx Hy]. intros _.
  split; (split; [apply Prim2SF_valid|done]).
Qed.

Lemma float_le_value x y :
  float_number x → float_number y →
  PrimFloat.leb x y = true ↔ float_value x ≤ float_value y.
Proof.
  rewrite !float_number_spec. intros Hx Hy.
  rewrite leb_spec. unfold SFleb, float_value.
  rewrite (SFcompare_value _ _ Hx Hy).
  destruct (Z.compare_spec (SFvalue (Prim2SF x)) (SFvalue (Prim2SF y)));
    split; (done || lia).
Qed.

Lemma float_lt_value x y :
  float_number x → float_number y →
  PrimFloat.ltb x y = true ↔ float_value x < float_value y.
Proof.
  rewrite !float_number_spec. intros Hx Hy.
  rewrite ltb_spec. unfold SFltb, float_value.
  rewrite (SFcompare_value _ _ Hx Hy).
  destruct (Z.compare_spec (SFvalue (Prim2SF x)) (SFvalue (Prim2SF y)));
    split; (done || lia).
Qed.

(** A number whose value is positive and below that of the infinity is a
    positive finite number. *)
Lemma SFnumber_positive_finite x :
  SFnumber x → 0 < SFvalue x < big →
  ∃ m e, x = S754_finite false m e ∧ canonical m e.
Proof.
  intros [Hv Hn] [Hpos Hlt].
  destruct x as [s|s| |s m e]; cbn in *; try lia; try done.
  - destruct s; lia.
  - destruct s; [|by eauto]. pose proof (fvalue_nonneg m e). lia.
Qed.

Lemma SFnumber_nonneg x :
  SFnumber x → 0 ≤ SFvalue x →
  (∃ s, x = S754_zero s) ∨ x = S754_infinity false
  ∨ ∃ m e, x = S754_finite false m e ∧ canonical m e.
Proof.
  intros [Hv Hn] Hpos.
  assert (0 < big) by (apply pow2_pos; lia).
  destruct x as [s|s| |s m e]; cbn in *; try done.
  - eauto.
  - destruct s; [lia|auto].
  - pose proof (fvalue_lt_big m e Hv). destruct s; [lia|]. right; right. eauto.
Qed.

Lemma float_value_infinity : float_value infinity = big.
Proof. reflexivity. Qed.

Lemma float_value_zero : float_value 0 = 0.
Proof. reflexivity. Qed.

Lemma float_number_infinity : float_number infinity.
Proof. reflexivity. Qed.

Lemma float_number_zero : float_number 0.
Proof. reflexivity. Qed.

Lemma float_nonneg_intro x :
  SFnonneg (Prim2SF x) → PrimFloat.leb 0 x = true.
Proof.
  intros [Hn Hpos].
  assert (float_number x) as Hx.
  { apply float_number_spec. split; [apply Prim2SF_valid|done]. }
  apply float_le_value; [apply float_number_zero|done|].
  by rewrite float_value_zero.
Qed.

(** The difference of two numbers with 0 < a <= b, a finite, is not
    negative. *)
Lemma float_sub_nonneg b a :
  PrimFloat.ltb b a = false → PrimFloat.ltb 0 a = true →
  PrimFloat.ltb a infinity = true → float_number b →
  PrimFloat.leb 0 (b - a) = true.
Proof.
  intros Hba Ha Hfin Hb.
  destruct (float_lt_number _ _ Ha) as [_ Hna].
  apply float_lt_value in Ha; [|apply float_number_zero|done].
  apply float_lt_value in Hfin; [|done|apply float_number_infinity].
  rewrite float_value_zero in Ha. rewrite float_value_infinity in Hfin.
  assert (float_value a ≤ float_value b) as Hle.
  { destruct (decide (float_value b < float_value a)) as [Hlt|]; [|lia].
    apply float_lt_value in Hlt; [|done..]. congruence. }
  apply float_nonneg_intro. rewrite sub_spec.
  apply float_number_spec in Hna, Hb. unfold float_value in *.
  destruct (SFnumber_positive_finite _ Hna ltac:(lia)) as (my & ey & Hy & Hcy).
  destruct (SFnumber_nonneg _ Hb ltac:(lia))
    as [[s Hx]|[Hx|(mx & ex & Hx & Hcx)]]; rewrite Hx, Hy in *;
    cbn [SFvalue] in *.
  - lia.
  - split; [done|]. cbn. apply Z.lt_le_incl, pow2_pos. lia.
  - by apply SFsub_positive_nonneg.
Qed.

(** The sum of a number that is not negative and a positive finite number is
    not negative. *)
Lemma float_add_nonneg r a :
  PrimFloat.leb 0 r = true → PrimFloat.ltb 0 a = true →
  PrimFloat.ltb a infinity = true →
  PrimFloat.leb 0 (r + a) = true.
Proof.
  intros Hr Ha Hfin.
  destruct (float_lt_number _ _ Ha) as [_ Hna].
  destruct (float_le_number _ _ Hr) as [_ Hnr].
  apply float_lt_value in Ha; [|apply float_number_zero|done].
  apply float_lt_value in Hfin; [|done|apply float_number_infinity].
  apply float_le_value in Hr; [|apply float_number_zero|done].
  rewrite float_value_zero in Ha, Hr. rewrite float_value_infinity in Hfin.
  apply float_nonneg_intro. rewrite add_spec.
  apply float_number_spec in Hna, Hnr. unfold float_value in *.
  destruct (SFnumber_positive_finite _ Hna ltac:(lia)) as (my & ey & Hy & Hcy).
  destruct (SFnumber_nonneg _ Hnr ltac:(lia))
    as [[s Hx]|[Hx|(mx & ex & Hx & Hcx)]]; rewrite Hx, Hy in *;
    cbn [SFvalue] in *.
  - cbn. split; [done|]. cbn. apply fvalue_nonneg.
  - split; [done|]. cbn. apply Z.lt_le_incl, pow2_pos. lia.
  - by apply SFadd_positive_nonneg.
Qed.

(** Subtracting a positive number from a number that is at most the finite
    number c, and not below it, leaves a number that is at most c. *)
Lemma float_sub_upper d a c :
  PrimFloat.ltb d a = false → PrimFloat.ltb 0 a = true →
  PrimFloat.leb d c = true → PrimFloat.ltb c infinity = true →
  PrimFloat.leb (d - a) c = true.
Proof.
  intros Hda Ha Hdc Hfin.
  destruct (float_lt_number _ _ Ha) as [_ Hna].
  destruct (float_le_number _ _ Hdc) as [Hnd Hnc].
  apply float_lt_value in Ha; [|apply float_number_zero|done].
  apply float_lt_value in Hfin; [|done|apply float_number_infinity].
  apply float_le_value in Hdc; [|done..].
  rewrite float_value_zero in Ha. rewrite float_value_infinity in Hfin.
  assert (float_value a ≤ float_value d) as Hle.
  { destruct (decide (float_value d < float_value a)) as [Hlt|]; [|lia].
    apply float_lt_value in Hlt; [|done..]. congruence. }
  pose proof Hna as Hna'. pose proof Hnd as Hnd'. pose proof Hnc as Hnc'.
  apply float_number_spec in Hna', Hnd', Hnc'. unfold float_value in *.
  destruct (SFnumber_positive_finite _ Hna' ltac:(lia))
    as (my & ey & Hy & Hcy).
  destruct (SFnumber_positive_finite _ Hnd' ltac:(lia))
    as (mx & ex & Hx & Hcx).
  destruct (SFnumber_positive_finite _ Hnc' ltac:(lia))
    as (mu & eu & Hu & Hcu).
  rewrite Hx, Hy, Hu in *. cbn [SFvalue] in *.
  destruct (SFsub_positive_upper mx ex my ey Hcx Hcy mu eu Hcu Hle Hdc)
    as [Hnn Hup].
  assert (float_number (d - a)) as Hn.
  { apply float_number_spec. split; [apply Prim2SF_valid|].
    by rewrite sub_spec, Hx, Hy. }
  apply float_le_value; [done..|]. unfold float_value.
  by rewrite sub_spec, Hx, Hy, Hu.
Qed.

Lemma float_not_le_lt x y :
  float_number x → float_number y →
  PrimFloat.leb x y = false → PrimFloat.ltb y x = true.
Proof.
  intros Hx Hy Hle. apply float_lt_value; [done..|].
  destruct (decide (float_value x ≤ float_value y)) as [H|]; [|lia].
  apply float_le_value in H; [|done..]. congruence.
Qed.

Lemma float_not_lt_le x y :
  float_number x → float_number y →
  PrimFloat.ltb x y = false → PrimFloat.leb y x = true.
Proof.
  intros Hx Hy Hlt. apply float_le_value; [done..|].
  destruct (decide (float_value x < float_value y)) as [H|]; [|lia].
  apply float_lt_value in H; [|done..]. congruence.
Qed.

Lemma float_le_trans x y z :
  PrimFloat.leb x y = true → PrimFloat.leb y z = true →
  PrimFloat.leb x z = true.
Proof.
  intros Hxy Hyz.
  destruct (float_le_number _ _ Hxy) as [Hx Hy].
  destruct (float_le_number _ _ Hyz) as [_ Hz].
  apply float_le_value in Hxy, Hyz; [|done..].
  apply float_le_value; [done..|]. lia.
Qed.

Lemma float_le_lt_trans x y z :
  PrimFloat.leb x y = true → PrimFloat.ltb y z = true →
  PrimFloat.ltb x z = true.
Proof.
  intros Hxy Hyz.
  destruct (float_le_number _ _ Hxy) as [Hx Hy].
  destruct (float_lt_number _ _ Hyz) as [_ Hz].
  apply float_le_value in Hxy; [|done..].
  apply float_lt_value in Hyz; [|done..].
  apply float_lt_value; [done..|]. lia.
Qed.

Lemma SFvalue_opp x : SFvalue (SFopp x) = - SFvalue x.
Proof. destruct x as [s|s| |s m e]; cbn; try done; destruct s; cbn; lia. Qed.

Lemma float_opp_negative a :
  PrimFloat.ltb 0 a = true → PrimFloat.ltb (- a) 0 = true.
Proof.
  intros Ha. destruct (float_lt_number _ _ Ha) as [_ Hna].
  assert (float_number (- a)) as Hn.
  { apply float_number_spec. split; [apply Prim2SF_valid|].
    rewrite opp_spec. apply float_number_spec in Hna as [_ Hna].
    by destruct (Prim2SF a). }
  apply float_lt_value in Ha; [|apply float_number_zero|done].
  apply float_lt_value; [done|apply float_number_zero|].
  unfold float_value in *. rewrite opp_spec, SFvalue_opp.
  change (SFvalue (Prim2SF 0)) with 0 in *. lia.
Qed.

(** A debit of a positive finite amount and the credit of the same amount
    add up to zero. *)
Lemma float_debit_credit a :
  PrimFloat.ltb 0 a = true → PrimFloat.ltb a infinity = true →
  (- a + (a + 0))%float = 0%float.
Proof.
  intros Ha Hfin. destruct (float_lt_number _ _ Ha) as [_ Hna].
  apply float_lt_value in Ha; [|apply float_number_zero|done].
  apply float_lt_value in Hfin; [|done|apply float_number_infinity].
  rewrite float_value_zero in Ha. rewrite float_value_infinity in Hfin.
  apply float_number_spec in Hna. unfold float_value in *.
  destruct (SFnumber_positive_finite _ Hna ltac:(lia)) as (m & e & Hy & Hc).
  assert ((a + 0)%float = a) as ->.
  { apply Prim2SF_inj. rewrite add_spec, Hy. reflexivity. }
  apply Prim2SF_inj. rewrite add_spec, opp_spec, Hy.
  unfold SF64add, SFadd. cbn [SFopp negb]. rewrite Z.min_id.
  unfold shl_align. rewrite Z.sub_diag. cbn [fst cond_Zopp].
  rewrite Z.add_opp_diag_l. reflexivity.
Qed.

(** ** Running the session computations *)

Section session_lemmas.
Context {A B : Type}.
Implicit Types (s : Session) (u : User.t) (i j : nat).

Lemma with_object_id i u s : objects s !! i = Some u → with_object i u s = s.
Proof.
  intros H. destruct s as [c o p]; unfold with_object; simpl in *.
  by rewrite list_insert_id.
Qed.

Lemma with_object_lookup i u s v :
  objects s !! i = Some v → objects (with_object i u s) !! i = Some u.
Proof.
  intros H. simpl. apply list_lookup_insert_eq. by eapply lookup_lt_Some.
Qed.

Lemma with_object_lookup_ne i j u s :
  i ≠ j → objects (with_object i u s) !! j = objects s !! j.
Proof. intros H. simpl. by apply list_lookup_insert_ne. Qed.

Lemma with_object_twice i u v s :
  with_object i u (with_object i v s) = with_object i u s.
Proof. unfold with_object; simpl. by rewrite list_insert_insert_eq. Qed.

Lemma run_bind (m : M A) (k : A → M B) s a s' :
  m s = (Return a, s') → (m ≫= k) s = k a s'.
Proof. intros H. unfold mbind, M_bind. by rewrite H. Qed.

Lemma run_bind_raise (m : M A) (k : A → M B) s e s' :
  m s = (Raise e, s') → (m ≫= k) s = (Raise e, s').
Proof. intros H. unfold mbind, M_bind. by rewrite H. Qed.

Lemma run_getattr i (f : User.t → A) s u :
  objects s !! i = Some u → getattr i f s = (Return (f u), s).
Proof. intros H. unfold getattr. by rewrite H. Qed.

Lemma run_setattr i (f : User.t → User.t) s u :
  objects s !! i = Some u →
  setattr i f s = (Return (), with_object i (f u) s).
Proof. intros H. unfold setattr. by rewrite H. Qed.

Lemma run_query (P : User.t → Prop) `{!∀ u, Decision (P u)} s :
  query_first P s = (Return (fst <$> list_find P (objects s)), s).
Proof. reflexivity. Qed.
End session_lemmas.

Ltac lookup_solve :=
  first
    [ eassumption
    | eapply with_object_lookup; lookup_solve
    | rewrite with_object_lookup_ne by done; lookup_solve ].

(** One step of symbolic execution of a sequence of reads and writes. *)
Ltac run1 :=
  first
    [ erewrite run_bind by (first
        [ eapply run_getattr; lookup_solve
        | eapply run_setattr; lookup_solve
        | reflexivity ])
    | progress cbn beta zeta ].

Lemma reset_daily_fixed w u :
  User.id (reset_daily w u) = User.id u
  ∧ User.username (reset_daily w u) = User.username u
  ∧ User.AccountNo (reset_daily w u) = User.AccountNo u
  ∧ User.Amount (reset_daily w u) = User.Amount u.
Proof. unfold reset_daily. by case_decide. Qed.

Lemma reset_daily_today w u : User.last_reset (reset_daily w u) = today w.
Proof.
  unfold reset_daily. case_decide as H; [done|].
  by destruct (decide (User.last_reset u = today w)).
Qed.

Lemma reset_daily_fresh w u :
  User.last_reset u = today w → reset_daily w u = u.
Proof. intros H. unfold reset_daily. by case_decide. Qed.

Lemma reset_daily_stale w u :
  User.last_reset u ≠ today w →
  User.daily_used (reset_daily w u) = standing_limit.
Proof. intros H. unfold reset_daily. by case_decide. Qed.

Lemma reset_run w i s su :
  objects s !! i = Some su →
  (if decide (User.last_reset su ≠ today w) then
     setattr i (User.set_daily_used 2000);;
     setattr i (User.set_last_reset (today w))
   else mret ()) s = (Return (), with_object i (reset_daily w su) s).
Proof.
  intros Hi. unfold reset_daily, standing_limit. case_decide.
  - erewrite run_bind by (by eapply run_setattr).
    erewrite run_setattr by (by eapply with_object_lookup).
    by rewrite with_object_twice.
  - by rewrite (with_object_id _ _ _ Hi).
Qed.

Lemma run_refresh o s u :
  users (committed s) !! o = Some u → objects s !! o = Some u →
  refresh o s = (Return (), s).
Proof.
  intros Hc Ho. unfold refresh. rewrite Hc. f_equal.
  by apply with_object_id.
Qed.

Lemma run_summary i j s su ru :
  objects s !! i = Some su → objects s !! j = Some ru →
  summary i j s =
    (Return (mkSummary (User.username su) (User.Amount su) (User.daily_used su)
               (User.username ru) (User.Amount ru)), s).
Proof. intros Hi Hj. unfold summary. by repeat run1. Qed.

(** ** The Validator, step by step *)

Lemma validate_run w i j a s su ru :
  objects s !! i = Some su → objects s !! j = Some ru →
  validate_transfer_request w i j a s =
    if decide (a ≤ 0)%float then (Raise (HTTPException 400 InvalidAmount), s)
    else if decide (User.AccountNo su = User.AccountNo ru)
    then (Raise (HTTPException 400 SelfTransfer), s)
    else if decide (User.Amount su < a)%float
    then (Raise (HTTPException 400 InsufficientFunds), s)
    else
      let su' := reset_daily w su in
      if decide (a > User.daily_used su')%float
      then (Raise (HTTPException 400 (DailyLimitExceeded (User.daily_used su'))),
            with_object i su' s)
      else (Return (), with_object i su' s).
Proof.
  intros Hi Hj. unfold validate_transfer_request.
  case_decide; [reflexivity|].
  repeat run1. case_decide; [reflexivity|].
  repeat run1. case_decide; [reflexivity|].
  repeat run1. erewrite run_bind by (by eapply reset_run).
  erewrite run_bind by (eapply run_getattr, with_object_lookup; done).
  case_decide; reflexivity.
Qed.

Lemma validate_accept w i j a s su ru :
  objects s !! i = Some su → objects s !! j = Some ru →
  rejection w su ru a = None →
  validate_transfer_request w i j a s =
    (Return (), with_object i (reset_daily w su) s).
Proof.
  intros Hi Hj. rewrite (validate_run _ _ _ _ _ _ _ Hi Hj). unfold rejection.
  repeat case_decide; done.
Qed.

Lemma validate_reject w i j a s su ru r :
  objects s !! i = Some su → objects s !! j = Some ru →
  rejection w su ru a = Some r →
  ∃ s', validate_transfer_request w i j a s = (Raise (HTTPException 400 r), s')
        ∧ committed s' = committed s ∧ pending s' = pending s.
Proof.
  intros Hi Hj. rewrite (validate_run _ _ _ _ _ _ _ Hi Hj). unfold rejection.
  repeat case_decide; intros [= <-]; eauto.
Qed.

Lemma rejection_None w su ru a :
  rejection w su ru a = None →
  ¬ (a ≤ 0)%float ∧ User.AccountNo su ≠ User.AccountNo ru
  ∧ ¬ (User.Amount su < a)%float
  ∧ ¬ (a > User.daily_used (reset_daily w su))%float.
Proof. unfold rejection. repeat case_decide; done. Qed.

(** ** The Executor, step by step *)

Lemma execute_run w i j a s su ru :
  objects s !! i = Some su → objects s !! j = Some ru →
  rejection w su ru a = None →
  execute_transfer w i j a s =
    match commit_fault w with
    | Some e =>
        (Raise (HTTPException 500 (TransactionFailed e)),
         mkSession (committed s) (users (committed s)) [])
    | None =>
        let su' := debit a (reset_daily w su) in
        let ru' := credit a ru in
        let objs := <[j := ru']> (<[i := su']> (objects s)) in
        (Return (mkSummary (User.username su') (User.Amount su')
                   (User.daily_used su') (User.username ru') (User.Amount ru')),
         mkSession
           (mkStore objs
              (transactions (committed s) ++
                 (Transaction.stamp (now w) <$>
                    (pending s ++ ledger_pair a su ru))))
           objs [])
    end.
Proof.
  intros Hi Hj Hacc.
  assert (i ≠ j) as Hij.
  { intros ->. apply rejection_None in Hacc. rewrite Hi in Hj.
    injection Hj as ->. tauto. }
  unfold execute_transfer.
  erewrite run_bind by (by eapply validate_accept).
  unfold try_except.
  set (s1 := with_object i (reset_daily w su) s).
  assert (objects s1 !! i = Some (reset_daily w su)) as Hi1
    by (by eapply with_object_lookup).
  assert (objects s1 !! j = Some ru) as Hj1
    by (by unfold s1; rewrite with_object_lookup_ne).
  repeat run1.
  unfold mbind at 1, M_bind at 1, commit at 1.
  destruct (commit_fault w) as [e|]; [reflexivity|].
  unfold s1, with_object; cbn [committed objects pending].
  rewrite !list_insert_insert_eq.
  destruct (reset_daily_fixed w su) as (Hid & _ & Hno & _).
  cbn [User.id User.AccountNo User.set_daily_used User.set_Amount].
  rewrite Hid, Hno.
  change (User.set_daily_used _ (User.set_Amount _ (reset_daily w su)))
    with (debit a (reset_daily w su)).
  change (User.set_Amount _ ru) with (credit a ru).
  set (objs := <[j:=_]> (<[i:=_]> (objects s))).
  assert (objs !! i = Some (debit a (reset_daily w su))) as Hoi.
  { unfold objs. rewrite list_lookup_insert_ne by done.
    apply list_lookup_insert_eq. by eapply lookup_lt_Some. }
  assert (objs !! j = Some (credit a ru)) as Hoj.
  { unfold objs. apply list_lookup_insert_eq. rewrite length_insert.
    by eapply lookup_lt_Some. }
  erewrite run_bind by (by eapply run_refresh).
  erewrite run_bind by (by eapply run_refresh).
  erewrite run_summary by done. reflexivity.
Qed.

Lemma execute_reject w i j a s su ru r :
  objects s !! i = Some su → objects s !! j = Some ru →
  rejection w su ru a = Some r →
  ∃ s', execute_transfer w i j a s = (Raise (HTTPException 400 r), s')
        ∧ committed s' = committed s ∧ pending s' = pending s.
Proof.
  intros Hi Hj Hr.
  destruct (validate_reject _ _ _ _ _ _ _ _ Hi Hj Hr) as (s' & Hv & Hc & Hp).
  exists s'. split; [|done]. unfold execute_transfer.
  by erewrite run_bind_raise.
Qed.

(** ** The immediate transfer, step by step *)

Ltac query_step H :=
  erewrite run_bind by apply run_query;
  cbn [objects open_session]; rewrite H;
  cbn [fmap option_fmap option_map fst].

Section immediate.
Context (w : World) (request : TransferRequest.t) (st : Store).
Local Abbreviation a := (TransferRequest.amount request).

Lemma money_transfer_no_sender :
  list_find (λ u, User.id u = TransferRequest.sender_id request) (users st)
    = None →
  money_transfer w request st = (Raise (HTTPException 404 SenderNotFound), st).
Proof.
  intros H. unfold money_transfer, get_db. by query_step H.
Qed.

Context (i : nat) (su : User.t).
Hypothesis sender_found :
  list_find (λ u, User.id u = TransferRequest.sender_id request) (users st)
    = Some (i, su).

Lemma money_transfer_no_receiver :
  list_find (λ u, User.AccountNo u = TransferRequest.receiver_account request)
    (users st) = None →
  money_transfer w request st =
    (Raise (HTTPException 404 ReceiverNotFound), st).
Proof.
  intros H. unfold money_transfer, get_db.
  query_step sender_found. by query_step H.
Qed.

Context (j : nat) (ru : User.t).
Hypothesis receiver_found :
  list_find (λ u, User.AccountNo u = TransferRequest.receiver_account request)
    (users st) = Some (j, ru).

Lemma money_transfer_found :
  money_transfer w request st =
    match rejection w su ru a with
    | Some r => (Raise (HTTPException 400 r), st)
    | None =>
        match commit_fault w with
        | Some e => (Raise (HTTPException 500 (TransactionFailed e)), st)
        | None =>
            let su' := debit a (reset_daily w su) in
            let ru' := credit a ru in
            (Return (mkSummary (User.username su') (User.Amount su')
                       (User.daily_used su') (User.username ru')
                       (User.Amount ru')),
             mkStore (<[j := ru']> (<[i := su']> (users st)))
               (transactions st ++
                  (Transaction.stamp (now w) <$> ledger_pair a su ru)))
        end
    end.
Proof.
  pose proof sender_found as Hi. pose proof receiver_found as Hj.
  apply list_find_Some in Hi as (Hi & _). apply list_find_Some in Hj as (Hj & _).
  unfold money_transfer, get_db.
  query_step sender_found. query_step receiver_found.
  destruct (rejection w su ru a) as [r|] eqn:Hr.
  - edestruct (execute_reject w i j a (open_session st)) as (s' & -> & Hc & _);
      [done..|]. by rewrite Hc.
  - erewrite execute_run by done. by destruct (commit_fault w).
Qed.
End immediate.

(** ** The scheduled task, step by step *)

Section task.
Context (w : World) (r sid racct : Z) (a : float) (st : Store).

Lemma task_no_sender :
  list_find (λ u, User.id u = sid) (users st) = None →
  schedule_money_transfer w r sid racct a st =
    (Return (TaskFailed SenderNotFound), st).
Proof.
  intros H. unfold schedule_money_transfer, get_db, try_except.
  by query_step H.
Qed.

Context (i : nat) (su : User.t).
Hypothesis sender_found :
  list_find (λ u, User.id u = sid) (users st) = Some (i, su).

Lemma task_no_receiver :
  list_find (λ u, User.AccountNo u = racct) (users st) = None →
  schedule_money_transfer w r sid racct a st =
    (Return (TaskFailed ReceiverNotFound), st).
Proof.
  intros H. unfold schedule_money_transfer, get_db, try_except.
  query_step sender_found. by query_step H.
Qed.

Context (j : nat) (ru : User.t).
Hypothesis receiver_found :
  list_find (λ u, User.AccountNo u = racct) (users st) = Some (j, ru).

Lemma task_found :
  schedule_money_transfer w r sid racct a st =
    if decide (User.Amount su < a)%float
    then (Return (TaskFailed InsufficientFunds), st)
    else
      let su0 := reset_daily w su in
      if decide (a > User.daily_used su0)%float
      then (Return (TaskFailed (DailyLimitExceeded (User.daily_used su0))), st)
      else
        match commit_fault w with
        | Some e =>
            (Raise (celery.retry max_retries r (SQLAlchemyError e) 60), st)
        | None =>
            let rj := if decide (i = j) then debit a su0 else ru in
            let sf := if decide (i = j) then credit a rj else debit a su0 in
            (Return
               (TaskSuccess
                  (mkSummary (User.username sf) (User.Amount sf)
                     (User.daily_used sf) (User.username (credit a rj))
                     (User.Amount (credit a rj))) a),
             mkStore (<[j := credit a rj]> (<[i := debit a su0]> (users st)))
               (transactions st))
        end.
Proof.
  pose proof sender_found as Hi. pose proof receiver_found as Hj.
  apply list_find_Some in Hi as (Hi & _).
  apply list_find_Some in Hj as (Hj & _).
  unfold schedule_money_transfer, get_db, try_except.
  query_step sender_found. query_step receiver_found.
  change (users st) with (objects (open_session st)) in Hi, Hj.
  repeat run1. case_decide; [reflexivity|].
  repeat run1. erewrite run_bind by (by eapply reset_run).
  set (s1 := with_object i (reset_daily w su) (open_session st)).
  assert (objects s1 !! i = Some (reset_daily w su)) as Hi1
    by (by eapply with_object_lookup).
  repeat run1. case_decide; [reflexivity|].
  repeat run1.
  change (User.set_daily_used _ (User.set_Amount _ (reset_daily w su)))
    with (debit a (reset_daily w su)).
  rewrite with_object_twice. unfold s1. rewrite with_object_twice.
  set (s2 := with_object i (debit a (reset_daily w su)) (open_session st)).
  assert (objects s2 !! i = Some (debit a (reset_daily w su))) as Hi2
    by (by eapply with_object_lookup).
  set (rj := if decide (i = j) then debit a (reset_daily w su) else ru).
  assert (objects s2 !! j = Some rj) as Hj2.
  { unfold rj. case_decide as Hij.
    - by subst j.
    - by unfold s2; rewrite with_object_lookup_ne. }
  repeat run1.
  change (User.set_Amount _ rj) with (credit a rj).
  unfold mbind at 1, M_bind at 1, commit at 1.
  destruct (commit_fault w) as [e|]; [reflexivity|].
  cbn [committed objects pending with_object open_session s2 fmap list_fmap].
  rewrite app_nil_r.
  set (objs := <[j:=_]> (<[i:=_]> (users st))).
  set (sf := if decide (i = j) then credit a rj else debit a (reset_daily w su)).
  assert (objs !! j = Some (credit a rj)) as Hoj.
  { unfold objs. apply list_lookup_insert_eq. rewrite length_insert.
    by eapply lookup_lt_Some. }
  assert (objs !! i = Some sf) as Hoi.
  { unfold sf. case_decide as Hij; [by subst j|].
    unfold objs. rewrite list_lookup_insert_ne by done.
    apply list_lookup_insert_eq. by eapply lookup_lt_Some. }
  erewrite run_bind by (by eapply run_refresh).
  erewrite run_bind by (by eapply run_refresh).
  erewrite run_bind by (by eapply run_summary).
  reflexivity.
Qed.
End task.

(** ** The scheduling request, step by step *)

Section scheduling.
Context (w : World) (request : ScheduledTransferRequest.t)
  (app : celery.App) (st : Store).
Local Abbreviation a := (ScheduledTransferRequest.amount request).
Local Abbreviation eta :=
  (datetime_combine_min (ScheduledTransferRequest.scheduled_date request)).

Lemma scheduled_no_sender :
  list_find (λ u, User.id u = ScheduledTransferRequest.sender_id request)
    (users st) = None →
  scheduled_money_transfer w request app st =
    (Raise (HTTPException 404 SenderNotFound), st).
Proof.
  intros H. unfold scheduled_money_transfer, get_db. by query_step H.
Qed.

Context (i : nat) (su : User.t).
Hypothesis sender_found :
  list_find (λ u, User.id u = ScheduledTransferRequest.sender_id request)
    (users st) = Some (i, su).

Lemma scheduled_no_receiver :
  list_find
    (λ u, User.AccountNo u = ScheduledTransferRequest.receiver_account request)
    (users st) = None →
  scheduled_money_transfer w request app st =
    (Raise (HTTPException 404 ReceiverNotFound), st).
Proof.
  intros H. unfold scheduled_money_transfer, get_db.
  query_step sender_found. by query_step H.
Qed.

Context (j : nat) (ru : User.t).
Hypothesis receiver_found :
  list_find
    (λ u, User.AccountNo u = ScheduledTransferRequest.receiver_account request)
    (users st) = Some (j, ru).

Lemma scheduled_found :
  scheduled_money_transfer w request app st =
    match rejection w su ru a with
    | Some r => (Raise (HTTPException 400 r), st)
    | None =>
        if decide (eta < now w) then (Raise (HTTPException 400 NotInFuture), st)
        else
          match broker_fault w with
          | Some e => (Raise (HTTPException 500 (FailedToSchedule e)), st)
          | None =>
              (Return
                 (mkScheduled (fresh_task_id w)
                    (ScheduledTransferRequest.scheduled_date request)
                    (User.username su) (User.username ru) a,
                  celery.mkApp
                    (celery.broker app ++
                       [celery.mkMessage (fresh_task_id w)
                          (ScheduledTransferRequest.sender_id request)
                          (ScheduledTransferRequest.receiver_account request)
                          a eta 0])
                    (celery.backend app)),
               st)
          end
    end.
Proof.
  pose proof sender_found as Hi. pose proof receiver_found as Hj.
  apply list_find_Some in Hi as (Hi & _).
  apply list_find_Some in Hj as (Hj & _).
  unfold scheduled_money_transfer, get_db.
  query_step sender_found. query_step receiver_found.
  destruct (rejection w su ru a) as [r|] eqn:Hr.
  - edestruct (validate_reject w i j a (open_session st)) as (s' & Hv & Hc & _);
      [done..|].
    erewrite run_bind_raise by done. by rewrite Hc.
  - assert (i ≠ j) as Hij.
    { intros ->. apply rejection_None in Hr. rewrite Hi in Hj.
      injection Hj as ->. tauto. }
    erewrite run_bind by (by eapply validate_accept).
    case_decide; [reflexivity|].
    unfold celery.apply_async.
    destruct (broker_fault w) as [e|]; [reflexivity|].
    change (users st) with (objects (open_session st)) in Hi, Hj.
    repeat run1. cbn.
    by destruct (reset_daily_fixed w su) as (_ & -> & _).
Qed.
End scheduling.

(** ** Rows under an update *)

Lemma debit_Amount a u :
  User.Amount (debit a u) = (User.Amount u - a)%float.
Proof. reflexivity. Qed.

Lemma credit_Amount a u :
  User.Amount (credit a u) = (User.Amount u + a)%float.
Proof. reflexivity. Qed.

Lemma lookup_two_inserts (l : list User.t) i j u v su ru :
  l !! i = Some su → l !! j = Some ru →
  <[j := v]> (<[i := u]> l) !! j = Some v
  ∧ (i ≠ j → <[j := v]> (<[i := u]> l) !! i = Some u)
  ∧ ∀ k, k ≠ i → k ≠ j → <[j := v]> (<[i := u]> l) !! k = l !! k.
Proof.
  intros Hi Hj. split_and!.
  - apply list_lookup_insert_eq. rewrite length_insert. by eapply lookup_lt_Some.
  - intros Hij. rewrite list_lookup_insert_ne by done.
    apply list_lookup_insert_eq. by eapply lookup_lt_Some.
  - intros k Hki Hkj. by rewrite !list_lookup_insert_ne.
Qed.

(** ** C4: the order of the rejection reasons *)

(** C4.  The Validator checks its rejection reasons in the fixed order
    InvalidAmount (amount <= 0), SelfTransfer (equal account numbers),
    InsufficientFunds (balance < amount), DailyLimitExceeded (amount above the
    allowance after the reset), the first match winning: each reason is given
    exactly when its test holds and the tests before it do not; in particular
    equal account numbers with an amount <= 0 give InvalidAmount, not
    SelfTransfer.  The tests are those of the source on floats, so an amount
    that is NaN, for which every one of them is false, is accepted. *)
Theorem C4_validation_precedence w i j a s su ru :
  objects s !! i = Some su → objects s !! j = Some ru →
  let outcome := fst (validate_transfer_request w i j a s) in
  let remaining := User.daily_used (reset_daily w su) in
  ((a ≤ 0)%float → outcome = Raise (HTTPException 400 InvalidAmount))
  ∧ (¬ (a ≤ 0)%float → User.AccountNo su = User.AccountNo ru →
     outcome = Raise (HTTPException 400 SelfTransfer))
  ∧ (¬ (a ≤ 0)%float → User.AccountNo su ≠ User.AccountNo ru →
     (User.Amount su < a)%float →
     outcome = Raise (HTTPException 400 InsufficientFunds))
  ∧ (¬ (a ≤ 0)%float → User.AccountNo su ≠ User.AccountNo ru →
     ¬ (User.Amount su < a)%float → (a > remaining)%float →
     outcome = Raise (HTTPException 400 (DailyLimitExceeded remaining)))
  ∧ (¬ (a ≤ 0)%float → User.AccountNo su ≠ User.AccountNo ru →
     ¬ (User.Amount su < a)%float → ¬ (a > remaining)%float →
     outcome = Return ())
  ∧ ((a ≤ 0)%float → User.AccountNo su = User.AccountNo ru →
     outcome = Raise (HTTPException 400 InvalidAmount)
     ∧ outcome ≠ Raise (HTTPException 400 SelfTransfer)).
Proof.
  intros Hi Hj outcome remaining. unfold outcome, remaining.
  rewrite (validate_run _ _ _ _ _ _ _ Hi Hj).
  split_and!; intros; cbn zeta; repeat case_decide; done.
Qed.

Lemma C4_witness :
  fst (validate_transfer_request noon 0 0 0
         (open_session (sample_store 20000)))
    = Raise (HTTPException 400 InvalidAmount)
  ∧ fst (validate_transfer_request noon 0 0 0
           (open_session (sample_store 20000)))
    ≠ Raise (HTTPException 400 SelfTransfer).
Proof.
  pose proof (C4_validation_precedence noon 0 0 0
                (open_session (sample_store 20000))
                (User.mk 1 "user1" 1000000001 5000 2000 20000)
                (User.mk 1 "user1" 1000000001 5000 2000 20000)
                eq_refl eq_refl) as H.
  apply H; reflexivity.
Defined.

(** ** C3: a transfer that does not succeed *)

Lemma execute_transfer_rejected w i j a s su ru r :
  objects s !! i = Some su → objects s !! j = Some ru →
  rejection w su ru a = Some r →
  execute_transfer w i j a s =
    (Raise (HTTPException 400 r), after_rejection w i su r s).
Proof.
  intros Hi Hj Hr. unfold execute_transfer, mbind at 1, M_bind at 1.
  rewrite (validate_run _ _ _ _ _ _ _ Hi Hj).
  unfold rejection in Hr. cbn zeta.
  repeat case_decide; try done; by injection Hr as <-.
Qed.

(** C3.  A transfer that does not succeed leaves the stored accounts and the
    ledger as they were, and raises.
    In the session of the caller the Executor raises status 400 with the
    reason of the Validator and leaves every object as it was, except that a
    rejection for the daily limit has applied the daily reset to the sender
    (for a sender last reset today that changes nothing); when the commit is
    refused it raises status 500 with the error of the engine after a
    rollback, which puts every object back to its stored row.  Nothing is
    committed and no entry stays pending.
    The route answers 404 for a missing account, 400 and 500 as the Executor
    does, and its store is the store it was given; every exception of the
    route is one of these. *)
Theorem C3_failed_transfer_leaves_the_store w :
  (∀ i j a s su ru,
     objects s !! i = Some su → objects s !! j = Some ru →
     match rejection w su ru a with
     | Some r =>
         execute_transfer w i j a s =
           (Raise (HTTPException 400 r), after_rejection w i su r s)
         ∧ committed (after_rejection w i su r s) = committed s
         ∧ pending (after_rejection w i su r s) = pending s
         ∧ objects (after_rejection w i su r s) !! j = Some ru
         ∧ (User.Amount <$> objects (after_rejection w i su r s) !! i)
           = Some (User.Amount su)
         ∧ (User.last_reset su = today w →
            after_rejection w i su r s = s)
     | None =>
         ∀ err, commit_fault w = Some err →
           execute_transfer w i j a s =
             (Raise (HTTPException 500 (TransactionFailed err)),
              mkSession (committed s) (users (committed s)) [])
     end)
  ∧ (∀ request st,
       let sender :=
         list_find (λ u, User.id u = TransferRequest.sender_id request)
           (users st) in
       let receiver :=
         list_find
           (λ u, User.AccountNo u = TransferRequest.receiver_account request)
           (users st) in
       (sender = None →
        money_transfer w request st
          = (Raise (HTTPException 404 SenderNotFound), st))
       ∧ (is_Some sender → receiver = None →
          money_transfer w request st
            = (Raise (HTTPException 404 ReceiverNotFound), st))
       ∧ (∀ i su j ru r,
            sender = Some (i, su) → receiver = Some (j, ru) →
            rejection w su ru (TransferRequest.amount request) = Some r →
            money_transfer w request st = (Raise (HTTPException 400 r), st))
       ∧ (∀ i su j ru err,
            sender = Some (i, su) → receiver = Some (j, ru) →
            rejection w su ru (TransferRequest.amount request) = None →
            commit_fault w = Some err →
            money_transfer w request st
              = (Raise (HTTPException 500 (TransactionFailed err)), st)))
  ∧ (∀ request st e st',
       money_transfer w request st = (Raise e, st') →
       st' = st
       ∧ (e = HTTPException 404 SenderNotFound
          ∨ e = HTTPException 404 ReceiverNotFound
          ∨ (∃ r, e = HTTPException 400 r
                  ∧ (r = InvalidAmount ∨ r = SelfTransfer
                     ∨ r = InsufficientFunds
                     ∨ ∃ d, r = DailyLimitExceeded d))
          ∨ (∃ err, commit_fault w = Some err
                    ∧ e = HTTPException 500 (TransactionFailed err)))).
Proof.
  split_and!.
  - intros i j a s su ru Hi Hj.
    destruct (rejection w su ru a) as [r|] eqn:Hr.
    + split; [by apply execute_transfer_rejected with ru|].
      assert (after_rejection w i su r s = s
              ∨ (after_rejection w i su r s
                   = with_object i (reset_daily w su) s ∧ i ≠ j)) as Hs.
      { destruct r; auto. right. split; [done|].
        intros <-. unfold rejection in Hr. rewrite Hi in Hj.
        injection Hj as ->. by repeat case_decide. }
      split_and!.
      * by destruct Hs as [->|[-> _]].
      * by destruct Hs as [->|[-> _]].
      * destruct Hs as [->|[-> Hij]]; [done|].
        by rewrite with_object_lookup_ne.
      * destruct Hs as [->|[-> Hij]]; [by rewrite Hi|].
        rewrite (with_object_lookup _ _ _ _ Hi). cbn.
        by destruct (reset_daily_fixed w su) as (_ & _ & _ & ->).
      * intros Hd. destruct Hs as [->|[-> _]]; [done|].
        rewrite reset_daily_fresh by done. by apply with_object_id.
    + intros err Herr. rewrite (execute_run _ _ _ _ _ _ _ Hi Hj Hr).
      by rewrite Herr.
  - intros request st sender receiver. split_and!.
    + apply money_transfer_no_sender.
    + intros [[i su] Hs]. by apply money_transfer_no_receiver with i su.
    + intros i su j ru r Hs Hr Hrej.
      by rewrite (money_transfer_found _ _ _ _ _ Hs _ _ Hr), Hrej.
    + intros i su j ru err Hs Hr Hrej Herr.
      by rewrite (money_transfer_found _ _ _ _ _ Hs _ _ Hr), Hrej, Herr.
  - intros request st e st'.
    destruct (list_find (λ u, User.id u = TransferRequest.sender_id request)
                (users st)) as [[i su]|] eqn:Hs.
    2: { rewrite money_transfer_no_sender by done. intros [= <- <-]. auto. }
    destruct (list_find
                (λ u, User.AccountNo u =
                        TransferRequest.receiver_account request)
                (users st)) as [[j ru]|] eqn:Hr.
    2: { erewrite money_transfer_no_receiver by done. intros [= <- <-]. auto. }
    erewrite money_transfer_found by done.
    destruct (rejection w su ru _) as [r|] eqn:Hrej.
    + intros [= <- <-]. split; [done|]. right; right; left. exists r.
      split; [done|]. unfold rejection in Hrej.
      repeat case_decide; try done; injection Hrej as <-; eauto.
    + destruct (commit_fault w) as [err|] eqn:Hc; [|done].
      intros [= <- <-]. split; [done|]. right; right; right. by exists err.
Qed.

Lemma C3_witness :
  execute_transfer noon_down 0 1 500 (open_session (sample_store 20000))
    = (Raise (HTTPException 500 (TransactionFailed "connection lost")),
       open_session (sample_store 20000))
  ∧ snd (money_transfer noon_down (TransferRequest.mk 1 1000000002 500)
           (sample_store 20000)) = sample_store 20000.
Proof.
  destruct (C3_failed_transfer_leaves_the_store noon_down) as (Hx & _ & Hroute).
  split.
  - exact (Hx 0%nat 1%nat 500%float (open_session (sample_store 20000))
             (User.mk 1 "user1" 1000000001 5000 2000 20000)
             (User.mk 2 "user2" 1000000002 3000 2000 20000)
             eq_refl eq_refl "connection lost" eq_refl).
  - eapply (Hroute (TransferRequest.mk 1 1000000002 500) (sample_store 20000)
              (HTTPException 500 (TransactionFailed "connection lost"))).
    vm_compute. reflexivity.
Defined.

(** A sender last reset on day 19999 with 500 of that day's allowance left
    asks for 2500 on day 20000: the Executor rejects the transfer for the
    daily limit, and the sender of the session has an allowance of 2000 and a
    reset date of today, not the 500 and the day 19999 of before the call.
    The stored row is as it was. *)
Lemma C3_counterexample :
  let s := open_session stale_store in
  let '(r, s') := execute_transfer noon 0 1 2500 s in
  r = Raise (HTTPException 400 (DailyLimitExceeded 2000))
  ∧ User.daily_used <$> objects s !! 0%nat = Some 500%float
  ∧ User.daily_used <$> objects s' !! 0%nat = Some 2000%float
  ∧ User.daily_used <$> objects s' !! 0%nat
    ≠ User.daily_used <$> objects s !! 0%nat
  ∧ User.last_reset <$> objects s !! 0%nat = Some 19999
  ∧ User.last_reset <$> objects s' !! 0%nat = Some 20000
  ∧ committed s' = stale_store.
Proof. vm_compute. split_and!; try done. Qed.

(** ** The task on one and the same account *)

Lemma debit_reset_Amount w a u :
  User.Amount (debit a (reset_daily w u)) = (User.Amount u - a)%float.
Proof.
  rewrite debit_Amount. by destruct (reset_daily_fixed w u) as (_ & _ & _ & ->).
Qed.

(** The task has no check of the account numbers: when the account found for
    the receiver is the sender's own row, the funds check and the limit check
    are passed and the commit is accepted, it reports success; the one object
    is debited and then credited. *)
Lemma task_self_transfer w retries sid racct a st i su :
  list_find (λ u, User.id u = sid) (users st) = Some (i, su) →
  list_find (λ u, User.AccountNo u = racct) (users st) = Some (i, su) →
  ¬ (User.Amount su < a)%float →
  ¬ (a > User.daily_used (reset_daily w su))%float →
  commit_fault w = None →
  ∃ s,
    schedule_money_transfer w retries sid racct a st =
      (Return (TaskSuccess s a),
       mkStore (<[i := credit a (debit a (reset_daily w su))]> (users st))
         (transactions st)).
Proof.
  intros Hs Hr Hfunds Hlimit Hcommit.
  rewrite (task_found _ _ _ _ _ _ _ _ Hs _ _ Hr). cbn zeta.
  rewrite !decide_False, Hcommit, !decide_True by done.
  rewrite list_insert_insert_eq. by eexists.
Qed.

(** The task at the accounts of tests/conftest.py, run for sender 1 with the
    sender's own account number as the receiver and the amount 500: it
    reports a successful transfer of 500; the balance of the sender is 5000
    before and 5000 after, no other row is changed, and the daily allowance
    of the sender has gone down by the 500.  The Validator rejects this very
    transfer on the immediate route and on the scheduling route with "Cannot
    transfer to the same account". *)
Lemma task_self_transfer_sample :
  let st := sample_store 20000 in
  let '(r, st') := schedule_money_transfer noon 0 1 1000000001 500 st in
  (∃ s, r = Return (TaskSuccess s 500))
  ∧ User.Amount <$> users st !! 0%nat = Some 5000%float
  ∧ User.Amount <$> users st' !! 0%nat = Some 5000%float
  ∧ User.daily_used <$> users st !! 0%nat = Some 2000%float
  ∧ User.daily_used <$> users st' !! 0%nat = Some 1500%float
  ∧ (∀ k, k ≠ 0%nat → users st' !! k = users st !! k)
  ∧ transactions st' = []
  ∧ money_transfer noon (TransferRequest.mk 1 1000000001 500) st
    = (Raise (HTTPException 400 SelfTransfer), st)
  ∧ scheduled_money_transfer noon
      (ScheduledTransferRequest.mk 1 1000000001 500 20001)
      (celery.mkApp [] ∅) st
    = (Raise (HTTPException 400 SelfTransfer), st).
Proof.
  vm_compute. split_and!; try done; [by eexists|].
  by intros [|[|[|k]]].
Qed.

(** ** C2: the ledger entries of a transfer *)

(** The immediate path appends exactly two entries: a debit of -a for the
    sender and a credit of +a for the receiver, stamped at the commit. *)
Lemma immediate_transfer_ledger w request st s st' :
  money_transfer w request st = (Return s, st') →
  ∃ i j su ru,
    list_find (λ u, User.id u = TransferRequest.sender_id request) (users st)
      = Some (i, su)
    ∧ list_find
        (λ u, User.AccountNo u = TransferRequest.receiver_account request)
        (users st) = Some (j, ru)
    ∧ transactions st' =
        transactions st ++
          [Transaction.mk (User.id su) (User.AccountNo su)
             (- TransferRequest.amount request) "debit" (Some (now w));
           Transaction.mk (User.id ru) (User.AccountNo ru)
             (TransferRequest.amount request) "credit" (Some (now w))].
Proof.
  destruct (list_find (λ u, User.id u = TransferRequest.sender_id request)
              (users st)) as [[i su]|] eqn:Hs.
  2: { by rewrite money_transfer_no_sender. }
  destruct (list_find
              (λ u, User.AccountNo u = TransferRequest.receiver_account request)
              (users st)) as [[j ru]|] eqn:Hr.
  2: { by erewrite money_transfer_no_receiver. }
  erewrite money_transfer_found by done.
  destruct (rejection w su ru _) as [r|]; [done|].
  destruct (commit_fault w) as [err|]; [done|].
  intros [= <- <-]. by exists i, j, su, ru.
Qed.

(** The scheduled path never touches the ledger, whatever the outcome. *)
Lemma scheduled_task_ledger w retries sid racct a st :
  transactions (snd (schedule_money_transfer w retries sid racct a st))
    = transactions st.
Proof.
  destruct (list_find (λ u, User.id u = sid) (users st))
    as [[i su]|] eqn:Hs.
  2: { by rewrite task_no_sender. }
  destruct (list_find (λ u, User.AccountNo u = racct) (users st))
    as [[j ru]|] eqn:Hr.
  2: { by erewrite task_no_receiver. }
  erewrite task_found by done. cbn zeta.
  repeat case_decide; try done; by destruct (commit_fault w).
Qed.

(** C2, at the input on which the scheduled path departs from it: the task
    moves 500 from user1 to user2, reports success, and the ledger is still
    empty, where the immediate path writes the debit and the credit. *)
Theorem C2_scheduled_transfer_writes_no_ledger_entry :
  let '(r, st') :=
    schedule_money_transfer noon 0 1 1000000002 500 (sample_store 20000) in
  let '(r_now, st_now) :=
    money_transfer noon (TransferRequest.mk 1 1000000002 500)
      (sample_store 20000) in
  (∃ s, r = Return (TaskSuccess s 500))
  ∧ User.Amount <$> users st' !! 0%nat = Some 4500%float
  ∧ User.Amount <$> users st' !! 1%nat = Some 3500%float
  ∧ transactions st' = []
  ∧ users st_now = users st'
  ∧ transactions st_now =
      [Transaction.mk 1 1000000001 (-500) "debit" (Some (now noon));
       Transaction.mk 2 1000000002 500 "credit" (Some (now noon))].
Proof. vm_compute. split_and!; [by eexists|done..]. Qed.

(** ** C5: the lazy reset of the daily allowance *)

Lemma debit_reset_daily w a u :
  User.daily_used (debit a (reset_daily w u))
    = (User.daily_used (reset_daily w u) - a)%float
  ∧ User.last_reset (debit a (reset_daily w u)) = today w.
Proof. split; [reflexivity|]. apply reset_daily_today. Qed.

(** C5, as the code has it.  When validation gets past the amount, the
    self-transfer and the funds checks on a sender whose last_reset is not
    today, the allowance of the sender is set to the standing limit of 2000
    and last_reset to today before the daily-limit check, which is made
    against the restored allowance; the reset stays in the sender record of
    the session, and the restored allowance is the one reported, when the
    call is then rejected with DailyLimitExceeded; a rejection by one of the
    three earlier checks leaves the record untouched.  The reset is stored
    with the transfer that commits.  When last_reset is today already,
    validation changes nothing.  A successful transfer, immediate or
    scheduled, stores as the allowance of the sender the binary64 difference
    of the allowance after the reset and its amount, with last_reset today.
    The scheduled task resets in the same place, after its funds check. *)
Theorem C5_daily_reset :
  (∀ w i j a s su ru,
     objects s !! i = Some su → objects s !! j = Some ru →
     ¬ (a ≤ 0)%float → User.AccountNo su ≠ User.AccountNo ru →
     ¬ (User.Amount su < a)%float →
     User.last_reset su ≠ today w →
     objects (snd (validate_transfer_request w i j a s)) !! i
       = Some (User.set_last_reset (today w)
                 (User.set_daily_used standing_limit su))
     ∧ fst (validate_transfer_request w i j a s)
       = if decide (a > standing_limit)%float
         then Raise (HTTPException 400 (DailyLimitExceeded standing_limit))
         else Return ())
  ∧ (∀ w i j a s su ru,
       objects s !! i = Some su → objects s !! j = Some ru →
       (a ≤ 0)%float ∨ User.AccountNo su = User.AccountNo ru
       ∨ (User.Amount su < a)%float →
       snd (validate_transfer_request w i j a s) = s)
  ∧ (∀ w i j a s su ru,
       objects s !! i = Some su → objects s !! j = Some ru →
       User.last_reset su = today w →
       snd (validate_transfer_request w i j a s) = s)
  ∧ (∀ w request st s st',
       money_transfer w request st = (Return s, st') →
       ∃ i su su',
         list_find (λ u, User.id u = TransferRequest.sender_id request)
           (users st) = Some (i, su)
         ∧ users st' !! i = Some su'
         ∧ User.last_reset su' = today w
         ∧ User.daily_used su'
             = ((if decide (User.last_reset su = today w)
                 then User.daily_used su else standing_limit)
                - TransferRequest.amount request)%float)
  ∧ (∀ w retries sid racct a st s a' st',
       schedule_money_transfer w retries sid racct a st
         = (Return (TaskSuccess s a'), st') →
       ∃ i su su',
         list_find (λ u, User.id u = sid) (users st) = Some (i, su)
         ∧ users st' !! i = Some su'
         ∧ User.last_reset su' = today w
         ∧ User.daily_used su'
             = ((if decide (User.last_reset su = today w)
                 then User.daily_used su else standing_limit) - a)%float)
  ∧ (∀ w retries sid racct a st i su j ru,
       list_find (λ u, User.id u = sid) (users st) = Some (i, su) →
       list_find (λ u, User.AccountNo u = racct) (users st) = Some (j, ru) →
       ¬ (User.Amount su < a)%float → User.last_reset su ≠ today w →
       (a > standing_limit)%float →
       schedule_money_transfer w retries sid racct a st
         = (Return (TaskFailed (DailyLimitExceeded standing_limit)), st)).
Proof.
  assert (∀ w u, User.daily_used (reset_daily w u)
                 = if decide (User.last_reset u = today w)
                   then User.daily_used u else standing_limit) as Hd.
  { intros w u. unfold reset_daily. by repeat case_decide. }
  split_and!.
  - intros w i j a s su ru Hi Hj Ha Hno Hbal Hstale.
    rewrite (validate_run _ _ _ _ _ _ _ Hi Hj). cbn zeta.
    rewrite (reset_daily_stale _ _ Hstale).
    assert (reset_daily w su
            = User.set_last_reset (today w)
                (User.set_daily_used standing_limit su)) as ->
      by (unfold reset_daily; by case_decide).
    repeat case_decide; try done;
      (split; [by eapply with_object_lookup|done]).
  - intros w i j a s su ru Hi Hj Hearly.
    rewrite (validate_run _ _ _ _ _ _ _ Hi Hj).
    repeat case_decide; try done; by destruct Hearly as [?|[?|?]].
  - intros w i j a s su ru Hi Hj Hfresh.
    rewrite (validate_run _ _ _ _ _ _ _ Hi Hj). cbn zeta.
    rewrite (reset_daily_fresh _ _ Hfresh), (with_object_id _ _ _ Hi).
    by repeat case_decide.
  - intros w request st s st'.
    destruct (list_find (λ u, User.id u = TransferRequest.sender_id request)
                (users st)) as [[i su]|] eqn:Hs.
    2: { by rewrite money_transfer_no_sender. }
    destruct (list_find
                (λ u, User.AccountNo u =
                        TransferRequest.receiver_account request)
                (users st)) as [[j ru]|] eqn:Hr.
    2: { by erewrite money_transfer_no_receiver. }
    erewrite money_transfer_found by done.
    destruct (rejection w su ru _) as [r|] eqn:Hrej; [done|].
    destruct (commit_fault w) as [err|]; [done|].
    intros [= <- <-].
    pose proof Hs as (Hi & _)%list_find_Some.
    pose proof Hr as (Hj & _)%list_find_Some.
    pose proof (rejection_None _ _ _ _ Hrej) as (Hpos & Hno & _).
    assert (i ≠ j) as Hij.
    { intros ->. rewrite Hi in Hj. by injection Hj as ->. }
    edestruct (lookup_two_inserts (users st) i j) as (_ & Hli & _); [done..|].
    eexists i, su, _. split_and!; [done|by apply Hli|..].
    + apply debit_reset_daily.
    + by rewrite (proj1 (debit_reset_daily _ _ _)), Hd.
  - intros w retries sid racct a st s a' st'.
    destruct (list_find (λ u, User.id u = sid) (users st))
      as [[i su]|] eqn:Hs.
    2: { by rewrite task_no_sender. }
    destruct (list_find (λ u, User.AccountNo u = racct) (users st))
      as [[j ru]|] eqn:Hr.
    2: { by erewrite task_no_receiver. }
    erewrite task_found by done. cbn zeta.
    pose proof Hs as (Hi & _)%list_find_Some.
    pose proof Hr as (Hj & _)%list_find_Some.
    destruct (decide (User.Amount su < a)%float); [done|].
    destruct (decide (a > _)%float); [done|].
    destruct (commit_fault w) as [err|]; [done|].
    intros [= <- <- <-]. cbn [users].
    destruct (decide (i = j)) as [<-|Hij].
    + edestruct (lookup_two_inserts (users st) i i) as (Hlj & _); [done..|].
      eexists i, su, _. split_and!; [done|by apply Hlj|..].
      * apply reset_daily_today.
      * cbn. by rewrite Hd.
    + edestruct (lookup_two_inserts (users st) i j) as (_ & Hli & _); [done..|].
      eexists i, su, _. split_and!; [done|by apply Hli|..].
      * apply reset_daily_today.
      * cbn. by rewrite Hd.
  - intros w retries sid racct a st i su j ru Hs Hr Hbal Hstale Hbig.
    erewrite task_found by done. cbn zeta.
    rewrite (reset_daily_stale _ _ Hstale).
    by repeat case_decide.
Qed.

Lemma C5_witness :
  objects (snd (validate_transfer_request noon 0 1 2500
                  (open_session stale_store))) !! 0%nat
    = Some (User.mk 1 "user1" 1000000001 5000 2000 20000)
  ∧ fst (validate_transfer_request noon 0 1 2500 (open_session stale_store))
    = Raise (HTTPException 400 (DailyLimitExceeded 2000)).
Proof.
  destruct C5_daily_reset as [H _].
  apply (H noon 0%nat 1%nat 2500%float (open_session stale_store)
           (User.mk 1 "user1" 1000000001 5000 500 19999)
           (User.mk 2 "user2" 1000000002 3000 2000 19999));
    [reflexivity | reflexivity | by vm_compute | done | by vm_compute | done].
Defined.

(** Validation run on a sender last reset the day before, with an amount of
    zero: the call is rejected and neither the allowance nor last_reset of
    the sender has been restored. *)
Lemma C5_counterexample :
  let s := open_session stale_store in
  let '(r, s') := validate_transfer_request noon 0 1 0 s in
  today noon = 20000
  ∧ User.last_reset <$> objects s !! 0%nat = Some 19999
  ∧ r = Raise (HTTPException 400 InvalidAmount)
  ∧ User.daily_used <$> objects s' !! 0%nat = Some 500%float
  ∧ User.last_reset <$> objects s' !! 0%nat = Some 19999.
Proof. vm_compute. done. Qed.

(** ** C6: retries of a scheduled job *)

Lemma retry_granted r exc countdown :
  r < max_retries → celery.retry max_retries r exc countdown = Retry exc countdown.
Proof. intros H. unfold celery.retry. case_decide; [lia|done]. Qed.

Lemma retry_exhausted r exc countdown :
  max_retries ≤ r → celery.retry max_retries r exc countdown = exc.
Proof. intros H. unfold celery.retry. case_decide; [done|lia]. Qed.

(** The task either returns, or raises what [Task.retry] gives for the error
    of the engine; a raising attempt has changed nothing. *)
Lemma task_outcome w r sid racct a st :
  (∃ v st', schedule_money_transfer w r sid racct a st = (Return v, st'))
  ∨ (∃ err, commit_fault w = Some err
            ∧ schedule_money_transfer w r sid racct a st
              = (Raise (celery.retry max_retries r (SQLAlchemyError err) 60),
                 st)).
Proof.
  destruct (list_find (λ u, User.id u = sid) (users st))
    as [[i su]|] eqn:Hs.
  2: { rewrite task_no_sender by done. left; eauto. }
  destruct (list_find (λ u, User.AccountNo u = racct) (users st))
    as [[j ru]|] eqn:Hr.
  2: { erewrite task_no_receiver by done. left; eauto. }
  erewrite task_found by done. cbn zeta.
  repeat case_decide; try (left; eauto; fail).
  all: destruct (commit_fault w) as [err|]; [right; eauto|left; eauto].
Qed.

Lemma run_job_idle ws st be : run_job ws st (celery.mkApp [] be) = (0%nat, (st, celery.mkApp [] be)).
Proof. by destruct ws. Qed.

Lemma run_job_bound ws : ∀ m st be,
  0 ≤ celery.retries m ≤ max_retries →
  (fst (run_job ws st (celery.mkApp [m] be)) ≤
     Z.to_nat (max_retries + 1 - celery.retries m))%nat.
Proof.
  induction ws as [|w ws IH]; intros m st be Hr; [cbn; lia|].
  cbn [run_job celery.broker]. case_decide as Heta; [|by apply IH].
  unfold worker_run.
  destruct (task_outcome w (celery.retries m) (celery.sender_id m)
              (celery.receiver_account m) (celery.amount m) st)
    as [(v & st' & ->)|(err & _ & ->)].
  - cbn. rewrite run_job_idle. cbn. unfold max_retries in *. lia.
  - destruct (decide (celery.retries m < max_retries)) as [Hlt|Hge].
    + rewrite retry_granted by done. cbn [insert list_insert celery.broker].
      match goal with
      | |- context [run_job ws st (celery.mkApp [?m'] ?be')] =>
          specialize (IH m' st be');
          destruct (run_job ws st (celery.mkApp [m'] be')) as [n x]
      end.
      cbn in *. unfold max_retries in *. lia.
    + rewrite retry_exhausted by lia. cbn. rewrite run_job_idle. cbn.
      unfold max_retries in *. lia.
Qed.

(** C6, as the code has it.  For a scheduled job, an attempt in which the
    task raises (the engine refuses the commit) is retried after a fixed
    delay of 60 time units while fewer than 3 retries have been made; the
    attempt after the third retry, the fourth in total, is the last: its
    failure leaves the job failed with that last error recorded, and no job
    is ever attempted more than 4 times.  A rejection by the checks of the
    task (sender not found, receiver not found, insufficient funds, daily
    limit exceeded) is never retried: the first attempt ends the job, the
    store is untouched, and the result recorded for the job carries the
    status failed and the reason.  The registry reports the job that has
    used up its retries with status "failure" and the error, and the
    rejected job with status "success" and the failed result. *)
Theorem C6_retry_policy :
  (∀ w k m st a i su j ru err,
     list_find (λ u, User.id u = celery.sender_id m) (users st) = Some (i, su) →
     list_find (λ u, User.AccountNo u = celery.receiver_account m) (users st)
       = Some (j, ru) →
     ¬ (User.Amount su < celery.amount m)%float →
     ¬ (celery.amount m > User.daily_used (reset_daily w su))%float →
     commit_fault w = Some err →
     worker_run w k m st a =
       (st,
        if decide (celery.retries m < 3) then
          celery.mkApp
            (<[k := celery.mkMessage (celery.task_id m) (celery.sender_id m)
                      (celery.receiver_account m) (celery.amount m)
                      (now w + 60) (celery.retries m + 1)]> (celery.broker a))
            (<[celery.task_id m := celery.MetaRetry (SQLAlchemyError err)]>
               (celery.backend a))
        else
          celery.mkApp (delete k (celery.broker a))
            (<[celery.task_id m := celery.MetaFailure (SQLAlchemyError err)]>
               (celery.backend a))))
  ∧ (∀ ws m st be,
       celery.retries m = 0 →
       (fst (run_job ws st (celery.mkApp [m] be)) ≤ 4)%nat)
  ∧ (∀ w k m st a,
       let rejected reason :=
         worker_run w k m st a =
           (st, celery.mkApp (delete k (celery.broker a))
                  (<[celery.task_id m := celery.MetaSuccess (TaskFailed reason)]>
                     (celery.backend a))) in
       (list_find (λ u, User.id u = celery.sender_id m) (users st) = None →
        rejected SenderNotFound)
       ∧ ∀ i su,
           list_find (λ u, User.id u = celery.sender_id m) (users st)
             = Some (i, su) →
           (list_find (λ u, User.AccountNo u = celery.receiver_account m)
              (users st) = None →
            rejected ReceiverNotFound)
           ∧ ∀ j ru,
               list_find (λ u, User.AccountNo u = celery.receiver_account m)
                 (users st) = Some (j, ru) →
               ((User.Amount su < celery.amount m)%float →
                rejected InsufficientFunds)
               ∧ (¬ (User.Amount su < celery.amount m)%float →
                  (celery.amount m > User.daily_used (reset_daily w su))%float →
                  rejected
                    (DailyLimitExceeded (User.daily_used (reset_daily w su)))))
  ∧ (∀ a t,
       (∀ e, celery.backend a !! t = Some (celery.MetaFailure e) →
             status (get_task_status a t) = "failure"
             ∧ error (get_task_status a t) = Some (str e))
       ∧ (∀ r, celery.backend a !! t = Some (celery.MetaSuccess r) →
               status (get_task_status a t) = "success"
               ∧ task_result (get_task_status a t) = Some r)).
Proof.
  split_and!.
  2: { intros ws m st be Hr.
       pose proof (run_job_bound ws m st be) as H. rewrite Hr in H.
       unfold max_retries in H. apply H. lia. }
  3: { intros a t. split.
       - intros e He.
         unfold get_task_status, celery.AsyncResult_state,
           celery.AsyncResult_info.
         by rewrite He.
       - intros r Hr.
         unfold get_task_status, celery.AsyncResult_state,
           celery.AsyncResult_result.
         by rewrite Hr. }
  - intros w k m st a i su j ru err Hs Hr Hbal Hlim Hfault.
    unfold worker_run. erewrite task_found by done. cbn zeta.
    rewrite Hfault. repeat case_decide; try done; try lia.
    + by rewrite retry_granted.
    + by rewrite retry_exhausted by (unfold max_retries; lia).
  - intros w k m st a rejected. unfold rejected, worker_run. split.
    { intros Hs. by rewrite task_no_sender. }
    intros i su Hs. split.
    { intros Hr. by erewrite task_no_receiver. }
    intros j ru Hr. split.
    + intros Hlow. erewrite task_found by done. by case_decide.
    + intros Hbal Hlim. erewrite task_found by done. cbn zeta.
      by repeat case_decide.
Qed.

Lemma C6_witness :
  worker_run noon_down 0 sample_job (sample_store 20000)
    (celery.mkApp [sample_job] ∅)
  = (sample_store 20000,
     celery.mkApp
       [celery.mkMessage "job-1" 1 1000000002 500 (now noon_down + 60) 1]
       (<["job-1" := celery.MetaRetry (SQLAlchemyError "connection lost")]> ∅)).
Proof.
  destruct C6_retry_policy as [H _].
  rewrite (H noon_down 0%nat sample_job (sample_store 20000)
             (celery.mkApp [sample_job] ∅) 0%nat
             (User.mk 1 "user1" 1000000001 5000 2000 20000) 1%nat
             (User.mk 2 "user2" 1000000002 3000 2000 20000)
             "connection lost");
    [reflexivity | reflexivity | reflexivity | by vm_compute | by vm_compute
    | reflexivity].
Defined.

(** Three attempts refused by the engine, a minute apart, and a fourth one
    that finds it healthy: after the third the job is not failed but waiting
    for its third retry, and the fourth attempt is made and moves the money.
    And a job for more than the balance of the sender: its only attempt is
    rejected, and the registry holds it as a success. *)
Lemma C6_counterexample :
  let refused n := later n (Some "connection lost") in
  let three := run_job [refused 0; refused 60; refused 120]
                 (sample_store 20000) (celery.mkApp [sample_job] ∅) in
  let four := run_job [refused 0; refused 60; refused 120; later 180 None]
                (sample_store 20000) (celery.mkApp [sample_job] ∅) in
  let rejected :=
    run_job [noon; later 60 None] (sample_store 20000)
      (celery.mkApp
         [celery.mkMessage "job-1" 1 1000000002 6000 (20000 * 86400) 0] ∅) in
  fst three = 3%nat
  ∧ celery.AsyncResult_state (snd (snd three)) "job-1" = "RETRY"
  ∧ celery.retries <$> celery.broker (snd (snd three)) !! 0%nat = Some 3
  ∧ fst four = 4%nat
  ∧ celery.AsyncResult_state (snd (snd four)) "job-1" = "SUCCESS"
  ∧ User.Amount <$> users (fst (snd four)) !! 0%nat = Some 4500%float
  ∧ User.Amount <$> users (fst (snd four)) !! 1%nat = Some 3500%float
  ∧ fst rejected = 1%nat
  ∧ status (get_task_status (snd (snd rejected)) "job-1") = "success"
  ∧ task_result (get_task_status (snd (snd rejected)) "job-1")
    = Some (TaskFailed InsufficientFunds).
Proof. vm_compute. done. Qed.

(** ** C7: admission of a scheduled transfer *)

(** The scheduling request never changes the store. *)
Lemma scheduled_store w request a st :
  snd (scheduled_money_transfer w request a st) = st.
Proof.
  destruct (list_find
              (λ u, User.id u = ScheduledTransferRequest.sender_id request)
              (users st)) as [[i su]|] eqn:Hs.
  2: { by rewrite scheduled_no_sender. }
  destruct (list_find
              (λ u, User.AccountNo u =
                      ScheduledTransferRequest.receiver_account request)
              (users st)) as [[j ru]|] eqn:Hr.
  2: { by erewrite scheduled_no_receiver. }
  erewrite scheduled_found by done.
  destruct (rejection w su ru _); [done|].
  case_decide; [done|]. by destruct (broker_fault w).
Qed.

(** An accepted request has passed the Validator, has an eta that is not in
    the past, and has put exactly its own message at the end of the queue. *)
Lemma scheduled_accepted w request a st s a' st' :
  scheduled_money_transfer w request a st = (Return (s, a'), st') →
  scheduled_task_id s = fresh_task_id w
  ∧ ¬ (ScheduledTransferRequest.amount request ≤ 0)%float
  ∧ a' = celery.mkApp
           (celery.broker a ++
              [celery.mkMessage (fresh_task_id w)
                 (ScheduledTransferRequest.sender_id request)
                 (ScheduledTransferRequest.receiver_account request)
                 (ScheduledTransferRequest.amount request)
                 (datetime_combine_min
                    (ScheduledTransferRequest.scheduled_date request)) 0])
           (celery.backend a).
Proof.
  destruct (list_find
              (λ u, User.id u = ScheduledTransferRequest.sender_id request)
              (users st)) as [[i su]|] eqn:Hs.
  2: { by rewrite scheduled_no_sender. }
  destruct (list_find
              (λ u, User.AccountNo u =
                      ScheduledTransferRequest.receiver_account request)
              (users st)) as [[j ru]|] eqn:Hr.
  2: { by erewrite scheduled_no_receiver. }
  erewrite scheduled_found by done.
  destruct (rejection w su ru _) eqn:Hrej; [done|].
  apply rejection_None in Hrej as (Hpos & _).
  case_decide; [done|]. destruct (broker_fault w); [done|].
  by intros [= <- <- <-].
Qed.

(** C7, as the code has it.  transferScheduled rejects at once, creating no
    job and changing neither the store nor the queue, when the eta is before
    the current moment, when the sender or the receiver does not exist, or
    when the request fails the validation against the current accounts:
    non-positive amount, self-transfer, insufficient funds, daily limit
    exceeded.  For every request that passes this validation against existing
    sender and receiver accounts with an eta strictly in the future, and
    whose message the broker accepts, a job is persisted at the end of the
    queue and its job id is returned to the caller. *)
Theorem C7_scheduling_admission :
  (∀ w request sys e,
     fst (scheduled_money_transfer w request (app sys) (store sys)) = Raise e →
     perform (Scheduled w request) sys = (sys, []))
  ∧ (∀ w request a st,
       datetime_combine_min (ScheduledTransferRequest.scheduled_date request)
         < now w →
       ∃ e, scheduled_money_transfer w request a st = (Raise e, st))
  ∧ (∀ w request a st,
       list_find
         (λ u, User.id u = ScheduledTransferRequest.sender_id request)
         (users st) = None →
       scheduled_money_transfer w request a st
         = (Raise (HTTPException 404 SenderNotFound), st))
  ∧ (∀ w request a st,
       is_Some
         (list_find
            (λ u, User.id u = ScheduledTransferRequest.sender_id request)
            (users st)) →
       list_find
         (λ u, User.AccountNo u =
                 ScheduledTransferRequest.receiver_account request)
         (users st) = None →
       scheduled_money_transfer w request a st
         = (Raise (HTTPException 404 ReceiverNotFound), st))
  ∧ (∀ w request a st i su j ru r,
       list_find
         (λ u, User.id u = ScheduledTransferRequest.sender_id request)
         (users st) = Some (i, su) →
       list_find
         (λ u, User.AccountNo u =
                 ScheduledTransferRequest.receiver_account request)
         (users st) = Some (j, ru) →
       rejection w su ru (ScheduledTransferRequest.amount request) = Some r →
       scheduled_money_transfer w request a st
         = (Raise (HTTPException 400 r), st))
  ∧ (∀ w request a st i su j ru,
       list_find
         (λ u, User.id u = ScheduledTransferRequest.sender_id request)
         (users st) = Some (i, su) →
       list_find
         (λ u, User.AccountNo u =
                 ScheduledTransferRequest.receiver_account request)
         (users st) = Some (j, ru) →
       rejection w su ru (ScheduledTransferRequest.amount request) = None →
       now w
         < datetime_combine_min
             (ScheduledTransferRequest.scheduled_date request) →
       broker_fault w = None →
       scheduled_money_transfer w request a st =
         (Return
            (mkScheduled (fresh_task_id w)
               (ScheduledTransferRequest.scheduled_date request)
               (User.username su) (User.username ru)
               (ScheduledTransferRequest.amount request),
             celery.mkApp
               (celery.broker a ++
                  [celery.mkMessage (fresh_task_id w)
                     (ScheduledTransferRequest.sender_id request)
                     (ScheduledTransferRequest.receiver_account request)
                     (ScheduledTransferRequest.amount request)
                     (datetime_combine_min
                        (ScheduledTransferRequest.scheduled_date request)) 0])
               (celery.backend a)),
          st)).
Proof.
  split_and!.
  - intros w request [st a] e. cbn [perform app store].
    pose proof (scheduled_store w request a st) as Hst.
    destruct (scheduled_money_transfer w request a st) as [[[s a']|e'] st'];
      cbn in *; intros; by simplify_eq.
  - intros w request a st Hpast.
    destruct (list_find
                (λ u, User.id u = ScheduledTransferRequest.sender_id request)
                (users st)) as [[i su]|] eqn:Hs.
    2: { rewrite scheduled_no_sender by done. eauto. }
    destruct (list_find
                (λ u, User.AccountNo u =
                        ScheduledTransferRequest.receiver_account request)
                (users st)) as [[j ru]|] eqn:Hr.
    2: { erewrite scheduled_no_receiver by done. eauto. }
    erewrite scheduled_found by done.
    destruct (rejection w su ru _); [eauto|].
    case_decide; [eauto|lia].
  - intros w request a st Hs. by apply scheduled_no_sender.
  - intros w request a st [[i su] Hs] Hr.
    by apply scheduled_no_receiver with i su.
  - intros w request a st i su j ru r Hs Hr Hrej.
    erewrite scheduled_found by done. by rewrite Hrej.
  - intros w request a st i su j ru Hs Hr Hrej Hfuture Hbroker.
    erewrite scheduled_found by done. rewrite Hrej, Hbroker.
    case_decide; [lia|done].
Qed.

Lemma C7_witness :
  scheduled_money_transfer noon
    (ScheduledTransferRequest.mk 1 1000000002 500 20001)
    (celery.mkApp [] ∅) (sample_store 20000)
  = (Return
       (mkScheduled "job-1" 20001 "user1" "user2" 500,
        celery.mkApp
          [celery.mkMessage "job-1" 1 1000000002 500 (20001 * 86400) 0] ∅),
     sample_store 20000).
Proof.
  destruct C7_scheduling_admission as (_ & _ & _ & _ & _ & H).
  apply (H noon (ScheduledTransferRequest.mk 1 1000000002 500 20001)
           (celery.mkApp [] ∅) (sample_store 20000) 0%nat
           (User.mk 1 "user1" 1000000001 5000 2000 20000) 1%nat
           (User.mk 2 "user2" 1000000002 3000 2000 20000));
    [reflexivity | reflexivity | reflexivity | vm_compute; reflexivity
    | reflexivity].
Defined.

(** A request for the day after, between two existing and distinct accounts
    and for a positive amount, is turned down all the same, and without a
    job: the amount is above the balance of the sender at scheduling time. *)
Lemma C7_counterexample :
  let request := ScheduledTransferRequest.mk 1 1000000002 6000 20001 in
  now noon < datetime_combine_min (ScheduledTransferRequest.scheduled_date request)
  ∧ (0 < ScheduledTransferRequest.amount request)%float
  ∧ fst (scheduled_money_transfer noon request (app sample_system)
           (store sample_system))
    = Raise (HTTPException 400 InsufficientFunds)
  ∧ perform (Scheduled noon request) sample_system = (sample_system, [])
  ∧ celery.broker (app (fst (perform (Scheduled noon request) sample_system)))
    = [].
Proof. vm_compute. done. Qed.

(** ** C10: what the scheduled task re-checks *)

(** C10, as the code has it.  The scheduled task re-checks only the existence
    of the accounts, the funds and the daily limit: it never rejects with
    InvalidAmount or SelfTransfer.  For every invocation with both accounts
    found in which amount <= 0, or in which sender and receiver are the same
    account, and which passes the funds check and the daily-limit check and
    whose commit the engine accepts, it applies the balance mutation and
    reports success.  The mutation is the arithmetic of the source on
    binary64 values: between distinct accounts the sender is left with
    balance - amount and allowance - amount after the reset, the receiver
    with balance + amount; with one and the same account the one row is
    debited and then credited.  No other row is changed. *)
Theorem C10_task_rechecks :
  (∀ w retries sid racct a st reason,
     fst (schedule_money_transfer w retries sid racct a st)
       = Return (TaskFailed reason) →
     reason = SenderNotFound ∨ reason = ReceiverNotFound
     ∨ reason = InsufficientFunds ∨ ∃ d, reason = DailyLimitExceeded d)
  ∧ (∀ w retries sid racct a st i su j ru,
       list_find (λ u, User.id u = sid) (users st) = Some (i, su) →
       list_find (λ u, User.AccountNo u = racct) (users st) = Some (j, ru) →
       (a ≤ 0)%float ∨ i = j →
       ¬ (User.Amount su < a)%float →
       ¬ (a > User.daily_used (reset_daily w su))%float →
       commit_fault w = None →
       ∃ s st',
         schedule_money_transfer w retries sid racct a st
           = (Return (TaskSuccess s a), st')
         ∧ (i ≠ j →
            users st' !! i = Some (debit a (reset_daily w su))
            ∧ users st' !! j = Some (credit a ru))
         ∧ (i = j →
            users st' !! i = Some (credit a (debit a (reset_daily w su))))
         ∧ (∀ k, k ≠ i → k ≠ j → users st' !! k = users st !! k)
         ∧ transactions st' = transactions st).
Proof.
  split.
  - intros w retries sid racct a st reason.
    destruct (list_find (λ u, User.id u = sid) (users st))
      as [[i su]|] eqn:Hs.
    2: { rewrite task_no_sender by done. intros [= <-]. auto. }
    destruct (list_find (λ u, User.AccountNo u = racct) (users st))
      as [[j ru]|] eqn:Hr.
    2: { erewrite task_no_receiver by done. intros [= <-]. auto. }
    erewrite task_found by done. cbn zeta.
    repeat case_decide; try (intros [= <-]; eauto 6; fail).
    all: by destruct (commit_fault w).
  - intros w retries sid racct a st i su j ru Hs Hr _ Hbal Hlim Hok.
    pose proof Hs as (Hi & _)%list_find_Some.
    pose proof Hr as (Hj & _)%list_find_Some.
    erewrite task_found by done. cbn zeta. rewrite Hok.
    rewrite !decide_False by done.
    do 2 eexists. split; [reflexivity|]. cbn [users transactions].
    destruct (decide (i = j)) as [<-|Hij].
    + edestruct (lookup_two_inserts (users st) i i) as (Hl & _ & Hlk);
        [done..|].
      split_and!; [done| |exact Hlk|done]. intros _. exact Hl.
    + edestruct (lookup_two_inserts (users st) i j) as (Hlj & Hli & Hlk);
        [done..|].
      split_and!; [|done|exact Hlk|done]. intros _.
      split; [by apply Hli|exact Hlj].
Qed.

Lemma C10_witness :
  ∃ s st',
    schedule_money_transfer noon 0 1 1000000002 (-6000) (sample_store 20000)
      = (Return (TaskSuccess s (-6000)), st')
    ∧ User.Amount <$> users st' !! 0%nat = Some 11000%float
    ∧ User.Amount <$> users st' !! 1%nat = Some (-3000)%float.
Proof.
  destruct C10_task_rechecks as [_ H].
  destruct (H noon 0 1 1000000002 (-6000)%float (sample_store 20000) 0%nat
              (User.mk 1 "user1" 1000000001 5000 2000 20000) 1%nat
              (User.mk 2 "user2" 1000000002 3000 2000 20000))
    as (s & st' & Hrun & Hne & _);
    [reflexivity | reflexivity | by left | by vm_compute
    | by vm_compute | reflexivity |].
  exists s, st'. destruct Hne as (Hi & Hj); [done|].
  split; [exact Hrun|]. by rewrite Hi, Hj.
Defined.

(** The task run on a message whose receiver is the sender's own account and
    whose amount is above the balance: both accounts are found, and the task
    does not go on to the mutation but returns the failure of its funds
    check.  And the task run for the negative amount -2^-70 between two
    distinct accounts: it reports success, and the balance of the sender is
    5000 as before, not higher, and that of the receiver 3000 as before, not
    lower. *)
Lemma C10_counterexample :
  (list_find (λ u, User.id u = 1) (users (sample_store 20000))
     = Some (0%nat, User.mk 1 "user1" 1000000001 5000 2000 20000)
   ∧ list_find (λ u, User.AccountNo u = 1000000001)
       (users (sample_store 20000))
     = Some (0%nat, User.mk 1 "user1" 1000000001 5000 2000 20000)
   ∧ schedule_money_transfer noon 0 1 1000000001 6000 (sample_store 20000)
     = (Return (TaskFailed InsufficientFunds), sample_store 20000))
  ∧ let '(r, st') :=
      schedule_money_transfer noon 0 1 1000000002 (-0x1p-70)
        (sample_store 20000) in
    (∃ s, r = Return (TaskSuccess s (-0x1p-70)))
    ∧ (-0x1p-70 < 0)%float
    ∧ User.Amount <$> users st' !! 0%nat = Some 5000%float
    ∧ User.Amount <$> users st' !! 1%nat = Some 3000%float.
Proof. vm_compute. split_and!; try done. by eexists. Qed.

(** ** The service as a whole *)

Lemma seed_data_run w st :
  seed_data w st =
    match commit_fault w with
    | Some e => (Raise (HTTPException 500 (DatabaseError e)), st)
    | None =>
        (Return "10 users seeded successfully",
         mkStore (seeded_user w <$> seqZ 1 10) (transactions st))
    end.
Proof.
  unfold seed_data, get_db, try_except, mbind, M_bind, delete_all, add_users,
    commit.
  cbn [open_session committed objects pending].
  destruct (commit_fault w); cbn; [done|]. by rewrite app_nil_r.
Qed.

(** What one dispatch does to the queue and to the registry: the message is
    removed or replaced by a later attempt of the same job, and the registry
    gets a record under the id of the message. *)
Lemma worker_run_shape w k m st a :
  ∃ queue meta,
    worker_run w k m st a =
      (snd (schedule_money_transfer w (celery.retries m) (celery.sender_id m)
              (celery.receiver_account m) (celery.amount m) st),
       celery.mkApp queue (<[celery.task_id m := meta]> (celery.backend a)))
    ∧ (queue = delete k (celery.broker a)
       ∨ ∃ eta retries,
           queue = <[k := celery.mkMessage (celery.task_id m)
                             (celery.sender_id m) (celery.receiver_account m)
                             (celery.amount m) eta retries]> (celery.broker a)).
Proof.
  unfold worker_run.
  destruct (schedule_money_transfer _ _ _ _ _ _) as [[v|e] st'].
  - do 2 eexists. split; [reflexivity|]. by left.
  - destruct e; do 2 eexists; (split; [reflexivity|]); eauto.
Qed.

(** ** C8: the status of a job id that was never issued *)

Lemma known_ids_weaken ids ids' a :
  known_ids ids a → known_ids (ids ++ ids') a.
Proof.
  intros [Hq Hb]. split.
  - eapply Forall_impl; [done|]. intros m Hm. cbn in *. set_solver.
  - intros t Ht. specialize (Hb t Ht). set_solver.
Qed.

Lemma perform_known ids op sys :
  known_ids ids (app sys) →
  known_ids (ids ++ snd (perform op sys)) (app (fst (perform op sys))).
Proof.
  intros Hk. destruct op as [w|w request|w request|w k]; cbn [perform].
  - by apply known_ids_weaken.
  - by apply known_ids_weaken.
  - destruct (scheduled_money_transfer w request (app sys) (store sys))
      as [[[s a']|e] st'] eqn:Hrun; cbn; [|by apply known_ids_weaken].
    apply scheduled_accepted in Hrun as (Hid & _ & ->).
    destruct Hk as [Hq Hb]. split; cbn.
    + apply Forall_app. split.
      * eapply Forall_impl; [done|]. intros m Hm. cbn in *. set_solver.
      * apply Forall_singleton. cbn. set_solver.
    + intros t Ht. specialize (Hb t Ht). set_solver.
  - destruct (celery.broker (app sys) !! k) as [m|] eqn:Hm;
      [|by apply known_ids_weaken].
    case_decide; [|by apply known_ids_weaken].
    destruct (worker_run_shape w k m (store sys) (app sys))
      as (queue & meta & -> & Hqueue).
    destruct Hk as [Hq Hb]. cbn. rewrite app_nil_r.
    assert (celery.task_id m ∈ ids) as Hin
      by (by eapply (Forall_lookup_1 _ _ _ _ Hq)).
    split; cbn.
    + destruct Hqueue as [->|(eta & retries & ->)].
      * by apply Forall_delete.
      * by apply Forall_insert.
    + intros t. destruct (decide (celery.task_id m = t)) as [<-|Hne]; [done|].
      rewrite lookup_insert_ne by done. apply Hb.
Qed.

Lemma run_known ops : ∀ ids sys,
  known_ids ids (app sys) →
  known_ids (ids ++ snd (run ops sys)) (app (fst (run ops sys))).
Proof.
  induction ops as [|op ops IH]; intros ids sys Hk; cbn [run].
  - cbn. by rewrite app_nil_r.
  - pose proof (perform_known ids op sys Hk) as Hstep.
    destruct (perform op sys) as [sys1 ids1]. cbn in Hstep.
    specialize (IH _ _ Hstep).
    destruct (run ops sys1) as [sys2 ids2]. cbn in *.
    by rewrite app_assoc.
Qed.

(** C8, as the code has it.  For every job id that was never issued by the
    Scheduler, the job-status lookup answers as it does for a job that is
    issued and waiting: status "pending" with the message "Transfer is
    scheduled and waiting to be executed", no result and no error; the lookup
    has no outcome of its own for an unknown id. *)
Theorem C8_unknown_job_is_pending ops t :
  t ∉ snd (run ops initial) →
  get_task_status (app (fst (run ops initial))) t =
    mkStatus t "pending"
      (Some "Transfer is scheduled and waiting to be executed") None None.
Proof.
  intros Hnew.
  destruct (run_known ops [] initial) as [_ Hb].
  { split; [apply Forall_nil_2|]. intros t' [x Hx]. by cbn in Hx. }
  cbn [app] in Hb.
  assert (celery.backend (app (fst (run ops initial))) !! t = None) as Hnone.
  { apply eq_None_not_Some. intros Hsome. by apply Hb in Hsome. }
  unfold get_task_status, celery.AsyncResult_state. by rewrite Hnone.
Qed.

Lemma C8_witness :
  get_task_status
    (app (fst (run [Seed noon;
                    Scheduled noon
                      (ScheduledTransferRequest.mk 1 1000000002 500 20001)]
                 initial))) "no-such-job"
  = mkStatus "no-such-job" "pending"
      (Some "Transfer is scheduled and waiting to be executed") None None.
Proof.
  apply C8_unknown_job_is_pending. vm_compute.
  intros H. apply list_elem_of_singleton in H. discriminate H.
Defined.

(** No job was ever issued, and the lookup of an id answers "pending", as it
    does for the id of the job that has just been scheduled. *)
Lemma C8_counterexample :
  let scheduled :=
    fst (run [Seed noon;
              Scheduled noon
                (ScheduledTransferRequest.mk 1 1000000002 500 20001)]
           initial) in
  snd (run [] initial) = []
  ∧ status (get_task_status (app (fst (run [] initial))) "no-such-job")
    = "pending"
  ∧ celery.task_id <$> celery.broker (app scheduled) = ["job-1"]
  ∧ status (get_task_status (app scheduled) "job-1") = "pending"
  ∧ message (get_task_status (app scheduled) "no-such-job")
    = message (get_task_status (app scheduled) "job-1").
Proof. vm_compute. done. Qed.

(** * Further properties *)

(** ** Listing the transactions of a user *)

#[global] Instance newer_first_total : Total newer_first.
Proof. intros x y. unfold newer_first. lia. Qed.

#[global] Instance newer_first_trans : Transitive newer_first.
Proof. intros x y z. unfold newer_first. lia. Qed.

Lemma get_user_transactions_run uid st :
  get_user_transactions uid st =
    (Return
       (match list_find (λ u, User.id u = uid) (users st) with
        | Some _ =>
            Some (merge_sort newer_first
                    (filter (λ x, Transaction.user_id x = uid)
                       (transactions st)))
        | None => None
        end), st).
Proof.
  unfold get_user_transactions, get_db.
  erewrite run_bind by apply run_query. cbn [objects open_session].
  by destruct (list_find _ (users st)) as [[i u]|].
Qed.

(** X1.  The listing of the transactions of a user answers "User not found"
    exactly when no account has the key; otherwise it returns the entries of
    the ledger that carry the key, each of them once and no other, ordered
    so that no entry comes before a more recent one.  The store is not
    changed. *)
Theorem X1_transaction_listing uid st :
  snd (get_user_transactions uid st) = st
  ∧ ((∀ u, u ∈ users st → User.id u ≠ uid) →
     fst (get_user_transactions uid st) = Return None)
  ∧ (∀ u, u ∈ users st → User.id u = uid →
     ∃ l, fst (get_user_transactions uid st) = Return (Some l)
          ∧ l ≡ₚ filter (λ x, Transaction.user_id x = uid) (transactions st)
          ∧ StronglySorted newer_first l
          ∧ ∀ x, x ∈ l ↔ x ∈ transactions st ∧ Transaction.user_id x = uid).
Proof.
  rewrite get_user_transactions_run. cbn [fst snd]. split_and!; [done|..].
  - intros Hnone.
    destruct (list_find _ (users st)) as [[i u]|] eqn:Hf; [|done].
    apply list_find_Some in Hf as (Hi & Hid & _).
    destruct (Hnone u); [by eapply list_elem_of_lookup_2|done].
  - intros u Hu Hid.
    destruct (list_find _ (users st)) as [[i v]|] eqn:Hf.
    2: { apply list_find_None in Hf. rewrite Forall_forall in Hf.
         by destruct (Hf u Hu). }
    eexists. split; [reflexivity|]. split_and!.
    + apply merge_sort_Permutation.
    + apply StronglySorted_merge_sort; apply _.
    + intros x. rewrite merge_sort_Permutation. by rewrite list_elem_of_filter, (comm and).
Qed.

Lemma X1_witness :
  ∃ l,
    fst (get_user_transactions 2
           (snd (money_transfer noon (TransferRequest.mk 1 1000000002 500)
                   (sample_store 20000))))
      = Return (Some l)
    ∧ l ≡ₚ [Transaction.mk 2 1000000002 500 "credit" (Some (now noon))].
Proof.
  destruct (X1_transaction_listing 2
              (snd (money_transfer noon (TransferRequest.mk 1 1000000002 500)
                      (sample_store 20000)))) as (_ & _ & H).
  destruct (H (User.mk 2 "user2" 1000000002 3500 2000 20000))
    as (l & Hl & Hp & _).
  - apply list_elem_of_lookup. exists 1%nat. vm_compute. reflexivity.
  - reflexivity.
  - exists l. split; [exact Hl|]. rewrite Hp. vm_compute. reflexivity.
Defined.

Lemma identity_reset w u : identity (reset_daily w u) = identity u.
Proof.
  unfold identity.
  by destruct (reset_daily_fixed w u) as (-> & -> & -> & _).
Qed.

Lemma identity_insert (l : list User.t) i u v :
  l !! i = Some u → identity v = identity u →
  identity <$> <[i := v]> l = identity <$> l.
Proof.
  intros Hi Hv. rewrite list_fmap_insert, Hv.
  apply list_insert_id. by rewrite list_lookup_fmap, Hi.
Qed.

(** The index of the first row with a given key depends on the identifying
    columns only. *)
Lemma find_by_id_identity (l l' : list User.t) k :
  identity <$> l' = identity <$> l →
  fst <$> list_find (λ u, User.id u = k) l'
    = fst <$> list_find (λ u, User.id u = k) l.
Proof.
  intros H.
  assert (∀ l0 : list User.t,
            fst <$> list_find (λ u, User.id u = k) l0
            = fst <$> list_find (λ x : Z * string * Z, x.1.1 = k)
                        (identity <$> l0)) as Hid.
  { intros l0. rewrite list_find_fmap.
    by destruct (list_find _ l0) as [[??]|]. }
  by rewrite !Hid, H.
Qed.

(** A transfer, immediate or scheduled, whatever its outcome, leaves the
    identifying columns of every account as they were. *)
Lemma money_transfer_identity w request st :
  identity <$> users (snd (money_transfer w request st))
    = identity <$> users st.
Proof.
  destruct (list_find (λ u, User.id u = TransferRequest.sender_id request)
              (users st)) as [[i su]|] eqn:Hs.
  2: { by rewrite money_transfer_no_sender. }
  destruct (list_find
              (λ u, User.AccountNo u = TransferRequest.receiver_account request)
              (users st)) as [[j ru]|] eqn:Hr.
  2: { by erewrite money_transfer_no_receiver. }
  erewrite money_transfer_found by done.
  destruct (rejection w su ru _) as [r|] eqn:Hrej; [done|].
  destruct (commit_fault w) as [err|]; [done|].
  pose proof Hs as (Hi & _)%list_find_Some.
  pose proof Hr as (Hj & _)%list_find_Some.
  assert (i ≠ j) as Hij.
  { intros ->. apply rejection_None in Hrej. rewrite Hi in Hj.
    injection Hj as ->. tauto. }
  cbn [snd users].
  erewrite identity_insert; [|by rewrite list_lookup_insert_ne|done].
  erewrite identity_insert; [done..|]. apply identity_reset.
Qed.

Lemma task_identity w retries sid racct a st :
  identity <$> users (snd (schedule_money_transfer w retries sid racct a st))
    = identity <$> users st.
Proof.
  destruct (list_find (λ u, User.id u = sid) (users st))
    as [[i su]|] eqn:Hs.
  2: { by rewrite task_no_sender. }
  destruct (list_find (λ u, User.AccountNo u = racct) (users st))
    as [[j ru]|] eqn:Hr.
  2: { by erewrite task_no_receiver. }
  erewrite task_found by done. cbn zeta.
  destruct (decide (User.Amount su < a)%float); [done|].
  destruct (decide (a > _)%float); [done|].
  destruct (commit_fault w) as [err|]; [done|].
  pose proof Hs as (Hi & _)%list_find_Some.
  pose proof Hr as (Hj & _)%list_find_Some.
  cbn [snd users].
  destruct (decide (i = j)) as [<-|Hij].
  - assert (ru = su) as -> by congruence.
    rewrite list_insert_insert_eq. erewrite identity_insert; [done..|].
    apply identity_reset.
  - erewrite identity_insert; [|by rewrite list_lookup_insert_ne|done].
    erewrite identity_insert; [done..|]. apply identity_reset.
Qed.

Lemma listing_found (l l' : list User.t) uid :
  identity <$> l' = identity <$> l →
  is_Some (list_find (λ u, User.id u = uid) l')
  ↔ is_Some (list_find (λ u, User.id u = uid) l).
Proof.
  intros H. rewrite <-!(fmap_is_Some fst). by rewrite (find_by_id_identity _ _ _ H).
Qed.

(** X2.  After a successful immediate transfer the listing of every user
    that had one still has one, and it holds what it held before together
    with the new entries that carry the key of the user: the debit for the
    sender, the credit for the receiver, nothing for anybody else.  When the
    clock of the transfer is later than every timestamp of the ledger and
    sender and receiver have different keys, the debit is the first entry of
    the sender's listing and the credit the first of the receiver's. *)
Theorem X2_listing_after_transfer w request st s st' i su j ru :
  money_transfer w request st = (Return s, st') →
  list_find (λ u, User.id u = TransferRequest.sender_id request) (users st)
    = Some (i, su) →
  list_find (λ u, User.AccountNo u = TransferRequest.receiver_account request)
    (users st) = Some (j, ru) →
  let entry_debit :=
    Transaction.mk (User.id su) (User.AccountNo su)
      (- TransferRequest.amount request) "debit" (Some (now w)) in
  let entry_credit :=
    Transaction.mk (User.id ru) (User.AccountNo ru)
      (TransferRequest.amount request) "credit" (Some (now w)) in
  (∀ uid,
     match fst (get_user_transactions uid st) with
     | Return (Some l) =>
         ∃ l', fst (get_user_transactions uid st') = Return (Some l')
               ∧ l' ≡ₚ filter (λ x, Transaction.user_id x = uid)
                         [entry_debit; entry_credit] ++ l
     | _ => fst (get_user_transactions uid st') = Return None
     end)
  ∧ ((∀ x, x ∈ transactions st → stamp_key x < now w) →
     User.id su ≠ User.id ru →
     (∃ tail, fst (get_user_transactions (User.id su) st')
                = Return (Some (entry_debit :: tail)))
     ∧ (∃ tail, fst (get_user_transactions (User.id ru) st')
                  = Return (Some (entry_credit :: tail)))).
Proof.
  intros Hrun Hs Hr entry_debit entry_credit.
  pose proof (money_transfer_identity w request st) as Hid.
  rewrite Hrun in Hid. cbn [snd] in Hid.
  assert (transactions st' = transactions st ++ [entry_debit; entry_credit])
    as Hledger.
  { erewrite money_transfer_found in Hrun by done.
    destruct (rejection w su ru _); [done|].
    destruct (commit_fault w); [done|]. by injection Hrun as <- <-. }
  assert (∀ uid, is_Some (list_find (λ u, User.id u = uid) (users st)) →
     ∃ l', fst (get_user_transactions uid st') = Return (Some l')
           ∧ l' ≡ₚ filter (λ x, Transaction.user_id x = uid)
                     [entry_debit; entry_credit] ++
                   filter (λ x, Transaction.user_id x = uid) (transactions st)
           ∧ StronglySorted newer_first l') as Hafter.
  { intros uid Hfound. apply (listing_found _ _ uid Hid) in Hfound as [x Hx].
    rewrite get_user_transactions_run, Hx. cbn [fst].
    eexists. split; [reflexivity|]. split.
    - rewrite merge_sort_Permutation, Hledger, filter_app.
      apply Permutation_app_comm.
    - apply StronglySorted_merge_sort; apply _. }
  split.
  - intros uid. rewrite (get_user_transactions_run uid st). cbn [fst].
    destruct (list_find (λ u, User.id u = uid) (users st)) as [x|] eqn:Hx.
    + destruct (Hafter uid) as (l' & Hl' & Hp & _); [by rewrite Hx|].
      exists l'. split; [done|]. by rewrite Hp, merge_sort_Permutation.
    + rewrite get_user_transactions_run. cbn [fst].
      destruct (list_find (λ u, User.id u = uid) (users st')) as [y|] eqn:Hy;
        [|done].
      assert (is_Some (list_find (λ u, User.id u = uid) (users st))) as [z Hz].
      { apply (listing_found _ _ uid Hid). by rewrite Hy. }
      by rewrite Hx in Hz.
  - intros Hnew Hne.
    pose proof Hs as (Hi & Hsid & _)%list_find_Some.
    pose proof Hr as (Hj & _)%list_find_Some.
    assert (∀ uid entry l',
      filter (λ x, Transaction.user_id x = uid) [entry_debit; entry_credit]
        = [entry] →
      stamp_key entry = now w →
      l' ≡ₚ [entry] ++
            filter (λ x, Transaction.user_id x = uid) (transactions st) →
      StronglySorted newer_first l' → ∃ tail, l' = entry :: tail) as Hhead.
    { intros uid entry l' _ Hkey Hp Hsorted.
      destruct l' as [|y tail].
      { by apply Permutation_nil_cons in Hp. }
      assert (y ∈ entry :: filter (λ x, Transaction.user_id x = uid)
                           (transactions st)) as Hy
        by (rewrite <-Hp; left).
      apply elem_of_cons in Hy as [->|Hy]; [by eexists|].
      apply list_elem_of_filter in Hy as [_ Hy]. apply Hnew in Hy.
      assert (entry ∈ y :: tail) as He by (rewrite Hp; left).
      apply elem_of_cons in He as [->|He]; [by eexists|].
      apply StronglySorted_inv in Hsorted as [_ Hall].
      rewrite Forall_forall in Hall. specialize (Hall entry He).
      unfold newer_first in Hall. lia. }
    split.
    + destruct (Hafter (User.id su)) as (l' & Hl' & Hp & Hsorted).
      { rewrite Hsid, Hs. done. }
      assert (filter (λ x, Transaction.user_id x = User.id su)
                [entry_debit; entry_credit] = [entry_debit]) as Hf.
      { unfold entry_debit, entry_credit.
        rewrite filter_cons_True by done.
        rewrite filter_cons_False by (cbn; congruence). done. }
      rewrite Hf in Hp.
      destruct (Hhead _ entry_debit l' Hf eq_refl Hp Hsorted) as [tail ->].
      by exists tail.
    + assert (is_Some (list_find (λ u, User.id u = User.id ru) (users st)))
        as Hfound.
      { destruct (list_find (λ u, User.id u = User.id ru) (users st)) eqn:Hn;
          [done|].
        apply list_find_None in Hn. rewrite Forall_forall in Hn.
        destruct (Hn ru); [by eapply list_elem_of_lookup_2|done]. }
      destruct (Hafter (User.id ru) Hfound) as (l' & Hl' & Hp & Hsorted).
      assert (filter (λ x, Transaction.user_id x = User.id ru)
                [entry_debit; entry_credit] = [entry_credit]) as Hf.
      { unfold entry_debit, entry_credit.
        rewrite filter_cons_False by (cbn; congruence).
        by rewrite filter_cons_True by done. }
      rewrite Hf in Hp.
      destruct (Hhead _ entry_credit l' Hf eq_refl Hp Hsorted) as [tail ->].
      by exists tail.
Qed.

Lemma X2_witness :
  ∃ tail,
    fst (get_user_transactions 1
           (snd (money_transfer noon (TransferRequest.mk 1 1000000002 500)
                   (sample_store 20000))))
    = Return (Some (Transaction.mk 1 1000000001 (-500) "debit"
                      (Some (now noon)) :: tail)).
Proof.
  edestruct (X2_listing_after_transfer noon
               (TransferRequest.mk 1 1000000002 500) (sample_store 20000))
    as (_ & H).
  - vm_compute. reflexivity.
  - vm_compute. reflexivity.
  - vm_compute. reflexivity.
  - destruct H as [Hd _].
    + intros x Hx. vm_compute in Hx. by apply elem_of_nil in Hx.
    + vm_compute. discriminate.
    + exact Hd.
Defined.

(** ** Validation, once more *)

(** X3.  Validation is idempotent in a session: run a second time on the
    session it has left, at the same moment and on the same objects, it
    gives the same outcome and changes nothing any more. *)
Theorem X3_validation_idempotent w i j a s su ru :
  objects s !! i = Some su → objects s !! j = Some ru →
  let '(r, s') := validate_transfer_request w i j a s in
  validate_transfer_request w i j a s' = (r, s').
Proof.
  intros Hi Hj. rewrite (validate_run _ _ _ _ _ _ _ Hi Hj).
  destruct (decide (a ≤ 0)%float) as [Ha|Ha].
  { rewrite (validate_run _ _ _ _ _ _ _ Hi Hj). by rewrite decide_True. }
  destruct (decide (User.AccountNo su = User.AccountNo ru)) as [Hno|Hno].
  { rewrite (validate_run _ _ _ _ _ _ _ Hi Hj).
    by rewrite decide_False, decide_True. }
  destruct (decide (User.Amount su < a)%float) as [Hlow|Hlow].
  { rewrite (validate_run _ _ _ _ _ _ _ Hi Hj).
    by rewrite decide_False, decide_False, decide_True. }
  assert (i ≠ j) as Hij by (intros ->; congruence).
  cbn zeta. set (su' := reset_daily w su).
  assert (objects (with_object i su' s) !! i = Some su') as Hi'
    by (by eapply with_object_lookup).
  assert (objects (with_object i su' s) !! j = Some ru) as Hj'
    by (by rewrite with_object_lookup_ne).
  assert (reset_daily w su' = su') as Hfix
    by (apply reset_daily_fresh, reset_daily_today).
  assert (User.AccountNo su' = User.AccountNo su
          ∧ User.Amount su' = User.Amount su) as [Hno' Hbal'].
  { unfold su'. by destruct (reset_daily_fixed w su) as (_ & _ & -> & ->). }
  case_decide as Hlim.
  all: rewrite (validate_run _ _ _ _ _ _ _ Hi' Hj'); cbn zeta.
  all: rewrite Hfix, with_object_twice, Hno', Hbal'.
  all: rewrite decide_False, decide_False, decide_False by done.
  - by rewrite decide_True.
  - by rewrite decide_False.
Qed.

Lemma X3_witness :
  let '(r, s') :=
    validate_transfer_request noon 0 1 2500 (open_session stale_store) in
  validate_transfer_request noon 0 1 2500 s' = (r, s').
Proof.
  apply (X3_validation_idempotent noon 0 1 2500 (open_session stale_store)
           (User.mk 1 "user1" 1000000001 5000 500 19999)
           (User.mk 2 "user2" 1000000002 3000 2000 19999));
    reflexivity.
Defined.

(** ** The two paths of a transfer, side by side *)

(** X4.  Run at the same moment on the same store with the same sender key,
    receiver account and amount, the scheduled task does to the accounts
    what the immediate transfer does: where the one succeeds the other
    succeeds with the same summary and the same accounts afterwards (and the
    ledger untouched); where the one answers 404 or rejects for insufficient
    funds or for the daily limit, the other returns the failed result with
    the same reason and the same remaining allowance; where the commit of the
    one is refused, the other raises for a retry.  Only the rejections for
    the amount and for a self-transfer have no counterpart in the task. *)
Theorem X4_paths_agree w retries request st :
  let run_task :=
    schedule_money_transfer w retries (TransferRequest.sender_id request)
      (TransferRequest.receiver_account request)
      (TransferRequest.amount request) st in
  match money_transfer w request st with
  | (Return s, st') =>
      run_task =
        (Return (TaskSuccess s (TransferRequest.amount request)),
         mkStore (users st') (transactions st))
  | (Raise (HTTPException 404 reason), _) =>
      run_task = (Return (TaskFailed reason), st)
  | (Raise (HTTPException 400 InsufficientFunds), _) =>
      run_task = (Return (TaskFailed InsufficientFunds), st)
  | (Raise (HTTPException 400 (DailyLimitExceeded d)), _) =>
      run_task = (Return (TaskFailed (DailyLimitExceeded d)), st)
  | (Raise (HTTPException 500 (TransactionFailed e)), _) =>
      run_task =
        (Raise (celery.retry max_retries retries (SQLAlchemyError e) 60), st)
  | (Raise (HTTPException 400 reason), _) =>
      reason = InvalidAmount ∨ reason = SelfTransfer
  | _ => False
  end.
Proof.
  intros run_task. unfold run_task.
  destruct (list_find (λ u, User.id u = TransferRequest.sender_id request)
              (users st)) as [[i su]|] eqn:Hs.
  2: { rewrite money_transfer_no_sender by done. by apply task_no_sender. }
  destruct (list_find
              (λ u, User.AccountNo u = TransferRequest.receiver_account request)
              (users st)) as [[j ru]|] eqn:Hr.
  2: { erewrite money_transfer_no_receiver by done.
       by eapply task_no_receiver. }
  erewrite money_transfer_found, task_found by done.
  pose proof Hs as (Hi & _)%list_find_Some.
  pose proof Hr as (Hj & _)%list_find_Some.
  unfold rejection. cbn zeta.
  destruct (decide (TransferRequest.amount request ≤ 0)%float); [by left|].
  destruct (decide (User.AccountNo su = User.AccountNo ru)); [by right|].
  assert (i ≠ j) as Hij by (intros ->; congruence).
  destruct (decide (User.Amount su < _)%float); [done|].
  destruct (decide (_ > User.daily_used _)%float); [done|].
  destruct (commit_fault w) as [err|]; [done|].
  by rewrite !decide_False by done.
Qed.

(** ** The date of a scheduled transfer *)

Lemma today_bounds w :
  today w * 86400 ≤ now w < (today w + 1) * 86400.
Proof.
  unfold today, seconds_per_day.
  pose proof (Z.div_mod (now w) 86400 ltac:(lia)) as Hdm.
  pose proof (Z.mod_pos_bound (now w) 86400 ltac:(lia)) as Hb.
  lia.
Qed.

(** X7.  For a request that passes validation and that the broker accepts,
    the date alone decides: a scheduled date after today is accepted, a
    date before today is refused, and so is today's date, unless the request
    arrives at the very first second of the day, when it is accepted with an
    eta equal to the current moment.  The day of the eta of a date is that
    date. *)
Theorem X7_scheduling_date_rule w request a st i su j ru :
  list_find (λ u, User.id u = ScheduledTransferRequest.sender_id request)
    (users st) = Some (i, su) →
  list_find
    (λ u, User.AccountNo u = ScheduledTransferRequest.receiver_account request)
    (users st) = Some (j, ru) →
  rejection w su ru (ScheduledTransferRequest.amount request) = None →
  broker_fault w = None →
  let d := ScheduledTransferRequest.scheduled_date request in
  let outcome := fst (scheduled_money_transfer w request a st) in
  datetime_combine_min d `div` seconds_per_day = d
  ∧ (today w < d → ∃ ok, outcome = Return ok)
  ∧ (d < today w → outcome = Raise (HTTPException 400 NotInFuture))
  ∧ (d = today w → now w ≠ datetime_combine_min d →
     outcome = Raise (HTTPException 400 NotInFuture))
  ∧ (d = today w → now w = datetime_combine_min d →
     ∃ ok, outcome = Return ok).
Proof.
  intros Hs Hr Hrej Hbroker d outcome. unfold outcome.
  erewrite scheduled_found by done. rewrite Hrej, Hbroker. fold d.
  pose proof (today_bounds w) as Hday.
  unfold datetime_combine_min, seconds_per_day in *.
  split_and!.
  - apply Z.div_mul. lia.
  - intros Hlater. rewrite decide_False by lia. by eexists.
  - intros Hearlier. rewrite decide_True by lia. done.
  - intros Hsame Hne. rewrite decide_True by lia. done.
  - intros Hsame Hmid. rewrite decide_False by lia. by eexists.
Qed.

Lemma X7_witness :
  fst (scheduled_money_transfer noon
         (ScheduledTransferRequest.mk 1 1000000002 500 20000)
         (celery.mkApp [] ∅) (sample_store 20000))
  = Raise (HTTPException 400 NotInFuture).
Proof.
  edestruct (X7_scheduling_date_rule noon
               (ScheduledTransferRequest.mk 1 1000000002 500 20000)
               (celery.mkApp [] ∅) (sample_store 20000))
    as (_ & _ & _ & H & _).
  - vm_compute. reflexivity.
  - vm_compute. reflexivity.
  - vm_compute. reflexivity.
  - reflexivity.
  - apply H; [vm_compute; reflexivity | vm_compute; discriminate].
Defined.

(** ** Seeding *)

Lemma seeded_find w uid :
  fst <$> list_find (λ u, User.id u = uid) (seeded_user w <$> seqZ 1 10)
  = if decide (fresh_user_id w ≤ uid < fresh_user_id w + 10)
    then Some (Z.to_nat (uid - fresh_user_id w)) else None.
Proof.
  case_decide as Hin.
  - destruct (list_find _ _) as [[i u]|] eqn:Hf.
    + apply list_find_Some in Hf as (Hi & Hid & _).
      rewrite list_lookup_fmap in Hi.
      destruct (seqZ 1 10 !! i) as [k|] eqn:Hk; [|done].
      injection Hi as <-. apply lookup_seqZ in Hk as [-> Hlt].
      cbn in Hid |- *. f_equal. lia.
    + apply list_find_None in Hf. rewrite Forall_forall in Hf.
      destruct (Hf (seeded_user w (uid - fresh_user_id w + 1))).
      * apply list_elem_of_fmap. eexists. split; [done|].
        apply elem_of_seqZ. lia.
      * cbn. lia.
  - destruct (list_find _ _) as [[i u]|] eqn:Hf; [|done].
    apply list_find_Some in Hf as (Hi & Hid & _).
    rewrite list_lookup_fmap in Hi.
    destruct (seqZ 1 10 !! i) as [k|] eqn:Hk; [|done].
    injection Hi as <-. apply lookup_seqZ in Hk as [-> Hlt].
    cbn in Hid. lia.
Qed.

(** X8.  Seeding either fails as a whole, when the engine refuses the
    commit, and changes nothing, or replaces whatever accounts there were by
    ten accounts of balance 5000 and allowance 2000, reset today, with the
    account numbers 1000000001 to 1000000010 and ten consecutive keys, and
    keeps the ledger as it is.  The listing of a key then answers "User not
    found" outside the ten new keys, also for a user that had entries, and
    inside them returns the entries that the ledger already held under that
    key. *)
Theorem X8_seeding w st :
  match commit_fault w with
  | Some e => seed_data w st = (Raise (HTTPException 500 (DatabaseError e)), st)
  | None =>
      ∃ st',
        seed_data w st = (Return "10 users seeded successfully", st')
        ∧ transactions st' = transactions st
        ∧ length (users st') = 10%nat
        ∧ total_balance st' = 50000%float
        ∧ (∀ k u, users st' !! k = Some u →
             User.id u = fresh_user_id w + Z.of_nat k
             ∧ User.AccountNo u = 1000000001 + Z.of_nat k
             ∧ User.Amount u = 5000%float ∧ User.daily_used u = 2000%float
             ∧ User.last_reset u = today w)
        ∧ (∀ uid,
             fst (get_user_transactions uid st') =
               Return
                 (if decide (fresh_user_id w ≤ uid < fresh_user_id w + 10)
                  then Some (merge_sort newer_first
                               (filter (λ x, Transaction.user_id x = uid)
                                  (transactions st)))
                  else None))
  end.
Proof.
  rewrite seed_data_run. destruct (commit_fault w) as [e|]; [done|].
  eexists. split; [reflexivity|]. cbn [users transactions]. split_and!.
  - done.
  - done.
  - done.
  - intros k u Hk. rewrite list_lookup_fmap in Hk.
    destruct (seqZ 1 10 !! k) as [z|] eqn:Hz; [|done].
    injection Hk as <-. apply lookup_seqZ in Hz as [-> Hlt].
    cbn. split_and!; try done; lia.
  - intros uid. rewrite get_user_transactions_run. cbn [fst users transactions].
    pose proof (seeded_find w uid) as Hf.
    destruct (list_find _ _) as [[i u]|]; case_decide; done.
Qed.

(** ** What an operation can do to the store *)

(** An immediate transfer either fails and leaves the store alone, or is a
    transfer between two rows with its two entries appended to the ledger. *)
Lemma money_transfer_effect w request st :
  let a := TransferRequest.amount request in
  (snd (money_transfer w request st) = st
   ∧ ∃ e, fst (money_transfer w request st) = Raise e)
  ∨ ∃ s i su j ru,
      list_find (λ u, User.id u = TransferRequest.sender_id request) (users st)
        = Some (i, su)
      ∧ list_find
          (λ u, User.AccountNo u = TransferRequest.receiver_account request)
          (users st) = Some (j, ru)
      ∧ ¬ (a ≤ 0)%float ∧ ¬ (User.Amount su < a)%float
      ∧ ¬ (a > User.daily_used (reset_daily w su))%float
      ∧ money_transfer w request st =
          (Return s,
           mkStore
             (<[j := credit a
                       (if decide (i = j) then debit a (reset_daily w su)
                        else ru)]>
                (<[i := debit a (reset_daily w su)]> (users st)))
             (transactions st ++
                (Transaction.stamp (now w) <$> ledger_pair a su ru))).
Proof.
  intros a. unfold a.
  destruct (list_find (λ u, User.id u = TransferRequest.sender_id request)
              (users st)) as [[i su]|] eqn:Hs.
  2: { rewrite money_transfer_no_sender by done. left. eauto. }
  destruct (list_find
              (λ u, User.AccountNo u = TransferRequest.receiver_account request)
              (users st)) as [[j ru]|] eqn:Hr.
  2: { erewrite money_transfer_no_receiver by done. left. eauto. }
  erewrite money_transfer_found by done.
  destruct (rejection w su ru _) as [r|] eqn:Hrej; [left; eauto|].
  destruct (commit_fault w) as [err|]; [left; eauto|].
  pose proof Hs as (Hi & _)%list_find_Some.
  pose proof Hr as (Hj & _)%list_find_Some.
  pose proof (rejection_None _ _ _ _ Hrej) as (Hpos & Hno & Hbal & Hlim).
  assert (i ≠ j) as Hij by (intros ->; congruence).
  right. eexists _, i, su, j, ru. split_and!; try done.
  by rewrite decide_False by done.
Qed.

(** The scheduled task either leaves the store alone without reporting a
    success, or is a transfer between two rows, the ledger untouched. *)
Lemma task_effect w retries sid racct a st :
  (snd (schedule_money_transfer w retries sid racct a st) = st
   ∧ ∀ s a', fst (schedule_money_transfer w retries sid racct a st)
             ≠ Return (TaskSuccess s a'))
  ∨ ∃ s i su j ru,
      list_find (λ u, User.id u = sid) (users st) = Some (i, su)
      ∧ list_find (λ u, User.AccountNo u = racct) (users st) = Some (j, ru)
      ∧ ¬ (User.Amount su < a)%float
      ∧ ¬ (a > User.daily_used (reset_daily w su))%float
      ∧ schedule_money_transfer w retries sid racct a st =
          (Return (TaskSuccess s a),
           mkStore
             (<[j := credit a
                       (if decide (i = j) then debit a (reset_daily w su)
                        else ru)]>
                (<[i := debit a (reset_daily w su)]> (users st)))
             (transactions st)).
Proof.
  destruct (list_find (λ u, User.id u = sid) (users st))
    as [[i su]|] eqn:Hs.
  2: { rewrite task_no_sender by done. by left. }
  destruct (list_find (λ u, User.AccountNo u = racct) (users st))
    as [[j ru]|] eqn:Hr.
  2: { erewrite task_no_receiver by done. by left. }
  erewrite task_found by done. cbn zeta.
  destruct (decide (User.Amount su < a)%float); [by left|].
  destruct (decide (a > _)%float); [by left|].
  destruct (commit_fault w) as [err|].
  { left. split; [done|]. intros s a'. unfold celery.retry. by case_decide. }
  right. by eexists _, i, su, j, ru.
Qed.

(** One dispatch, seen from the queue: the message goes, or it comes back
    with one retry more, a minute later, and had fewer than three. *)
Lemma worker_run_queue w k m st a :
  let queue := celery.broker (snd (worker_run w k m st a)) in
  fst (worker_run w k m st a)
    = snd (schedule_money_transfer w (celery.retries m) (celery.sender_id m)
             (celery.receiver_account m) (celery.amount m) st)
  ∧ (queue = delete k (celery.broker a)
     ∨ (celery.retries m < 3
        ∧ queue =
            <[k := celery.mkMessage (celery.task_id m) (celery.sender_id m)
                     (celery.receiver_account m) (celery.amount m)
                     (now w + 60) (celery.retries m + 1)]> (celery.broker a))).
Proof.
  unfold worker_run.
  destruct (task_outcome w (celery.retries m) (celery.sender_id m)
              (celery.receiver_account m) (celery.amount m) st)
    as [(v & st' & ->)|(err & _ & ->)].
  - cbn. split; [done|by left].
  - destruct (decide (celery.retries m < max_retries)) as [Hlt|Hge].
    + rewrite retry_granted by done. cbn. split; [done|]. right.
      by unfold max_retries in Hlt.
    + rewrite retry_exhausted by lia. cbn. split; [done|by left].
Qed.

(** A property of the service that every operation keeps holds after every
    sequence of operations. *)
Lemma run_preserves (P : System → Prop) :
  (∀ op sys, P sys → P (fst (perform op sys))) →
  ∀ ops sys, P sys → P (fst (run ops sys)).
Proof.
  intros Hstep ops. induction ops as [|op ops IH]; intros sys Hsys; [done|].
  cbn [run]. specialize (Hstep op sys Hsys).
  destruct (perform op sys) as [sys1 ids1]. specialize (IH sys1 Hstep).
  by destruct (run ops sys1).
Qed.

(** What [perform] does to the store, operation by operation. *)
Lemma perform_store op sys :
  store (fst (perform op sys)) =
    match op with
    | Seed w => snd (seed_data w (store sys))
    | Immediate w request => snd (money_transfer w request (store sys))
    | Scheduled _ _ => store sys
    | Dispatch w k =>
        match celery.broker (app sys) !! k with
        | Some m =>
            if decide (celery.eta m ≤ now w) then
              snd (schedule_money_transfer w (celery.retries m)
                     (celery.sender_id m) (celery.receiver_account m)
                     (celery.amount m) (store sys))
            else store sys
        | None => store sys
        end
    end.
Proof.
  destruct op as [w|w request|w request|w k]; cbn [perform]; try done.
  - pose proof (scheduled_store w request (app sys) (store sys)) as Hst.
    by destruct (scheduled_money_transfer w request (app sys) (store sys))
      as [[[s a']|e] st'].
  - destruct (celery.broker (app sys) !! k) as [m|]; [|done].
    case_decide; [|done].
    pose proof (worker_run_queue w k m (store sys) (app sys)) as [Hst _].
    by destruct (worker_run w k m (store sys) (app sys)).
Qed.

(** ** What holds in every reachable state *)

Lemma perform_identity op sys :
  is_seed op = false →
  identity <$> users (store (fst (perform op sys)))
    = identity <$> users (store sys).
Proof.
  intros Hop. rewrite perform_store.
  destruct op as [w|w request|w request|w k]; [done|..].
  - apply money_transfer_identity.
  - done.
  - destruct (celery.broker (app sys) !! k) as [m|]; [|done].
    case_decide; [|done]. apply task_identity.
Qed.

Lemma seeded_identity_NoDup w :
  NoDup (User.id <$> (seeded_user w <$> seqZ 1 10))
  ∧ NoDup (User.AccountNo <$> (seeded_user w <$> seqZ 1 10)).
Proof.
  rewrite <-!list_fmap_compose. split.
  - apply NoDup_fmap_2_strong; [|apply NoDup_seqZ].
    intros x y _ _. cbn. lia.
  - apply NoDup_fmap_2_strong; [|apply NoDup_seqZ].
    intros x y _ _. cbn. lia.
Qed.

(** X9.  In every state reachable from the empty store through the public
    operations no two accounts share a key and no two share an account
    number: a lookup by key or by account number has at most one row to
    find. *)
Theorem X9_accounts_are_unique ops i j u v :
  users (store (fst (run ops initial))) !! i = Some u →
  users (store (fst (run ops initial))) !! j = Some v →
  User.id u = User.id v ∨ User.AccountNo u = User.AccountNo v →
  i = j.
Proof.
  assert (NoDup (User.id <$> users (store (fst (run ops initial))))
          ∧ NoDup (User.AccountNo <$> users (store (fst (run ops initial)))))
    as [Hids Hnos].
  { apply (run_preserves
             (λ sys, NoDup (User.id <$> users (store sys))
                     ∧ NoDup (User.AccountNo <$> users (store sys)))).
    2: { cbn. split; apply NoDup_nil_2. }
    intros op sys [Hi Hn].
    destruct (is_seed op) eqn:Hop.
    - destruct op as [w| | |]; try done. rewrite perform_store, seed_data_run.
      destruct (commit_fault w); [done|]. apply seeded_identity_NoDup.
    - pose proof (perform_identity op sys Hop) as Hid.
      assert (∀ l : list User.t,
                User.id <$> l = (λ x : Z * string * Z, x.1.1) <$> (identity <$> l))
        as Hfid by (intros l; by rewrite <-list_fmap_compose).
      assert (∀ l : list User.t,
                User.AccountNo <$> l
                = (λ x : Z * string * Z, x.2) <$> (identity <$> l))
        as Hfno by (intros l; by rewrite <-list_fmap_compose).
      rewrite Hfid, Hfno, Hid, <-Hfid, <-Hfno. done. }
  intros Hu Hv [Heq|Heq].
  - eapply (NoDup_lookup _ i j (User.id u) Hids).
    + by rewrite list_lookup_fmap, Hu.
    + by rewrite list_lookup_fmap, Hv, Heq.
  - eapply (NoDup_lookup _ i j (User.AccountNo u) Hnos).
    + by rewrite list_lookup_fmap, Hu.
    + by rewrite list_lookup_fmap, Hv, Heq.
Qed.

Lemma X9_witness :
  let ops := [Seed noon; Immediate noon (TransferRequest.mk 1 1000000002 500)] in
  users (store (fst (run ops initial))) !! 1%nat
    = Some (User.mk 2 "user2" 1000000002 5500 2000 20000)
  ∧ ∀ j v, users (store (fst (run ops initial))) !! j = Some v →
           User.AccountNo v = 1000000002 → j = 1%nat.
Proof.
  intros ops. split; [vm_compute; reflexivity|].
  intros j v Hv Hno. symmetry.
  apply (X9_accounts_are_unique ops 1 j
           (User.mk 2 "user2" 1000000002 5500 2000 20000) v);
    [vm_compute; reflexivity | exact Hv | right; by rewrite Hno].
Defined.

Lemma perform_ledger op sys :
  transactions (store (fst (perform op sys))) = transactions (store sys)
  ∨ ∃ w a su ru,
      ¬ (a ≤ 0)%float
      ∧ transactions (store (fst (perform op sys))) =
          transactions (store sys) ++
            [Transaction.mk (User.id su) (User.AccountNo su) (- a) "debit"
               (Some (now w));
             Transaction.mk (User.id ru) (User.AccountNo ru) a "credit"
               (Some (now w))].
Proof.
  rewrite perform_store. destruct op as [w|w request|w request|w k].
  - left. rewrite seed_data_run. by destruct (commit_fault w).
  - destruct (money_transfer_effect w request (store sys))
      as [[-> _]|(s & i & su & j & ru & _ & _ & Hpos & _ & _ & ->)];
      [by left|].
    right. by exists w, (TransferRequest.amount request), su, ru.
  - by left.
  - left. destruct (celery.broker (app sys) !! k) as [m|]; [|done].
    case_decide; [|done]. apply scheduled_task_ledger.
Qed.

(** ** The scheduling request of sample.py *)

Lemma sample_scheduled_run w request a st :
  sample.scheduled_money_transfer w request a st =
    match
      list_find (λ u, User.id u = ScheduledTransferRequest.sender_id request)
        (users st)
    with
    | None => (Raise (HTTPException 404 SenderNotFound), st)
    | Some (i, su) =>
        match
          list_find
            (λ u, User.AccountNo u =
                    ScheduledTransferRequest.receiver_account request)
            (users st)
        with
        | None => (Raise (HTTPException 404 ReceiverNotFound), st)
        | Some (j, ru) =>
            if decide (ScheduledTransferRequest.amount request ≤ 0)%float
            then (Raise (HTTPException 400 InvalidAmount), st)
            else if decide (User.AccountNo su = User.AccountNo ru)
            then (Raise (HTTPException 400 SelfTransfer), st)
            else if decide
                      (datetime_combine_min
                         (ScheduledTransferRequest.scheduled_date request)
                       < now w)
            then (Raise (HTTPException 400 NotInFuture), st)
            else
              match broker_fault w with
              | Some e => (Raise (HTTPException 500 (FailedToSchedule e)), st)
              | None =>
                  (Return
                     (mkScheduled (fresh_task_id w)
                        (ScheduledTransferRequest.scheduled_date request)
                        (User.username su) (User.username ru)
                        (ScheduledTransferRequest.amount request),
                      celery.mkApp
                        (celery.broker a ++
                           [celery.mkMessage (fresh_task_id w)
                              (ScheduledTransferRequest.sender_id request)
                              (ScheduledTransferRequest.receiver_account
                                 request)
                              (ScheduledTransferRequest.amount request)
                              (datetime_combine_min
                                 (ScheduledTransferRequest.scheduled_date
                                    request)) 0])
                        (celery.backend a)),
                   st)
              end
        end
    end.
Proof.
  unfold sample.scheduled_money_transfer, get_db.
  destruct (list_find
              (λ u, User.id u = ScheduledTransferRequest.sender_id request)
              (users st)) as [[i su]|] eqn:Hs.
  2: { by query_step Hs. }
  query_step Hs.
  destruct (list_find
              (λ u, User.AccountNo u =
                      ScheduledTransferRequest.receiver_account request)
              (users st)) as [[j ru]|] eqn:Hr.
  2: { by query_step Hr. }
  query_step Hr.
  pose proof Hs as (Hi & _)%list_find_Some.
  pose proof Hr as (Hj & _)%list_find_Some.
  change (users st) with (objects (open_session st)) in Hi, Hj.
  case_decide; [reflexivity|].
  repeat run1. case_decide; [reflexivity|].
  case_decide; [reflexivity|].
  unfold celery.apply_async.
  destruct (broker_fault w) as [e|]; [reflexivity|].
  by repeat run1.
Qed.

(** X13.  The scheduling request of sample.py checks the amount and the
    self-transfer only: it accepts every request between two existing
    accounts of different numbers for an amount that is not <= 0 and an eta
    that is not past, whatever the balance and the allowance of the sender, if the
    broker takes the message.  Every request that the route of
    api/routes/transfers.py accepts is accepted by it with the same answer
    and the same message queued. *)
Theorem X13_sample_scheduling_is_static :
  (∀ w request a st i su j ru,
     list_find (λ u, User.id u = ScheduledTransferRequest.sender_id request)
       (users st) = Some (i, su) →
     list_find
       (λ u, User.AccountNo u =
               ScheduledTransferRequest.receiver_account request)
       (users st) = Some (j, ru) →
     ¬ (ScheduledTransferRequest.amount request ≤ 0)%float →
     User.AccountNo su ≠ User.AccountNo ru →
     now w ≤ datetime_combine_min
               (ScheduledTransferRequest.scheduled_date request) →
     broker_fault w = None →
     ∃ ok, sample.scheduled_money_transfer w request a st = (Return ok, st)
           ∧ celery.broker (snd ok) =
               celery.broker a ++
                 [celery.mkMessage (fresh_task_id w)
                    (ScheduledTransferRequest.sender_id request)
                    (ScheduledTransferRequest.receiver_account request)
                    (ScheduledTransferRequest.amount request)
                    (datetime_combine_min
                       (ScheduledTransferRequest.scheduled_date request)) 0])
  ∧ (∀ w request a st ok st',
       scheduled_money_transfer w request a st = (Return ok, st') →
       sample.scheduled_money_transfer w request a st = (Return ok, st')).
Proof.
  split.
  - intros w request a st i su j ru Hs Hr Hpos Hno Heta Hbroker.
    rewrite sample_scheduled_run, Hs, Hr, Hbroker.
    rewrite !decide_False by (done || lia). eexists. split; reflexivity.
  - intros w request a st ok st'.
    rewrite sample_scheduled_run.
    destruct (list_find
                (λ u, User.id u = ScheduledTransferRequest.sender_id request)
                (users st)) as [[i su]|] eqn:Hs.
    2: { by rewrite scheduled_no_sender. }
    destruct (list_find
                (λ u, User.AccountNo u =
                        ScheduledTransferRequest.receiver_account request)
                (users st)) as [[j ru]|] eqn:Hr.
    2: { by erewrite scheduled_no_receiver. }
    erewrite scheduled_found by done.
    destruct (rejection w su ru _) as [r|] eqn:Hrej; [done|].
    apply rejection_None in Hrej as (Hpos & Hno & _).
    case_decide; [done|]. destruct (broker_fault w); [done|].
    by rewrite !decide_False by (done || lia).
Qed.

Lemma X13_witness :
  ∃ ok,
    sample.scheduled_money_transfer noon
      (ScheduledTransferRequest.mk 1 1000000002 6000 20001)
      (celery.mkApp [] ∅) (sample_store 20000) = (Return ok, sample_store 20000)
    ∧ celery.amount <$> celery.broker (snd ok) = [6000%float].
Proof.
  destruct X13_sample_scheduling_is_static as [H _].
  destruct (H noon (ScheduledTransferRequest.mk 1 1000000002 6000 20001)
              (celery.mkApp [] ∅) (sample_store 20000) 0%nat
              (User.mk 1 "user1" 1000000001 5000 2000 20000) 1%nat
              (User.mk 2 "user2" 1000000002 3000 2000 20000))
    as (ok & Hrun & Hq);
    [reflexivity | reflexivity | by vm_compute | simpl; lia
    | vm_compute; discriminate | reflexivity |].
  exists ok. split; [exact Hrun|]. by rewrite Hq.
Defined.

(** ** The status of a job after the worker has run it *)

Lemma get_task_status_frame a a' t :
  celery.backend a' !! t = celery.backend a !! t →
  get_task_status a' t = get_task_status a t.
Proof.
  intros H.
  unfold get_task_status, celery.AsyncResult_state, celery.AsyncResult_result,
    celery.AsyncResult_info.
  by rewrite H.
Qed.

(** X14.  After the worker has run the message of a job, the status lookup
    never answers "pending" for it again: it answers "success" with the value
    the task returned (a rejection by the task included), or, when the commit
    was refused, "retry" with no message, result or error while the message
    has been retried fewer than 3 times, and "failure" with the text of the
    engine's error otherwise.  The answers for all other job ids are what
    they were. *)
Theorem X14_status_after_dispatch w k m st a :
  let a' := snd (worker_run w k m st a) in
  let t := celery.task_id m in
  let attempt :=
    schedule_money_transfer w (celery.retries m) (celery.sender_id m)
      (celery.receiver_account m) (celery.amount m) st in
  ((∃ v, fst attempt = Return v
         ∧ get_task_status a' t = mkStatus t "success" None (Some v) None)
   ∨ (∃ err, commit_fault w = Some err ∧ celery.retries m < 3
             ∧ get_task_status a' t = mkStatus t "retry" None None None)
   ∨ (∃ err, commit_fault w = Some err ∧ 3 ≤ celery.retries m
             ∧ get_task_status a' t
               = mkStatus t "failure" None None (Some err)))
  ∧ ∀ t', t' ≠ t → get_task_status a' t' = get_task_status a t'.
Proof.
  cbn zeta. unfold worker_run.
  destruct (task_outcome w (celery.retries m) (celery.sender_id m)
              (celery.receiver_account m) (celery.amount m) st)
    as [(v & st' & ->)|(err & Hfault & ->)].
  - split.
    + left. exists v. split; [done|].
      unfold get_task_status, celery.AsyncResult_state,
        celery.AsyncResult_result. cbn. by rewrite lookup_insert_eq.
    + intros t' Hne. apply get_task_status_frame. cbn.
      by rewrite lookup_insert_ne.
  - destruct (decide (celery.retries m < max_retries)) as [Hlt|Hge].
    + rewrite retry_granted by done. split.
      * right; left. exists err. split; [done|].
        split; [by unfold max_retries in Hlt|].
        unfold get_task_status, celery.AsyncResult_state. cbn.
        by rewrite lookup_insert_eq.
      * intros t' Hne. apply get_task_status_frame. cbn.
        by rewrite lookup_insert_ne.
    + rewrite retry_exhausted by lia. split.
      * right; right. exists err. split; [done|].
        split; [unfold max_retries in Hge; lia|].
        unfold get_task_status, celery.AsyncResult_state,
          celery.AsyncResult_info. cbn. by rewrite lookup_insert_eq.
      * intros t' Hne. apply get_task_status_frame. cbn.
        by rewrite lookup_insert_ne.
Qed.

(** ** C9: the account invariant *)

Lemma float_lt_false x y : ¬ (x < y)%float → PrimFloat.ltb x y = false.
Proof. unfold float_lt. by destruct (PrimFloat.ltb x y). Qed.

Lemma float_le_false x y : ¬ (x ≤ y)%float → PrimFloat.leb x y = false.
Proof. unfold float_le. by destruct (PrimFloat.leb x y). Qed.

(** An amount that is a number and that the first check of the Validator
    lets through is positive. *)
Lemma float_positive a :
  float_number a → ¬ (a ≤ 0)%float → (0 < a)%float.
Proof.
  intros Hn Ha. apply float_not_le_lt; [done|apply float_number_zero|].
  by apply float_le_false.
Qed.

Lemma account_ok_reset w u : account_ok u → account_ok (reset_daily w u).
Proof. intros [Hb Hd]. unfold reset_daily. by case_decide. Qed.

(** A positive amount that the funds check and the limit check let through
    on an account within bounds is finite, and the debit leaves the account
    within bounds. *)
Lemma account_ok_debit w a u :
  account_ok u → (0 < a)%float →
  ¬ (User.Amount u < a)%float →
  ¬ (a > User.daily_used (reset_daily w u))%float →
  (a < infinity)%float ∧ account_ok (debit a (reset_daily w u)).
Proof.
  intros Hok Ha Hfunds Hlimit.
  apply (account_ok_reset w) in Hok as [Hb Hd].
  destruct (reset_daily_fixed w u) as (_ & _ & _ & HAmount).
  rewrite HAmount in Hb.
  apply float_lt_false in Hfunds, Hlimit.
  destruct (float_lt_number _ _ Ha) as [_ Hna].
  destruct (float_le_number _ _ Hb) as [_ Hnb].
  destruct (float_le_number _ _ Hd) as [Hnd _].
  assert (a < infinity)%float as Hfin.
  { apply float_le_lt_trans with standing_limit; [|reflexivity].
    apply float_le_trans with (User.daily_used (reset_daily w u)); [|done].
    by apply float_not_lt_le. }
  split; [done|]. split.
  - rewrite debit_reset_Amount. by apply float_sub_nonneg.
  - rewrite (proj1 (debit_reset_daily _ _ _)).
    by apply float_sub_upper.
Qed.

Lemma account_ok_credit a u :
  account_ok u → (0 < a)%float → (a < infinity)%float →
  account_ok (credit a u).
Proof.
  intros [Hb Hd] Ha Hfin. split; [|done].
  rewrite credit_Amount. by apply float_add_nonneg.
Qed.

Lemma task_accounts_ok w retries sid racct a st :
  (0 < a)%float → accounts_ok st →
  accounts_ok (snd (schedule_money_transfer w retries sid racct a st)).
Proof.
  intros Hpos Hok.
  destruct (task_effect w retries sid racct a st)
    as [[-> _]|(s & i & su & j & ru & Hs & Hr & Hfunds & Hlimit & ->)];
    [done|].
  pose proof Hs as (Hi & _)%list_find_Some.
  pose proof Hr as (Hj & _)%list_find_Some.
  unfold accounts_ok in *. cbn [snd users].
  destruct (account_ok_debit w a su) as [Hfin Hdeb]; [|done..|].
  { by eapply Forall_lookup_1. }
  apply Forall_insert; [by apply Forall_insert|].
  apply account_ok_credit; [|done..].
  case_decide; [done|]. by eapply Forall_lookup_1.
Qed.

Lemma money_transfer_accounts_ok w request st :
  float_number (TransferRequest.amount request) →
  accounts_ok st → accounts_ok (snd (money_transfer w request st)).
Proof.
  intros Hn Hok.
  destruct (money_transfer_effect w request st)
    as [[-> _]|(s & i & su & j & ru & Hs & Hr & Hpos & Hfunds & Hlimit & ->)];
    [done|].
  pose proof Hs as (Hi & _)%list_find_Some.
  pose proof Hr as (Hj & _)%list_find_Some.
  apply float_positive in Hpos; [|done].
  unfold accounts_ok in *. cbn [snd users].
  destruct (account_ok_debit w (TransferRequest.amount request) su)
    as [Hfin Hdeb]; [|done..|].
  { by eapply Forall_lookup_1. }
  apply Forall_insert; [by apply Forall_insert|].
  apply account_ok_credit; [|done..].
  case_decide; [done|]. by eapply Forall_lookup_1.
Qed.

Lemma seeded_accounts_ok w : Forall account_ok (seeded_user w <$> seqZ 1 10).
Proof. apply Forall_fmap, Forall_forall. by intros i _. Qed.

Lemma perform_invariant op sys :
  numeric op →
  accounts_ok (store sys) ∧ queue_ok (app sys) →
  accounts_ok (store (fst (perform op sys)))
  ∧ queue_ok (app (fst (perform op sys))).
Proof.
  intros Hnum [Hacc Hq].
  destruct op as [w|w request|w request|w k]; cbn [perform numeric] in *.
  - cbn. split; [|done]. rewrite seed_data_run.
    destruct (commit_fault w); [done|]. apply seeded_accounts_ok.
  - cbn. split; [|done]. by apply money_transfer_accounts_ok.
  - pose proof (scheduled_store w request (app sys) (store sys)) as Hst.
    destruct (scheduled_money_transfer w request (app sys) (store sys))
      as [[[s a']|e] st'] eqn:Hrun; cbn in *; subst st'; [|done].
    split; [done|].
    apply scheduled_accepted in Hrun as (_ & Hpos & ->).
    unfold queue_ok in *. cbn. apply Forall_app. split; [done|].
    apply Forall_singleton. by apply float_positive.
  - destruct (celery.broker (app sys) !! k) as [m|] eqn:Hk; [|done].
    case_decide; [|done].
    destruct (worker_run_shape w k m (store sys) (app sys))
      as (queue & meta & -> & Hqueue).
    assert (0 < celery.amount m)%float as Hpos.
    { unfold queue_ok in Hq. by eapply (Forall_lookup_1 _ _ _ _ Hq). }
    cbn. split; [by apply task_accounts_ok|].
    unfold queue_ok in *. cbn.
    destruct Hqueue as [->|(eta & retries & ->)].
    + by apply Forall_delete.
    + by apply Forall_insert.
Qed.

Lemma run_invariant ops : ∀ sys,
  Forall numeric ops →
  accounts_ok (store sys) ∧ queue_ok (app sys) →
  accounts_ok (store (fst (run ops sys))) ∧ queue_ok (app (fst (run ops sys))).
Proof.
  induction ops as [|op ops IH]; intros sys Hnum Hinv; [done|].
  apply Forall_cons in Hnum as [Hop Hnum].
  cbn [run]. pose proof (perform_invariant op sys Hop Hinv) as Hstep.
  destruct (perform op sys) as [sys1 ids1]. specialize (IH sys1 Hnum Hstep).
  by destruct (run ops sys1).
Qed.

(** C9, as the code has it.  In every state of the service that is reachable
    from the empty store through the public operations -- seeding, an
    immediate transfer, the scheduling of a transfer, the execution of a
    scheduled job by the worker -- with requests whose amount is a number,
    every account has a balance >= 0 and a daily allowance <= 2000, the
    standing limit.  The amounts are binary64 values and the arithmetic is
    that of binary64, rounding included. *)
Theorem C9_reachable_accounts_within_bounds ops u :
  Forall numeric ops →
  u ∈ users (store (fst (run ops initial))) →
  (0 ≤ User.Amount u)%float ∧ (User.daily_used u ≤ 2000)%float.
Proof.
  intros Hnum Hu.
  destruct (run_invariant ops initial Hnum) as [Hacc _].
  { split; apply Forall_nil_2. }
  unfold accounts_ok in Hacc. rewrite Forall_forall in Hacc.
  exact (Hacc u Hu).
Qed.

Lemma C9_witness :
  let ops := [Seed noon;
              Scheduled noon
                (ScheduledTransferRequest.mk 1 1000000002 0.5 20001);
              Immediate noon (TransferRequest.mk 1 1000000002 500);
              Dispatch (later 86400 None) 0] in
  users (store (fst (run ops initial))) !! 0%nat
    = Some (User.mk 1 "user1" 1000000001 4499.5 1999.5 20001)
  ∧ (0 ≤ 4499.5)%float ∧ (1999.5 ≤ 2000)%float.
Proof.
  intros ops. split; [vm_compute; reflexivity|].
  apply (C9_reachable_accounts_within_bounds ops
           (User.mk 1 "user1" 1000000001 4499.5 1999.5 20001)).
  - repeat constructor.
  - apply list_elem_of_lookup. exists 0%nat. vm_compute. reflexivity.
Defined.

(** A scheduling request whose amount is NaN passes the Validator, every
    test of which is false on NaN, and is queued; the worker executes the
    job, and the sender and the receiver are left with a balance that is
    NaN, the sender with an allowance that is NaN: neither balance >= 0 nor
    allowance <= 2000 holds. *)
Lemma C9_counterexample :
  let ops := [Seed noon;
              Scheduled noon
                (ScheduledTransferRequest.mk 1 1000000002 nan 20001);
              Dispatch (later 86400 None) 0] in
  let st := store (fst (run ops initial)) in
  snd (run ops initial) = ["job-1"]
  ∧ celery.AsyncResult_state (app (fst (run ops initial))) "job-1" = "SUCCESS"
  ∧ User.Amount <$> users st !! 0%nat = Some nan
  ∧ User.daily_used <$> users st !! 0%nat = Some nan
  ∧ User.Amount <$> users st !! 1%nat = Some nan
  ∧ ¬ (0 ≤ nan)%float ∧ ¬ (nan ≤ 2000)%float.
Proof. vm_compute. split_and!; done. Qed.

(** ** The ledger and the queue over runs *)

Lemma run_preserves_numeric (P : System → Prop) :
  (∀ op sys, numeric op → P sys → P (fst (perform op sys))) →
  ∀ ops sys, Forall numeric ops → P sys → P (fst (run ops sys)).
Proof.
  intros Hstep ops. induction ops as [|op ops IH]; intros sys Hnum Hsys;
    [done|].
  apply Forall_cons in Hnum as [Hop Hnum].
  cbn [run]. specialize (Hstep op sys Hop Hsys).
  destruct (perform op sys) as [sys1 ids1]. specialize (IH sys1 Hnum Hstep).
  by destruct (run ops sys1).
Qed.

(** On accounts within bounds, the amount of the pair that an immediate
    transfer of a number appends is positive and finite. *)
Lemma perform_ledger_numeric op sys :
  numeric op → accounts_ok (store sys) →
  transactions (store (fst (perform op sys))) = transactions (store sys)
  ∨ ∃ w a su ru,
      (0 < a)%float ∧ (a < infinity)%float
      ∧ transactions (store (fst (perform op sys))) =
          transactions (store sys) ++
            [Transaction.mk (User.id su) (User.AccountNo su) (- a) "debit"
               (Some (now w));
             Transaction.mk (User.id ru) (User.AccountNo ru) a "credit"
               (Some (now w))].
Proof.
  intros Hnum Hok.
  rewrite perform_store. destruct op as [w|w request|w request|w k].
  1: { left. rewrite seed_data_run. by destruct (commit_fault w). }
  2: { by left. }
  2: { left. destruct (celery.broker (app sys) !! k) as [m|]; [|done].
       case_decide; [|done]. apply scheduled_task_ledger. }
  destruct (money_transfer_effect w request (store sys))
    as [[-> _]|(s & i & su & j & ru & Hs & _ & Hpos & Hfunds & Hlimit & ->)];
    [by left|].
  right. exists w, (TransferRequest.amount request), su, ru.
  pose proof Hs as (Hi & _)%list_find_Some.
  apply float_positive in Hpos; [|done].
  destruct (account_ok_debit w (TransferRequest.amount request) su)
    as [Hfin _]; [|done..].
  by eapply (Forall_lookup_1 _ _ _ _ Hok).
Qed.

Lemma ledger_sum_pair l a su ru ts :
  (0 < a)%float → (a < infinity)%float →
  ledger_sum
    (l ++ [Transaction.mk (User.id su) (User.AccountNo su) (- a) "debit" ts;
           Transaction.mk (User.id ru) (User.AccountNo ru) a "credit" ts])
  = ledger_sum l.
Proof.
  intros Hpos Hfin. unfold ledger_sum. rewrite foldr_app. cbn [foldr].
  cbn [Transaction.amount]. by rewrite float_debit_credit.
Qed.


Lemma float_number_opp a : float_number (- a) → float_number a.
Proof.
  rewrite !float_number_spec. intros [_ Hn].
  split; [apply Prim2SF_valid|]. rewrite opp_spec in Hn.
  by destruct (Prim2SF a).
Qed.

(** The debit of an amount that the amount check lets through is not
    >= 0. *)
Lemma float_debit_sign a : ¬ (a ≤ 0)%float → ¬ (0 ≤ - a)%float.
Proof.
  intros Ha H. destruct (float_le_number _ _ H) as [_ Hn].
  pose proof (float_number_opp _ Hn) as Hna.
  apply float_positive in Ha; [|done]. apply float_opp_negative in Ha.
  apply float_lt_value in Ha; [|done|apply float_number_zero].
  apply float_le_value in H; [|apply float_number_zero|done]. lia.
Qed.

(** X11.  The ledger only grows, at its end: no operation changes or removes
    an entry that is there.  In every state reachable from the empty store
    each entry carries its timestamp and is a debit whose amount is not >= 0
    or a credit whose amount is not <= 0.  When the requested amounts of the
    operations are numbers, the amount of each debit is negative, that of
    each credit is positive, and the binary64 sum of the amounts of the
    ledger is zero.  (A transfer of NaN, which passes every check, is
    committed by a store that keeps a float as it is handed to it, with two
    entries whose amount is NaN.) *)
Theorem X11_ledger_is_append_only :
  (∀ ops sys,
     transactions (store sys)
       `prefix_of` transactions (store (fst (run ops sys))))
  ∧ (∀ ops,
       Forall
         (λ x, is_Some (Transaction.timestamp x)
               ∧ ((Transaction.transaction_type x = "debit"
                   ∧ ¬ (0 ≤ Transaction.amount x)%float)
                  ∨ (Transaction.transaction_type x = "credit"
                     ∧ ¬ (Transaction.amount x ≤ 0)%float)))
         (transactions (store (fst (run ops initial)))))
  ∧ ∀ ops,
      Forall numeric ops →
      let ledger := transactions (store (fst (run ops initial))) in
      ledger_sum ledger = 0%float
      ∧ Forall
          (λ x, is_Some (Transaction.timestamp x)
                ∧ ((Transaction.transaction_type x = "debit"
                    ∧ (Transaction.amount x < 0)%float)
                   ∨ (Transaction.transaction_type x = "credit"
                      ∧ (0 < Transaction.amount x)%float)))
          ledger.
Proof.
  split_and!.
  - intros ops. induction ops as [|op ops IH]; intros sys; [done|].
    cbn [run]. specialize (IH (fst (perform op sys))).
    pose proof (perform_ledger op sys) as Hstep.
    destruct (perform op sys) as [sys1 ids1]. cbn [fst] in *.
    destruct (run ops sys1) as [sys2 ids2]. cbn [fst] in *.
    etrans; [|exact IH].
    destruct Hstep as [->|(w & a & su & ru & _ & ->)]; [done|].
    by apply prefix_app_r.
  - intros ops.
    apply (run_preserves
             (λ sys,
                Forall
                  (λ x, is_Some (Transaction.timestamp x)
                        ∧ ((Transaction.transaction_type x = "debit"
                            ∧ ¬ (0 ≤ Transaction.amount x)%float)
                           ∨ (Transaction.transaction_type x = "credit"
                              ∧ ¬ (Transaction.amount x ≤ 0)%float)))
                  (transactions (store sys)))); [|apply Forall_nil_2].
    intros op sys Hall.
    destruct (perform_ledger op sys) as [->|(w & a & su & ru & Hpos & ->)];
      [done|].
    apply Forall_app. split; [done|].
    repeat apply Forall_cons_2; [..|apply Forall_nil_2]; cbn.
    + split; [done|]. left. split; [done|]. by apply float_debit_sign.
    + split; [done|]. by right.
  - intros ops Hnum.
    apply (run_preserves_numeric
             (λ sys,
                (accounts_ok (store sys) ∧ queue_ok (app sys))
                ∧ ledger_sum (transactions (store sys)) = 0%float
                ∧ Forall
                    (λ x, is_Some (Transaction.timestamp x)
                          ∧ ((Transaction.transaction_type x = "debit"
                              ∧ (Transaction.amount x < 0)%float)
                             ∨ (Transaction.transaction_type x = "credit"
                                ∧ (0 < Transaction.amount x)%float)))
                    (transactions (store sys)))); [|done|].
    2: { split_and!; [apply Forall_nil_2..|done|apply Forall_nil_2]. }
    intros op sys Hop (Hinv & Hsum & Hall).
    split; [by apply perform_invariant|].
    destruct (perform_ledger_numeric op sys Hop (proj1 Hinv))
      as [->|(w & a & su & ru & Hpos & Hfin & ->)]; [done|].
    split.
    + by rewrite ledger_sum_pair.
    + apply Forall_app. split; [done|].
      repeat apply Forall_cons_2; [..|apply Forall_nil_2]; cbn.
      * split; [done|]. left. split; [done|]. by apply float_opp_negative.
      * split; [done|]. by right.
Qed.

Lemma X11_witness :
  let ops := [Seed noon;
              Immediate noon (TransferRequest.mk 1 1000000002 0.5)] in
  transactions (store (fst (run ops initial)))
    = [Transaction.mk 1 1000000001 (-0.5) "debit" (Some (now noon));
       Transaction.mk 2 1000000002 0.5 "credit" (Some (now noon))]
  ∧ ledger_sum (transactions (store (fst (run ops initial)))) = 0%float.
Proof.
  intros ops. split; [vm_compute; reflexivity|].
  destruct X11_ledger_is_append_only as (_ & _ & H).
  apply (H ops). repeat constructor.
Defined.

(** The pair of a transfer of NaN in a store that keeps it. *)
Lemma nan_transfer_ledger :
  let ops := [Seed noon;
              Immediate noon (TransferRequest.mk 1 1000000002 nan)] in
  Transaction.amount <$> transactions (store (fst (run ops initial)))
    = [nan; nan]
  ∧ ¬ (nan < 0)%float ∧ ¬ (0 < nan)%float.
Proof. vm_compute. split_and!; done. Qed.

(** X12.  In every state reachable from the empty store each message of the
    queue asks for an amount that is not <= 0, has been retried at most
    three times, and carries a job id that was handed to a caller; and the
    registry holds records for such ids only.  When the requested amounts of
    the operations are numbers, the amount of each message is positive. *)
Theorem X12_queue_is_well_formed ops :
  let '(sys, ids) := run ops initial in
  Forall
    (λ m, ¬ (celery.amount m ≤ 0)%float ∧ 0 ≤ celery.retries m ≤ 3
          ∧ celery.task_id m ∈ ids)
    (celery.broker (app sys))
  ∧ (∀ t, is_Some (celery.backend (app sys) !! t) → t ∈ ids)
  ∧ (Forall numeric ops →
     Forall (λ m, (0 < celery.amount m)%float) (celery.broker (app sys))).
Proof.
  pose proof (run_known ops [] initial) as Hknown.
  assert (Forall (λ m, ¬ (celery.amount m ≤ 0)%float
                       ∧ 0 ≤ celery.retries m ≤ 3)
            (celery.broker (app (fst (run ops initial))))) as Hq.
  { apply (run_preserves
             (λ sys, Forall (λ m, ¬ (celery.amount m ≤ 0)%float
                                  ∧ 0 ≤ celery.retries m ≤ 3)
                       (celery.broker (app sys)))); [|apply Forall_nil_2].
    intros op sys Hall.
    destruct op as [w|w request|w request|w k]; cbn [perform]; try done.
    - destruct (scheduled_money_transfer w request (app sys) (store sys))
        as [[[s a']|e] st'] eqn:Hrun; cbn; [|done].
      apply scheduled_accepted in Hrun as (_ & Hpos & ->). cbn.
      apply Forall_app. split; [done|]. apply Forall_singleton. cbn.
      split; [done|lia].
    - destruct (celery.broker (app sys) !! k) as [m|] eqn:Hm; [|done].
      case_decide; [|done].
      pose proof (worker_run_queue w k m (store sys) (app sys)) as [_ Hqueue].
      destruct (worker_run w k m (store sys) (app sys)) as [st' a'].
      cbn in *. pose proof (Forall_lookup_1 _ _ _ _ Hall Hm) as [Hpos Hr].
      destruct Hqueue as [->|[Hlt ->]].
      + by apply Forall_delete.
      + apply Forall_insert; [done|]. cbn. split; [done|lia]. }
  assert (Forall numeric ops →
          queue_ok (app (fst (run ops initial)))) as Hnum.
  { intros Hnum. apply (run_invariant ops initial Hnum).
    split; apply Forall_nil_2. }
  destruct (run ops initial) as [sys ids]. cbn [fst snd] in *.
  destruct Hknown as [Hids Hb].
  { split; [apply Forall_nil_2|]. intros t [x Hx]. by cbn in Hx. }
  split_and!; [|done|done]. rewrite Forall_forall in Hq, Hids |- *.
  intros m Hm. split_and!; [apply Hq..|apply Hids]; done.
Qed.

Lemma X12_witness :
  let ops := [Seed noon;
              Scheduled noon
                (ScheduledTransferRequest.mk 1 1000000002 0.5 20001)] in
  celery.broker (app (fst (run ops initial)))
    = [celery.mkMessage "job-1" 1 1000000002 0.5 1728086400 0]
  ∧ snd (run ops initial) = ["job-1"]
  ∧ Forall (λ m, (0 < celery.amount m)%float)
      (celery.broker (app (fst (run ops initial)))).
Proof.
  intros ops. split_and!; [vm_compute; reflexivity..|].
  pose proof (X12_queue_is_well_formed ops) as H.
  destruct (run ops initial) as [sys ids]. apply H. repeat constructor.
Defined.

(** ** C1: what a successful transfer does to the balances *)

(** C1, as the code has it.  A successful immediate transfer is one between
    two distinct accounts.  For every successful transfer of amount a
    between two distinct accounts, immediate or scheduled, the balance of
    the sender becomes the binary64 difference of its balance and a, the
    balance of the receiver the binary64 sum of its balance and a, and every
    other account is as it was. *)
Theorem C1_transfer_moves_the_amount :
  (∀ w request st s st',
     money_transfer w request st = (Return s, st') →
     ∃ i su j ru,
       list_find (λ u, User.id u = TransferRequest.sender_id request)
         (users st) = Some (i, su)
       ∧ list_find
           (λ u, User.AccountNo u = TransferRequest.receiver_account request)
           (users st) = Some (j, ru)
       ∧ i ≠ j
       ∧ User.Amount <$> users st' !! i
         = Some (User.Amount su - TransferRequest.amount request)%float
       ∧ User.Amount <$> users st' !! j
         = Some (User.Amount ru + TransferRequest.amount request)%float
       ∧ ∀ k, k ≠ i → k ≠ j → users st' !! k = users st !! k)
  ∧ (∀ w retries sid racct a st s a' st' i su j ru,
       schedule_money_transfer w retries sid racct a st
         = (Return (TaskSuccess s a'), st') →
       list_find (λ u, User.id u = sid) (users st) = Some (i, su) →
       list_find (λ u, User.AccountNo u = racct) (users st) = Some (j, ru) →
       i ≠ j →
       a' = a
       ∧ User.Amount <$> users st' !! i = Some (User.Amount su - a)%float
       ∧ User.Amount <$> users st' !! j = Some (User.Amount ru + a)%float
       ∧ ∀ k, k ≠ i → k ≠ j → users st' !! k = users st !! k).
Proof.
  split.
  - intros w request st s st'.
    destruct (list_find (λ u, User.id u = TransferRequest.sender_id request)
                (users st)) as [[i su]|] eqn:Hs.
    2: { by rewrite money_transfer_no_sender. }
    destruct (list_find
                (λ u, User.AccountNo u
                      = TransferRequest.receiver_account request)
                (users st)) as [[j ru]|] eqn:Hr.
    2: { by erewrite money_transfer_no_receiver. }
    erewrite money_transfer_found by done.
    destruct (rejection w su ru _) as [r|] eqn:Hrej; [done|].
    destruct (commit_fault w) as [err|]; [done|].
    intros [= <- <-]. exists i, su, j, ru.
    apply rejection_None in Hrej as (_ & Hno & _).
    pose proof Hs as (Hi & _)%list_find_Some.
    pose proof Hr as (Hj & _)%list_find_Some.
    assert (i ≠ j) as Hij by (intros ->; congruence).
    destruct (lookup_two_inserts (users st) i j
                (debit (TransferRequest.amount request) (reset_daily w su))
                (credit (TransferRequest.amount request) ru) su ru Hi Hj)
      as (Hlj & Hli & Hlk).
    cbn [users]. split_and!; [done..| | |done].
    + by rewrite (Hli Hij); cbn [fmap option_fmap option_map];
        rewrite debit_reset_Amount.
    + by rewrite Hlj.
  - intros w retries sid racct a st s a' st' i su j ru Hrun Hs Hr Hij.
    rewrite (task_found _ _ _ _ _ _ _ _ Hs _ _ Hr) in Hrun. cbn zeta in Hrun.
    repeat case_decide; try done.
    destruct (commit_fault w) as [err|]; [done|].
    injection Hrun as _ <- <-.
    pose proof Hs as (Hi & _)%list_find_Some.
    pose proof Hr as (Hj & _)%list_find_Some.
    destruct (lookup_two_inserts (users st) i j
                (debit a (reset_daily w su)) (credit a ru) su ru Hi Hj)
      as (Hlj & Hli & Hlk).
    cbn [users]. split_and!; [done| | |done].
    + by rewrite (Hli Hij); cbn [fmap option_fmap option_map];
        rewrite debit_reset_Amount.
    + by rewrite Hlj.
Qed.

Lemma C1_witness :
  let request := TransferRequest.mk 1 1000000002 500 in
  let st := sample_store 20000 in
  let st' := snd (money_transfer noon request st) in
  User.Amount <$> users st' !! 0%nat = Some 4500%float
  ∧ User.Amount <$> users st' !! 1%nat = Some 3500%float
  ∧ ∃ i su j ru,
      list_find (λ u, User.id u = TransferRequest.sender_id request)
        (users st) = Some (i, su)
      ∧ list_find
          (λ u, User.AccountNo u = TransferRequest.receiver_account request)
          (users st) = Some (j, ru)
      ∧ i ≠ j
      ∧ User.Amount <$> users st' !! i
        = Some (User.Amount su - TransferRequest.amount request)%float
      ∧ User.Amount <$> users st' !! j
        = Some (User.Amount ru + TransferRequest.amount request)%float
      ∧ ∀ k, k ≠ i → k ≠ j → users st' !! k = users st !! k.
Proof.
  intros request st st'. split_and!; [vm_compute; reflexivity..|].
  destruct C1_transfer_moves_the_amount as [H _].
  apply (H noon request st
           (mkSummary "user1" 4500 1500 "user2" 3500) st').
  vm_compute. reflexivity.
Defined.

(** A successful immediate transfer of 2^-41 from user1 to user2 at the
    accounts of tests/conftest.py: the balance of the sender, 5000, is 5000
    afterwards, the difference being rounded; the balance of the receiver has
    gone up from 3000; the third account is as it was.  The balance of the
    sender has not decreased by the amount, and the receiver has gained what
    no account has lost. *)
Lemma C1_counterexample :
  let st := sample_store 20000 in
  let '(r, st') :=
    money_transfer noon (TransferRequest.mk 1 1000000002 0x1p-41) st in
  (∃ s, r = Return s)
  ∧ (0 < 0x1p-41)%float
  ∧ User.Amount <$> users st !! 0%nat = Some 5000%float
  ∧ User.Amount <$> users st' !! 0%nat = Some 5000%float
  ∧ User.Amount <$> users st !! 1%nat = Some 3000%float
  ∧ (∃ b, User.Amount <$> users st' !! 1%nat = Some b ∧ (3000 < b)%float)
  ∧ users st' !! 2%nat = users st !! 2%nat
  ∧ length (users st') = 3%nat.
Proof.
  vm_compute. split_and!; try done; by eexists.
Qed.
